(** * Traffic-light detection page: the deterministic labeler and the batch
    orchestrator of [src/page.tsx], embedded and verified.

    Numbers are JavaScript numbers.  Integers that the code keeps integral
    (the 32-bit hash, character codes, counters, bounding boxes) are [Z];
    every value the code computes with fractions (confidences, processing
    times, progress, accuracy) is an IEEE-754 binary64 [float], the kernel's
    primitive type, so that the arithmetic below rounds as the program's does.

    Strings are [string]: a sequence of code units below 256 (the Latin-1
    range of UTF-16), on which [toLowerCase] is the per-unit Unicode mapping.
    For file names outside that range the labeler is given a second time, on
    lists of 16-bit code units and with [toLowerCase] as a parameter.

    The two asynchronous functions, processFile and processBatchFiles, are
    cut at their awaits: the page is a transition system in which the other
    handlers run while a call is suspended. *)

From Stdlib Require Import ZArith List String Ascii Bool Lia Arith.
From Stdlib Require Import Floats Uint63 DecimalString.
Import ListNotations.

Set Warnings "-inexact-float".

Open Scope string_scope.
Open Scope list_scope.
Open Scope Z_scope.

(** ** Data model (the interfaces at the top of page.tsx) *)

(** The values the code stores in [light_state] and [humanLabel]: the four
    states the labeler emits and the five options of the annotation dialog. *)
Inductive LightState :=
| red_light
| yellow_light
| green_light
| traffic_light
| no_traffic_light.

Definition LightState_eqb (a b : LightState) : bool :=
  match a, b with
  | red_light, red_light
  | yellow_light, yellow_light
  | green_light, green_light
  | traffic_light, traffic_light
  | no_traffic_light, no_traffic_light => true
  | _, _ => false
  end.

Inductive Status := pending | processing | completed | error.

(** A browser [File]: the labeler reads [name] only; [type] is the MIME type
    and [content] stands for the bytes. *)
Record File := mkFile {
  name : string;
  size : Z;
  type : string;
  content : string
}.

Record Detection := mkDetection {
  bbox : list Z;
  confidence : float;
  class : string;
  light_state : LightState
}.

Record FileResult := mkFileResult {
  fileName : string;
  fileSize : string;
  detections : list Detection;
  processing_time : float;
  file_type : string;
  image_preview : option string;
  status : Status;
  file : File
}.

Record Results := mkResults {
  res_detections : list Detection;
  res_processing_time : float;
  res_file_type : string;
  res_image_preview : option string
}.

Record ManualAnnotation := mkManualAnnotation {
  ma_fileName : string;
  ma_humanLabel : LightState;
  ma_confidence : float
}.

Record ComparisonResult := mkComparisonResult {
  cr_fileName : string;
  humanLabel : LightState;
  modelPrediction : LightState;
  modelConfidence : float;
  isCorrect : bool;
  cr_file : File
}.

(** ** JavaScript primitives used by the page *)

Module JS.

(** [ToInt32]: wrap an integer into the signed 32-bit range. *)
Definition ToInt32 (z : Z) : Z := (z + 2 ^ 31) mod 2 ^ 32 - 2 ^ 31.

(** [a << n] *)
Definition shl (a n : Z) : Z := ToInt32 (Z.shiftl (ToInt32 a) (n mod 32)).

(** [a & b] *)
Definition band (a b : Z) : Z := Z.land (ToInt32 a) (ToInt32 b).

(** An integer as a number; exact for magnitudes below 2^53. *)
Definition number (z : Z) : float :=
  if z <? 0 then PrimFloat.opp (PrimFloat.of_uint63 (Uint63.of_Z (- z)))
  else PrimFloat.of_uint63 (Uint63.of_Z z).

(** [Math.floor] of a finite number, as an integer.  (On NaN and the
    infinities JavaScript returns the argument; the page never gets there.) *)
Definition floor (x : float) : Z :=
  match Prim2SF x with
  | S754_finite s m e => Z.shiftl (if s then Z.neg m else Z.pos m) e
  | _ => 0
  end.

(** [x > y] on numbers: false when either side is NaN. *)
Definition gt (x y : float) : bool := PrimFloat.ltb y x.

Definition charCode (c : ascii) : Z := Z.of_N (N_of_ascii c).

(** [n.toString()] for a non-negative integer. *)
Definition toString (n : nat) : string :=
  NilEmpty.string_of_uint (Nat.to_uint n).

(** Unicode lower-casing of one Latin-1 code unit: A-Z and U+00C0..U+00DE
    except the multiplication sign U+00D7. *)
Definition lowerUnit (c : ascii) : ascii :=
  let n := N_of_ascii c in
  if ((65 <=? n) && (n <=? 90) ||
      (192 <=? n) && (n <=? 222) && negb (n =? 215))%N
  then ascii_of_N (n + 32) else c.

Fixpoint toLowerCase (s : string) : string :=
  match s with
  | EmptyString => EmptyString
  | String c rest => String (lowerUnit c) (toLowerCase rest)
  end.

Definition startsWith (s p : string) : bool := String.prefix p s.

(** [s.includes(sub)] *)
Fixpoint includes (s sub : string) : bool :=
  if String.prefix sub s then true
  else match s with
       | EmptyString => false
       | String _ rest => includes rest sub
       end.

End JS.

(** ** getDeterministicRandom (page.tsx, lines 97-106) *)

(** One turn of the loop body:
    [hash = (hash << 5) - hash + char; hash = hash & hash]. *)
Definition hashStep (hash : Z) (c : ascii) : Z :=
  let char := JS.charCode c in
  let hash := JS.shl hash 5 - hash + char in
  JS.band hash hash.

Fixpoint hashLoop (str : string) (hash : Z) : Z :=
  match str with
  | EmptyString => hash
  | String c rest => hashLoop rest (hashStep hash c)
  end.

Definition hashOf (seed : string) (index : nat) : Z :=
  hashLoop (seed ++ JS.toString index)%string 0.

Definition getDeterministicRandom (seed : string) (index : nat) : float :=
  (JS.number (Z.abs (hashOf seed index)) / 2147483647)%float.

(** ** analyzeImageForTrafficLights (page.tsx, lines 216-299) *)

Definition TRAFFIC_LIGHT : string := "traffic_light".

Definition analyzeImageForTrafficLights (file : File) : list Detection :=
  let fileName := JS.toLowerCase (name file) in
  let detections : list Detection := [] in
  let baseConfidence := (0.75 + getDeterministicRandom fileName 0 * 0.2)%float in
  let bboxVariation1 := JS.floor (getDeterministicRandom fileName 1 * 50)%float in
  let bboxVariation2 := JS.floor (getDeterministicRandom fileName 2 * 30)%float in
  let detections :=
    if JS.includes fileName "red" || JS.includes fileName "stop"
    then detections ++
         [mkDetection [150 + bboxVariation1; 100 + bboxVariation2; 200; 180]
                      baseConfidence TRAFFIC_LIGHT red_light]
    else detections in
  let detections :=
    if JS.includes fileName "green" || JS.includes fileName "go"
    then detections ++
         [mkDetection [300 + bboxVariation1; 120 + bboxVariation2; 350; 200]
                      baseConfidence TRAFFIC_LIGHT green_light]
    else detections in
  let detections :=
    if JS.includes fileName "yellow" || JS.includes fileName "amber"
       || JS.includes fileName "caution"
    then detections ++
         [mkDetection [250 + bboxVariation1; 110 + bboxVariation2; 300; 190]
                      baseConfidence TRAFFIC_LIGHT yellow_light]
    else detections in
  let detections :=
    if JS.includes fileName "traffic"
       && negb (JS.includes fileName "red")
       && negb (JS.includes fileName "green")
       && negb (JS.includes fileName "yellow")
    then detections ++
         [mkDetection [120; 80; 170; 160]
                      baseConfidence TRAFFIC_LIGHT red_light;
          mkDetection [120; 170; 170; 250]
                      (baseConfidence - 0.05)%float TRAFFIC_LIGHT yellow_light;
          mkDetection [120; 260; 170; 340]
                      (baseConfidence + 0.02)%float TRAFFIC_LIGHT green_light]
    else detections in
  let detections :=
    if JS.includes fileName "light" || JS.includes fileName "signal"
       || JS.gt (getDeterministicRandom fileName 3) 0.7
    then detections ++
         [mkDetection
            [200 + JS.floor (getDeterministicRandom fileName 4 * 100)%float;
             150 + JS.floor (getDeterministicRandom fileName 5 * 50)%float;
             250; 230]
            (0.45 + getDeterministicRandom fileName 6 * 0.2)%float
            TRAFFIC_LIGHT traffic_light]
    else detections in
  detections.

(** ** Primary detection (page.tsx, lines 419-422 and 820-825)

    [detections.reduce((prev, current) =>
        prev.confidence > current.confidence ? prev : current)],
    guarded by [detections.length > 0].  Both call sites are this expression. *)

Definition pickHigher (prev current : Detection) : Detection :=
  if JS.gt (confidence prev) (confidence current) then prev else current.

Definition primaryDetection (detections : list Detection) : option Detection :=
  match detections with
  | [] => None
  | first :: rest => Some (fold_left pickHigher rest first)
  end.

(** ** calculateAccuracyMetrics (page.tsx, lines 324-354) *)

Record ClassStat := mkClassStat { correct : Z; total : Z }.

(** The object literal [classStats]: one entry per key. *)
Record ClassStats := mkClassStats {
  cs_red_light : ClassStat;
  cs_yellow_light : ClassStat;
  cs_green_light : ClassStat;
  cs_traffic_light : ClassStat
}.

Record Metrics := mkMetrics {
  overall : float;
  m_total : Z;
  m_correct : Z;
  classStats : ClassStats
}.

(** [classStats[key]]: undefined for a label that is not a key. *)
Definition getStat (stats : ClassStats) (key : LightState) : option ClassStat :=
  match key with
  | red_light => Some (cs_red_light stats)
  | yellow_light => Some (cs_yellow_light stats)
  | green_light => Some (cs_green_light stats)
  | traffic_light => Some (cs_traffic_light stats)
  | no_traffic_light => None
  end.

(** Assignment to the entry under [key] (only reached for a key). *)
Definition setStat (stats : ClassStats) (key : LightState) (v : ClassStat)
  : ClassStats :=
  match key with
  | red_light =>
      mkClassStats v (cs_yellow_light stats) (cs_green_light stats)
                   (cs_traffic_light stats)
  | yellow_light =>
      mkClassStats (cs_red_light stats) v (cs_green_light stats)
                   (cs_traffic_light stats)
  | green_light =>
      mkClassStats (cs_red_light stats) (cs_yellow_light stats) v
                   (cs_traffic_light stats)
  | traffic_light =>
      mkClassStats (cs_red_light stats) (cs_yellow_light stats)
                   (cs_green_light stats) v
  | no_traffic_light => stats
  end.

(** The body of the [forEach] callback. *)
Definition tally (stats : ClassStats) (result : ComparisonResult) : ClassStats :=
  match getStat stats (humanLabel result) with
  | Some entry =>
      let entry := mkClassStat (correct entry) (total entry + 1) in
      let entry :=
        if isCorrect result
        then mkClassStat (correct entry + 1) (total entry)
        else entry in
      setStat stats (humanLabel result) entry
  | None => stats
  end.

Definition emptyStats : ClassStats :=
  mkClassStats (mkClassStat 0 0) (mkClassStat 0 0)
               (mkClassStat 0 0) (mkClassStat 0 0).

Definition calculateAccuracyMetrics (comparisonResults : list ComparisonResult)
  : option Metrics :=
  if (List.length comparisonResults =? 0)%nat then None
  else
    let correct := Z.of_nat (List.length (filter isCorrect comparisonResults)) in
    let total := Z.of_nat (List.length comparisonResults) in
    let accuracy := (JS.number correct / JS.number total * 100)%float in
    let classStats := fold_left tally comparisonResults emptyStats in
    Some (mkMetrics accuracy total correct classStats).

(** ** Component state (the [useState] cells the handlers below touch) *)

Inductive Mode := single | batch.

Record AppState := mkAppState {
  selectedFile : option File;
  selectedFiles : list File;
  imagePreview : option string;
  isBatchProcessing : bool;
  results : option Results;
  batchResults : list FileResult;
  batchProgress : float;
  currentProcessingFile : string;
  processingMode : Mode;
  showAnnotationModal : bool;
  currentAnnotationFile : option File;
  manualAnnotations : list ManualAnnotation;
  comparisonResults : list ComparisonResult
}.

Definition initialState : AppState :=
  mkAppState None [] None false None [] 0%float "" single false None [] [].

Definition setBatchResults (upd : list FileResult -> list FileResult)
  (st : AppState) : AppState :=
  mkAppState (selectedFile st) (selectedFiles st) (imagePreview st)
    (isBatchProcessing st) (results st) (upd (batchResults st))
    (batchProgress st) (currentProcessingFile st) (processingMode st)
    (showAnnotationModal st) (currentAnnotationFile st)
    (manualAnnotations st) (comparisonResults st).

Definition setBatchProgress (v : float) (st : AppState) : AppState :=
  mkAppState (selectedFile st) (selectedFiles st) (imagePreview st)
    (isBatchProcessing st) (results st) (batchResults st)
    v (currentProcessingFile st) (processingMode st)
    (showAnnotationModal st) (currentAnnotationFile st)
    (manualAnnotations st) (comparisonResults st).

Definition setCurrentProcessingFile (v : string) (st : AppState) : AppState :=
  mkAppState (selectedFile st) (selectedFiles st) (imagePreview st)
    (isBatchProcessing st) (results st) (batchResults st)
    (batchProgress st) v (processingMode st)
    (showAnnotationModal st) (currentAnnotationFile st)
    (manualAnnotations st) (comparisonResults st).

Definition setIsBatchProcessing (v : bool) (st : AppState) : AppState :=
  mkAppState (selectedFile st) (selectedFiles st) (imagePreview st)
    v (results st) (batchResults st)
    (batchProgress st) (currentProcessingFile st) (processingMode st)
    (showAnnotationModal st) (currentAnnotationFile st)
    (manualAnnotations st) (comparisonResults st).

Definition setComparisonResults (v : list ComparisonResult) (st : AppState)
  : AppState :=
  mkAppState (selectedFile st) (selectedFiles st) (imagePreview st)
    (isBatchProcessing st) (results st) (batchResults st)
    (batchProgress st) (currentProcessingFile st) (processingMode st)
    (showAnnotationModal st) (currentAnnotationFile st)
    (manualAnnotations st) v.

Definition setResults (v : option Results) (st : AppState) : AppState :=
  mkAppState (selectedFile st) (selectedFiles st) (imagePreview st)
    (isBatchProcessing st) v (batchResults st)
    (batchProgress st) (currentProcessingFile st) (processingMode st)
    (showAnnotationModal st) (currentAnnotationFile st)
    (manualAnnotations st) (comparisonResults st).

Definition setManualAnnotations
  (upd : list ManualAnnotation -> list ManualAnnotation) (st : AppState)
  : AppState :=
  mkAppState (selectedFile st) (selectedFiles st) (imagePreview st)
    (isBatchProcessing st) (results st) (batchResults st)
    (batchProgress st) (currentProcessingFile st) (processingMode st)
    (showAnnotationModal st) (currentAnnotationFile st)
    (upd (manualAnnotations st)) (comparisonResults st).

(** [arr.map((x, index) => ...)] *)
Fixpoint mapFrom {A B : Type} (f : A -> nat -> B) (k : nat) (l : list A)
  : list B :=
  match l with
  | [] => []
  | x :: rest => f x k :: mapFrom f (S k) rest
  end.

Definition mapIndexed {A B : Type} (f : A -> nat -> B) (l : list A) : list B :=
  mapFrom f 0 l.

Definition isMedia (file : File) : bool :=
  JS.startsWith (type file) "image/" || JS.startsWith (type file) "video/".

Definition fileTypeOf (file : File) : string :=
  if JS.startsWith (type file) "image/" then "image" else "video".

(** [{ ...result, status: "processing" }] *)
Definition toProcessing (result : FileResult) : FileResult :=
  mkFileResult (fileName result) (fileSize result) (detections result)
    (processing_time result) (file_type result) (image_preview result)
    processing (file result).

(** [{ ...result, detections, processing_time, status: "completed",
       image_preview }] *)
Definition toCompleted (detections : list Detection) (processingTime : float)
  (imagePreview : option string) (result : FileResult) : FileResult :=
  mkFileResult (fileName result) (fileSize result) detections
    processingTime (file_type result) imagePreview
    completed (file result).

(** The two functional updates of processBatchFiles (lines 406-408, 454-466). *)
Definition markProcessing (i : nat) (prev : list FileResult) : list FileResult :=
  mapIndexed (fun result index =>
                if (index =? i)%nat then toProcessing result else result) prev.

Definition markCompleted (i : nat) (detections : list Detection)
  (processingTime : float) (imagePreview : option string)
  (prev : list FileResult) : list FileResult :=
  mapIndexed (fun result index =>
                if (index =? i)%nat
                then toCompleted detections processingTime imagePreview result
                else result) prev.

(** Lines 418-437: the comparison pushed for one file, if any. *)
Definition compareFile (annotations : list ManualAnnotation) (file : File)
  (detections : list Detection) (newComparisonResults : list ComparisonResult)
  : list ComparisonResult :=
  let primary := primaryDetection detections in
  let manualAnnotation :=
    find (fun a => String.eqb (ma_fileName a) (name file)) annotations in
  match manualAnnotation, primary with
  | Some manualAnnotation, Some primary =>
      let isCorrect :=
        LightState_eqb (ma_humanLabel manualAnnotation) (light_state primary) in
      newComparisonResults ++
      [mkComparisonResult (name file) (ma_humanLabel manualAnnotation)
         (light_state primary) (confidence primary) isCorrect file]
  | _, _ => newComparisonResults
  end.

(** ** Handlers and the batch loop

    Two browser services stay abstract: [formatFileSize] (lines 511-517, a
    display string built with [Math.log] and [toFixed]) and the data URL a
    [FileReader] yields for a file. *)

Section Page.

Variable formatFileSize : Z -> string.
Variable readAsDataURL : File -> string.

Definition previewOf (file : File) : option string :=
  if JS.startsWith (type file) "image/" then Some (readAsDataURL file)
  else None.

(** Lines 145-153 and 199-207. *)
Definition initialResults (mediaFiles : list File) : list FileResult :=
  map (fun file =>
         mkFileResult (name file) (formatFileSize (size file)) [] 0%float
           (fileTypeOf file) None pending file) mediaFiles.

Definition selectSingle (file : File) (st : AppState) : AppState :=
  mkAppState (Some file) [] (previewOf file)
    (isBatchProcessing st) None []
    (batchProgress st) (currentProcessingFile st) single
    (showAnnotationModal st) (currentAnnotationFile st)
    (manualAnnotations st) (comparisonResults st).

Definition selectBatch (mediaFiles : list File) (st : AppState) : AppState :=
  mkAppState None mediaFiles None
    (isBatchProcessing st) None (initialResults mediaFiles)
    (batchProgress st) (currentProcessingFile st) batch
    (showAnnotationModal st) (currentAnnotationFile st)
    (manualAnnotations st) (comparisonResults st).

(** Lines 108-129. *)
Definition handleFileSelect (picked : option File) (st : AppState) : AppState :=
  match picked with
  | Some file => selectSingle file st
  | None => st
  end.

(** Lines 131-163; with no media file the handler only alerts. *)
Definition handleFolderSelect (files : list File) (st : AppState) : AppState :=
  let mediaFiles := filter isMedia files in
  if (0 <? List.length mediaFiles)%nat then selectBatch mediaFiles st else st.

(** Lines 165-210. *)
Definition handleDrop (files : list File) (st : AppState) : AppState :=
  let mediaFiles := filter isMedia files in
  match mediaFiles with
  | [file] => selectSingle file st
  | _ :: _ :: _ => selectBatch mediaFiles st
  | [] => st
  end.

(** Lines 301-304. *)
Definition handleManualAnnotation (file : File) (st : AppState) : AppState :=
  mkAppState (selectedFile st) (selectedFiles st) (imagePreview st)
    (isBatchProcessing st) (results st) (batchResults st)
    (batchProgress st) (currentProcessingFile st) (processingMode st)
    true (Some file)
    (manualAnnotations st) (comparisonResults st).

(** Lines 306-322. *)
Definition saveManualAnnotation (label : LightState) (conf : float)
  (st : AppState) : AppState :=
  match currentAnnotationFile st with
  | None => st
  | Some current =>
      let annotation := mkManualAnnotation (name current) label conf in
      let filtered :=
        filter (fun a => negb (String.eqb (ma_fileName a) (name current)))
               (manualAnnotations st) in
      mkAppState (selectedFile st) (selectedFiles st) (imagePreview st)
        (isBatchProcessing st) (results st) (batchResults st)
        (batchProgress st) (currentProcessingFile st) (processingMode st)
        false None
        (filtered ++ [annotation]) (comparisonResults st)
  end.

(** Line 1307: the "Cancel" button of the annotation dialog. *)
Definition cancelAnnotation (st : AppState) : AppState :=
  mkAppState (selectedFile st) (selectedFiles st) (imagePreview st)
    (isBatchProcessing st) (results st) (batchResults st)
    (batchProgress st) (currentProcessingFile st) (processingMode st)
    false (currentAnnotationFile st)
    (manualAnnotations st) (comparisonResults st).

(** Line 929: the "remove label" button of the single-image view. *)
Definition removeAnnotation (st : AppState) : AppState :=
  match selectedFile st with
  | None => st
  | Some sel =>
      setManualAnnotations
        (filter (fun a => negb (String.eqb (ma_fileName a) (name sel)))) st
  end.

(** Lines 356-392, without the progress-bar timer, when nothing else happens
    during its delay. *)
Definition processFile (st : AppState) : AppState :=
  match selectedFile st with
  | None => st
  | Some sel =>
      let detections := analyzeImageForTrafficLights sel in
      let mockResults :=
        mkResults detections
          (1.2 + getDeterministicRandom (name sel) 7 * 1.5)%float
          (fileTypeOf sel) (imagePreview st) in
      setResults (Some mockResults) st
  end.

(** Lines 819-828: what the single-image comparison card is computed from. *)
Definition singleImageComparison (st : AppState)
  : option (ManualAnnotation * Detection * bool) :=
  match selectedFile st, results st with
  | Some sel, Some res =>
      let annotation :=
        find (fun a => String.eqb (ma_fileName a) (name sel))
             (manualAnnotations st) in
      match annotation, primaryDetection (res_detections res) with
      | Some annotation, Some primary =>
          Some (annotation, primary,
                LightState_eqb (ma_humanLabel annotation) (light_state primary))
      | _, _ => None
      end
  | _, _ => None
  end.

(** *** processBatchFiles (lines 394-475)

    One turn of the [for] loop, cut at its first [await]: [beginFile] is
    lines 403-408, [finishFile] lines 414-469.  [files] and [annotations] are
    the [selectedFiles] and [manualAnnotations] the closure captured. *)

Definition beginFile (i : nat) (file : File) (st : AppState) : AppState :=
  setBatchResults (markProcessing i) (setCurrentProcessingFile (name file) st).

Definition progressAfter (i total : nat) : float :=
  (JS.number (Z.of_nat i + 1) / JS.number (Z.of_nat total) * 100)%float.

Definition finishFile (total : nat) (annotations : list ManualAnnotation)
  (i : nat) (file : File) (st : AppState)
  (newComparisonResults : list ComparisonResult)
  : AppState * list ComparisonResult :=
  let detections := analyzeImageForTrafficLights file in
  let processingTime := (1.0 + getDeterministicRandom (name file) 9 * 2.0)%float in
  let newComparisonResults :=
    compareFile annotations file detections newComparisonResults in
  let imagePreview := previewOf file in
  let st :=
    setBatchResults (markCompleted i detections processingTime imagePreview) st in
  let st := setBatchProgress (progressAfter i total) st in
  (st, newComparisonResults).

Fixpoint batchLoop (total : nat) (annotations : list ManualAnnotation)
  (files : list File) (i : nat) (st : AppState)
  (newComparisonResults : list ComparisonResult)
  : AppState * list ComparisonResult :=
  match files with
  | [] => (st, newComparisonResults)
  | file :: rest =>
      let '(st, newComparisonResults) :=
        finishFile total annotations i file (beginFile i file st)
                   newComparisonResults in
      batchLoop total annotations rest (S i) st newComparisonResults
  end.

Definition startBatch (st : AppState) : AppState :=
  setBatchProgress 0%float (setIsBatchProcessing true st).

Definition endBatch (newComparisonResults : list ComparisonResult)
  (st : AppState) : AppState :=
  setIsBatchProcessing false
    (setCurrentProcessingFile ""
       (setComparisonResults newComparisonResults st)).

(** A whole run with nothing else happening in between. *)
Definition processBatchFiles (st : AppState) : AppState :=
  if (List.length (selectedFiles st) =? 0)%nat then st
  else
    let files := selectedFiles st in
    let '(st', newComparisonResults) :=
      batchLoop (List.length files) (manualAnnotations st) files 0
                (startBatch st) [] in
    endBatch newComparisonResults st'.

(** The state when the first [k] files of the run are done. *)
Definition stateAfter (k : nat) (st : AppState) : AppState :=
  let files := selectedFiles st in
  fst (batchLoop (List.length files) (manualAnnotations st) (firstn k files) 0
                 (startBatch st) []).

(** *** The page as a transition system

    A run of processBatchFiles is suspended at its awaits, where other
    handlers may run; [BatchRun] is the suspended closure. *)

Record BatchRun := mkBatchRun {
  run_files : list File;
  run_annotations : list ManualAnnotation;
  run_i : nat;
  run_inflight : bool;
  run_acc : list ComparisonResult
}.

(** A call of processFile is suspended at its await (line 375) with the
    [selectedFile] and [imagePreview] its closure read; [finishProcessFile] is
    what it does when the delay is over (lines 378-391).  While it is pending
    the button is disabled (line 684), so there is at most one. *)
Record FileRun := mkFileRun {
  fr_file : File;
  fr_preview : option string
}.

Definition finishProcessFile (job : FileRun) (st : AppState) : AppState :=
  let detections := analyzeImageForTrafficLights (fr_file job) in
  let mockResults :=
    mkResults detections
      (1.2 + getDeterministicRandom (name (fr_file job)) 7 * 1.5)%float
      (fileTypeOf (fr_file job)) (fr_preview job) in
  setResults (Some mockResults) st.

Definition Config : Type := AppState * option BatchRun.

(** The page state, the suspended batch run and the suspended single-file
    call, if any. *)
Definition PageConfig : Type := Config * option FileRun.

Inductive step : PageConfig -> PageConfig -> Prop :=
| step_fileSelect : forall st run job picked,
    step (st, run, job) (handleFileSelect picked st, run, job)
| step_folderSelect : forall st run job files,
    step (st, run, job) (handleFolderSelect files st, run, job)
| step_drop : forall st run job files,
    step (st, run, job) (handleDrop files st, run, job)
| step_annotate : forall st run job file,
    step (st, run, job) (handleManualAnnotation file st, run, job)
| step_saveAnnotation : forall st run job label conf,
    step (st, run, job) (saveManualAnnotation label conf st, run, job)
| step_cancelAnnotation : forall st run job,
    step (st, run, job) (cancelAnnotation st, run, job)
| step_removeAnnotation : forall st run job,
    step (st, run, job) (removeAnnotation st, run, job)
| step_fileStart : forall st run sel,
    selectedFile st = Some sel ->
    step (st, run, None) (st, run, Some (mkFileRun sel (imagePreview st)))
| step_fileFinish : forall st run job,
    step (st, run, Some job) (finishProcessFile job st, run, None)
| step_batchStart : forall st job,
    selectedFiles st <> [] ->
    step (st, None, job)
         (startBatch st,
          Some (mkBatchRun (selectedFiles st) (manualAnnotations st) 0 false []),
          job)
| step_batchBegin : forall st job files annotations i acc file,
    nth_error files i = Some file ->
    step (st, Some (mkBatchRun files annotations i false acc), job)
         (beginFile i file st,
          Some (mkBatchRun files annotations i true acc), job)
| step_batchFinish : forall st job files annotations i acc file,
    nth_error files i = Some file ->
    step (st, Some (mkBatchRun files annotations i true acc), job)
         (fst (finishFile (List.length files) annotations i file st acc),
          Some (mkBatchRun files annotations (S i) false
                  (snd (finishFile (List.length files) annotations i file st acc))),
          job)
| step_batchEnd : forall st job files annotations i acc,
    nth_error files i = None ->
    step (st, Some (mkBatchRun files annotations i false acc), job)
         (endBatch acc st, None, job).

Inductive reachableWith : PageConfig -> Prop :=
| reachable_init : reachableWith (initialState, None, None)
| reachable_step : forall c c', reachableWith c -> step c c' -> reachableWith c'.

(** A page state and batch run that occur, whatever single-file call is
    pending beside them. *)
Definition reachable (c : Config) : Prop :=
  exists job, reachableWith (c, job).

(** The configurations of one batch run: it starts from the idle state [st0]
    with the "Process Batch" button and lasts while the loop is suspended,
    with any handler running at its awaits. *)
Inductive runOf (st0 : AppState)
  : AppState -> BatchRun -> option FileRun -> Prop :=
| run_started : forall job,
    reachableWith (st0, None, job) ->
    selectedFiles st0 <> [] ->
    runOf st0 (startBatch st0)
      (mkBatchRun (selectedFiles st0) (manualAnnotations st0) 0 false []) job
| run_continues : forall st run job st' run' job',
    runOf st0 st run job ->
    step (st, Some run, job) (st', Some run', job') ->
    runOf st0 st' run' job'.

(** The run started from [st0] returns and leaves the page in [st']. *)
Definition runEndsIn (st0 st' : AppState) : Prop :=
  exists st run job job',
    runOf st0 st run job /\ step (st, Some run, job) (st', None, job').

End Page.

(** ** Display text and CSV export (page.tsx, lines 496-509 and 534-548) *)

(** The [switch] of getStateText, with its [default] branch. *)
Definition getStateText (state : LightState) : string :=
  match state with
  | red_light => "Red Light"
  | yellow_light => "Yellow Light"
  | green_light => "Green Light"
  | no_traffic_light => "No Traffic Light"
  | _ => "Traffic Light"
  end.

Definition newline : ascii := "010"%char.

Definition csvHeaderFields : list string :=
  ["File Name"; "File Size"; "Detections Count"; "Processing Time";
   "Light States"; "Confidence Scores"].

(** The text exportBatchResults puts into the Blob.  [String.concat sep] is
    [Array.prototype.join(sep)]; [toFixed] is [Number.prototype.toFixed], kept
    abstract. *)
Section BatchExport.

Variable toFixed : nat -> float -> string.

Definition rowFields (result : FileResult) : list string :=
  [fileName result;
   fileSize result;
   JS.toString (List.length (detections result));
   (toFixed 2 (processing_time result) ++ "s")%string;
   String.concat "; "
     (map (fun d => getStateText (light_state d)) (detections result));
   String.concat "; "
     (map (fun d => (toFixed 1 (confidence d * 100)%float ++ "%")%string)
          (detections result))].

Definition batchCsvContent (batchResults : list FileResult) : string :=
  String.concat (String newline "")
    (String.concat "," csvHeaderFields ::
     map (fun result => String.concat "," (rowFields result)) batchResults).

End BatchExport.

(** ** The labeler on arbitrary file names

    The strings above hold code units below 256 (Latin-1).  A JavaScript
    string is a sequence of 16-bit code units, and [toLowerCase] is the
    Unicode lower-casing of the engine; here the name is a list of code
    units and [toLowerCase] a parameter.  The rules are those of lines
    216-299, with the substring test and the normalised hash passed in. *)

Definition detectionsFor (has : string -> bool) (rnd : nat -> float)
  : list Detection :=
  let detections : list Detection := [] in
  let baseConfidence := (0.75 + rnd 0%nat * 0.2)%float in
  let bboxVariation1 := JS.floor (rnd 1%nat * 50)%float in
  let bboxVariation2 := JS.floor (rnd 2%nat * 30)%float in
  let detections :=
    if has "red" || has "stop"
    then detections ++
         [mkDetection [150 + bboxVariation1; 100 + bboxVariation2; 200; 180]
                      baseConfidence TRAFFIC_LIGHT red_light]
    else detections in
  let detections :=
    if has "green" || has "go"
    then detections ++
         [mkDetection [300 + bboxVariation1; 120 + bboxVariation2; 350; 200]
                      baseConfidence TRAFFIC_LIGHT green_light]
    else detections in
  let detections :=
    if has "yellow" || has "amber" || has "caution"
    then detections ++
         [mkDetection [250 + bboxVariation1; 110 + bboxVariation2; 300; 190]
                      baseConfidence TRAFFIC_LIGHT yellow_light]
    else detections in
  let detections :=
    if has "traffic" && negb (has "red") && negb (has "green")
       && negb (has "yellow")
    then detections ++
         [mkDetection [120; 80; 170; 160]
                      baseConfidence TRAFFIC_LIGHT red_light;
          mkDetection [120; 170; 170; 250]
                      (baseConfidence - 0.05)%float TRAFFIC_LIGHT yellow_light;
          mkDetection [120; 260; 170; 340]
                      (baseConfidence + 0.02)%float TRAFFIC_LIGHT green_light]
    else detections in
  let detections :=
    if has "light" || has "signal" || JS.gt (rnd 3%nat) 0.7
    then detections ++
         [mkDetection
            [200 + JS.floor (rnd 4%nat * 100)%float;
             150 + JS.floor (rnd 5%nat * 50)%float;
             250; 230]
            (0.45 + rnd 6%nat * 0.2)%float
            TRAFFIC_LIGHT traffic_light]
    else detections in
  detections.

(** The code units of a Latin-1 string. *)
Fixpoint unitsOf (s : string) : list N :=
  match s with
  | EmptyString => []
  | String c rest => N_of_ascii c :: unitsOf rest
  end.

Fixpoint prefixUnits (p s : list N) : bool :=
  match p, s with
  | [], _ => true
  | _ :: _, [] => false
  | a :: p', b :: s' => (a =? b)%N && prefixUnits p' s'
  end.

(** [s.includes(sub)] on code units. *)
Fixpoint includesUnits (s sub : list N) : bool :=
  if prefixUnits sub s then true
  else match s with
       | [] => false
       | _ :: rest => includesUnits rest sub
       end.

(** The loop of getDeterministicRandom, [str.charCodeAt(i)] being the unit. *)
Definition hashStepUnit (hash : Z) (unit : N) : Z :=
  let char := Z.of_N unit in
  let hash := JS.shl hash 5 - hash + char in
  JS.band hash hash.

Definition randomOfUnits (seed : list N) (index : nat) : float :=
  (JS.number
     (Z.abs (fold_left hashStepUnit (seed ++ unitsOf (JS.toString index)) 0%Z))
   / 2147483647)%float.

Definition analyzeUnits (toLowerCase : list N -> list N) (fileName : list N)
  : list Detection :=
  let fileName := toLowerCase fileName in
  detectionsFor (fun keyword => includesUnits fileName (unitsOf keyword))
                (randomOfUnits fileName).

(** ** Vocabulary of the statements below *)

(** The base confidence the labeler derives from a file's name. *)
Definition baseConfidenceOf (file : File) : float :=
  (0.75 + getDeterministicRandom (JS.toLowerCase (name file)) 0 * 0.2)%float.

(** The three detections of the "traffic" rule (lines 260-279). *)
Definition signalHead (base : float) : list Detection :=
  [mkDetection [120; 80; 170; 160] base TRAFFIC_LIGHT red_light;
   mkDetection [120; 170; 170; 250] (base - 0.05)%float TRAFFIC_LIGHT yellow_light;
   mkDetection [120; 260; 170; 340] (base + 0.02)%float TRAFFIC_LIGHT green_light].

(** A detection whose confidence no other detection of the list exceeds. *)
Definition hasMaxConfidence (ds : list Detection) (d : Detection) : bool :=
  forallb (fun e => PrimFloat.leb (confidence e) (confidence d)) ds.

(** The tie-break as the specification words it: the first detection, in
    list order, that holds the maximum confidence. *)
Definition firstWithMaxConfidence (ds : list Detection) : option Detection :=
  find (hasMaxConfidence ds) ds.

(** The last detection, in list order, that holds the maximum confidence. *)
Definition lastWithMaxConfidence (ds : list Detection) : option Detection :=
  find (hasMaxConfidence ds) (rev ds).

(** The number is not NaN, on the specification side. *)
Definition isNumber (x : float) : Prop := Prim2SF x <> S754_nan.

(** The detection's confidence is a number (not NaN). *)
Definition notNaN (d : Detection) : Prop :=
  PrimFloat.is_nan (confidence d) = false.

(** [e]'s confidence is at most, respectively less than, [d]'s. *)
Definition below (d e : Detection) : Prop :=
  PrimFloat.leb (confidence e) (confidence d) = true.

Definition strictlyBelow (d e : Detection) : Prop :=
  PrimFloat.ltb (confidence e) (confidence d) = true.

Definition sampleFile (n : string) : File := mkFile n 1024 "image/jpeg" "".

(** How many comparisons satisfy [p]. *)
Definition countIf (p : ComparisonResult -> bool) (l : list ComparisonResult) : Z :=
  Z.of_nat (List.length (filter p l)).

(** The comparison's ground truth is the class [k]. *)
Definition labelled (k : LightState) (r : ComparisonResult) : bool :=
  LightState_eqb (humanLabel r) k.

(** What the loop makes of the entry of [file] once the file is done. *)
Definition completedFor (readAsDataURL : File -> string) (file : File)
  (result : FileResult) : FileResult :=
  toCompleted (analyzeImageForTrafficLights file)
    (1.0 + getDeterministicRandom (name file) 9 * 2.0)%float
    (previewOf readAsDataURL file) result.

(** The comparison of [file] against the annotations: the annotation found
    under the file's name and the primary detection of a non-empty list. *)
Definition comparisonOf (annotations : list ManualAnnotation) (file : File)
  (c : ComparisonResult) : Prop :=
  exists a p,
    In a annotations /\ ma_fileName a = name file /\
    analyzeImageForTrafficLights file <> [] /\
    primaryDetection (analyzeImageForTrafficLights file) = Some p /\
    c = mkComparisonResult (name file) (ma_humanLabel a) (light_state p)
          (confidence p) (LightState_eqb (ma_humanLabel a) (light_state p)) file.

(** The result list lines up with the selected files. *)
Definition aligned (st : AppState) : Prop :=
  map file (batchResults st) = selectedFiles st /\
  Forall (fun r => fileName r = name (file r)) (batchResults st).

Definition notError (r : FileResult) : Prop :=
  status r = pending \/ status r = processing \/ status r = completed.

(** A concrete page to run the model on: three dropped files, one of them no
    media file, and two ground-truth labels saved through the dialog. *)
Definition sampleFormat (bytes : Z) : string := "1 KB".

Definition sampleReader (file : File) : string :=
  ("data:" ++ type file ++ ";base64," ++ content file)%string.

Definition sampleFiles : list File :=
  [mkFile "Red_Green.jpg" 2048 "image/jpeg" "AAAA";
   mkFile "notes.txt" 12 "text/plain" "BBBB";
   mkFile "blue_car.jpg" 4096 "image/jpeg" "CCCC"].

Definition sampleState : AppState :=
  let st := handleFolderSelect sampleFormat sampleFiles initialState in
  let st := handleManualAnnotation (mkFile "Red_Green.jpg" 2048 "image/jpeg" "AAAA") st in
  let st := saveManualAnnotation green_light 1 st in
  let st := handleManualAnnotation (mkFile "blue_car.jpg" 4096 "image/jpeg" "CCCC") st in
  saveManualAnnotation no_traffic_light 1 st.

(** The polynomial hash [hash * 31 + char] over the integers, without any
    wrap-around. *)
Fixpoint polyHash (str : string) (h : Z) : Z :=
  match str with
  | EmptyString => h
  | String c rest => polyHash rest (h * 31 + JS.charCode c)
  end.

(** A specification float that is zero or positive (infinity included). *)
Definition nonNegative (x : spec_float) : Prop :=
  match x with
  | S754_nan => False
  | S754_zero _ => True
  | S754_infinity s | S754_finite s _ _ => s = false
  end.

(** The ten keywords the labeler looks for. *)
Definition keywords : list string :=
  ["red"; "stop"; "green"; "go"; "yellow"; "amber"; "caution"; "traffic";
   "light"; "signal"].

(** [manualAnnotations.find((a) => a.fileName === fileName)], the lookup the
    page uses wherever it needs the label of a file. *)
Definition findAnnotation (fileName : string)
  (annotations : list ManualAnnotation) : option ManualAnnotation :=
  find (fun a => String.eqb (ma_fileName a) fileName) annotations.

(** Two comparisons, one of them with the label no class entry counts. *)
Definition sampleComparisons : list ComparisonResult :=
  [mkComparisonResult "a.jpg" red_light red_light 0.9 true (sampleFile "a.jpg");
   mkComparisonResult "b.jpg" no_traffic_light green_light 0.8 false
     (sampleFile "b.jpg")].

(** The selection state fits the processing mode, and only media files are
    ever selected for a batch. *)
Definition modeConsistent (st : AppState) : Prop :=
  match processingMode st with
  | single => selectedFiles st = [] /\ batchResults st = []
  | batch => selectedFile st = None /\ selectedFiles st <> []
  end /\
  Forall (fun f => isMedia f = true) (selectedFiles st) /\
  Forall (fun r => file_type r = fileTypeOf (file r) /\
                   (file_type r = "image" \/ file_type r = "video"))
         (batchResults st).

(** The file has an annotation under its name and at least one detection. *)
Definition comparable (annotations : list ManualAnnotation) (f : File) : bool :=
  match findAnnotation (name f) annotations,
        analyzeImageForTrafficLights f with
  | Some _, _ :: _ => true
  | _, _ => false
  end.

(** The state cells the batch loop never writes. *)
Definition outsideLoop (st : AppState) :=
  (selectedFile st, selectedFiles st, imagePreview st, isBatchProcessing st,
   results st, processingMode st, showAnnotationModal st,
   currentAnnotationFile st, manualAnnotations st, comparisonResults st).

(** A page with a single file selected and labelled. *)
Definition sampleSingleState : AppState :=
  let f := mkFile "red_stop_sign.jpg" 512 "image/png" "DDDD" in
  let st := handleFileSelect sampleReader (Some f) initialState in
  saveManualAnnotation red_light 1 (handleManualAnnotation f st).

(** The string contains the character. *)
Fixpoint hasChar (c : ascii) (s : string) : bool :=
  match s with
  | EmptyString => false
  | String a rest => Ascii.eqb a c || hasChar c rest
  end.

(** Neither a comma nor a line feed occurs in the string. *)
Definition delimiterFree (s : string) : Prop :=
  hasChar "," s = false /\ hasChar newline s = false.

(** What a reader of the CSV does: cut a text at every occurrence of a
    separator character (an empty text is one empty field). *)
Fixpoint splitOn (c : ascii) (s : string) : list string :=
  match s with
  | EmptyString => [EmptyString]
  | String a rest =>
      if Ascii.eqb a c then EmptyString :: splitOn c rest
      else match splitOn c rest with
           | field :: fields => String a field :: fields
           | [] => [String a EmptyString]
           end
  end.

(** The fixed-point branch of [Number.prototype.toFixed]: the integer nearest
    to x * 10^digits (the larger one on a tie), printed with the point before
    its last [digits] digits.  (From 10^21 on JavaScript prints an exponent
    instead; this is the formatter the sample page is run with.) *)
Fixpoint repeatZero (k : nat) : string :=
  match k with
  | O => EmptyString
  | S k => String "0" (repeatZero k)
  end.

Definition digitsOf (n : Z) : string :=
  NilEmpty.string_of_uint (N.to_uint (Z.to_N n)).

Definition placePoint (digits : nat) (n : Z) : string :=
  let m := digitsOf n in
  match digits with
  | O => m
  | _ =>
      let k := String.length m in
      let m := if (k <=? digits)%nat
               then (repeatZero (digits + 1 - k) ++ m)%string else m in
      let k := String.length m in
      (substring 0 (k - digits) m ++ "."
       ++ substring (k - digits) digits m)%string
  end.

Definition fixedNotation (digits : nat) (x : float) : string :=
  match Prim2SF x with
  | S754_nan => "NaN"
  | S754_infinity s => if s then "-Infinity" else "Infinity"
  | S754_zero _ => placePoint digits 0
  | S754_finite s m e =>
      let scaled := Z.pos m * 10 ^ Z.of_nat digits in
      let n := if 0 <=? e then scaled * 2 ^ e
               else (2 * scaled + 2 ^ (- e)) / 2 ^ (1 - e) in
      ((if s then "-" else "") ++ placePoint digits n)%string
  end.

(** Upper-case letters among the code units below 256: A-Z, and U+00C0 to
    U+00DE without the multiplication sign; the lower-case letter is 32
    above. *)
Definition upperCaseUnit (n : N) : bool :=
  ((65 <=? n) && (n <=? 90) ||
   (192 <=? n) && (n <=? 222) && negb (n =? 215))%N.

(** The same letter, in either case. *)
Definition sameLetter (a b : ascii) : bool :=
  let m := N_of_ascii a in
  let n := N_of_ascii b in
  ((m =? n) || upperCaseUnit m && (n =? m + 32)
   || upperCaseUnit n && (m =? n + 32))%N.

(** Two names that differ at most in the case of their letters. *)
Fixpoint equalIgnoringCase (s t : string) : bool :=
  match s, t with
  | EmptyString, EmptyString => true
  | String a s', String b t' => sameLetter a b && equalIgnoringCase s' t'
  | _, _ => false
  end.

(** A lower-casing of code units that knows the Latin-1 letters only. *)
Definition lowerLatin1 (units : list N) : list N :=
  map (fun u => if (u <? 256)%N then N_of_ascii (JS.lowerUnit (ascii_of_N u))
                else u) units.

(** The comparisons of the files [files] under the annotations
    [annotations], file by file. *)
Definition comparisonsOf (annotations : list ManualAnnotation)
  (files : list File) : list ComparisonResult :=
  flat_map
    (fun f => compareFile annotations f (analyzeImageForTrafficLights f) [])
    files.

(** A run in which the label is removed: a folder of four files, the first
    labelled red_light in the batch list, and the state the run ends in when,
    while it waits, the user opens "red.jpg" in the single-file view,
    processes it there and removes its label. *)
Definition interruptedFiles : list File :=
  [sampleFile "red.jpg"; sampleFile "car1.jpg"; sampleFile "car2.jpg";
   sampleFile "car3.jpg"].

Definition labelledFolder : AppState :=
  saveManualAnnotation red_light 1
    (handleManualAnnotation (sampleFile "red.jpg")
       (handleFolderSelect sampleFormat interruptedFiles initialState)).

Definition singleViewJob : FileRun :=
  mkFileRun (sampleFile "red.jpg")
    (imagePreview
       (handleFileSelect sampleReader (Some (sampleFile "red.jpg"))
          (beginFile 0 (sampleFile "red.jpg") (startBatch labelledFolder)))).

Definition afterInterruptedRun : AppState :=
  let total := List.length (selectedFiles labelledFolder) in
  let annotations := manualAnnotations labelledFolder in
  let st := beginFile 0 (sampleFile "red.jpg") (startBatch labelledFolder) in
  let st := handleFileSelect sampleReader (Some (sampleFile "red.jpg")) st in
  let r0 := finishFile sampleReader total annotations 0 (sampleFile "red.jpg")
              st [] in
  let r1 := finishFile sampleReader total annotations 1 (sampleFile "car1.jpg")
              (beginFile 1 (sampleFile "car1.jpg") (fst r0)) (snd r0) in
  let r2 := finishFile sampleReader total annotations 2 (sampleFile "car2.jpg")
              (beginFile 2 (sampleFile "car2.jpg") (fst r1)) (snd r1) in
  let st := beginFile 3 (sampleFile "car3.jpg") (fst r2) in
  let st := removeAnnotation (finishProcessFile singleViewJob st) in
  let r3 := finishFile sampleReader total annotations 3 (sampleFile "car3.jpg")
              st (snd r2) in
  endBatch (snd r3) (fst r3).

(** A run in which the label comes late: the only file of the folder is
    labelled while the run waits. *)
Definition unlabelledFolder : AppState :=
  handleFolderSelect sampleFormat [sampleFile "red.jpg"] initialState.

Definition afterLateLabel : AppState :=
  let st := beginFile 0 (sampleFile "red.jpg") (startBatch unlabelledFolder) in
  let st :=
    saveManualAnnotation red_light 1
      (handleManualAnnotation (sampleFile "red.jpg") st) in
  let r0 := finishFile sampleReader (List.length (selectedFiles unlabelledFolder))
              (manualAnnotations unlabelledFolder) 0 (sampleFile "red.jpg")
              st [] in
  endBatch (snd r0) (fst r0).

(** * Properties *)

(** ** Order of binary64 numbers, from the specification of the comparisons *)

Ltac sf_cases :=
  repeat match goal with
  | |- context [PosDef.Pos.compare_cont Eq ?m1 ?m2] =>
      change (PosDef.Pos.compare_cont Eq m1 m2) with (Pos.compare m1 m2)
  end;
  repeat match goal with
  | |- context [Z.compare ?a ?b] => destruct (Z.compare_spec a b)
  | |- context [Pos.compare ?a ?b] => destruct (Pos.compare_spec a b)
  end; subst; simpl; try congruence; try lia.

Lemma SFleb_trans a b c :
  SFleb a b = true -> SFleb b c = true -> SFleb a c = true.
Proof.
  unfold SFleb, SFcompare.
  destruct a as [[]|[]| |[] m1 e1], b as [[]|[]| |[] m2 e2],
           c as [[]|[]| |[] m3 e3];
    simpl; try congruence; sf_cases.
Qed.

Lemma SFltb_not_geb a b : SFltb a b = true -> SFleb b a = false.
Proof.
  unfold SFleb, SFltb, SFcompare.
  destruct a as [[]|[]| |[] m1 e1], b as [[]|[]| |[] m2 e2];
    simpl; try congruence; sf_cases.
Qed.

Lemma SFleb_of_not_gt a b :
  SFeqb a a = true -> SFeqb b b = true -> SFltb b a = false -> SFleb a b = true.
Proof.
  unfold SFleb, SFltb, SFeqb, SFcompare.
  destruct a as [[]|[]| |[] m1 e1], b as [[]|[]| |[] m2 e2];
    simpl; try congruence; sf_cases.
Qed.

Lemma leb_trans (x y z : float) :
  PrimFloat.leb x y = true -> PrimFloat.leb y z = true -> PrimFloat.leb x z = true.
Proof. rewrite !FloatAxioms.leb_spec. apply SFleb_trans. Qed.

Lemma ltb_leb (x y : float) :
  PrimFloat.ltb x y = true -> PrimFloat.leb x y = true.
Proof.
  rewrite FloatAxioms.ltb_spec, FloatAxioms.leb_spec. unfold SFltb, SFleb.
  destruct (SFcompare _ _) as [[]|]; congruence.
Qed.

Lemma ltb_not_geb (x y : float) :
  PrimFloat.ltb x y = true -> PrimFloat.leb y x = false.
Proof.
  rewrite FloatAxioms.ltb_spec, FloatAxioms.leb_spec. apply SFltb_not_geb.
Qed.

Lemma leb_of_not_gt (x y : float) :
  PrimFloat.is_nan x = false -> PrimFloat.is_nan y = false ->
  JS.gt x y = false -> PrimFloat.leb x y = true.
Proof.
  unfold PrimFloat.is_nan, JS.gt. intros Hx Hy.
  apply negb_false_iff in Hx, Hy. revert Hx Hy.
  rewrite !FloatAxioms.eqb_spec, FloatAxioms.ltb_spec, FloatAxioms.leb_spec.
  apply SFleb_of_not_gt.
Qed.

Lemma leb_refl (x : float) :
  PrimFloat.is_nan x = false -> PrimFloat.leb x x = true.
Proof.
  unfold PrimFloat.is_nan. intros Hx. apply negb_false_iff in Hx. revert Hx.
  rewrite FloatAxioms.eqb_spec, FloatAxioms.leb_spec. unfold SFeqb, SFleb.
  destruct (SFcompare _ _) as [[]|]; congruence.
Qed.

(** ** No operation of the labeler produces NaN

    From the specification of the binary64 operations: rounding a
    non-negative mantissa never yields NaN, so products, sums, differences and
    quotients with a finite constant do not either. *)

Section NoNaN.

Variables prec emax : Z.

Lemma shr_1_nonneg (mrs : shr_record) :
  0 <= shr_m mrs -> 0 <= shr_m (shr_1 mrs).
Proof.
  destruct mrs as [m r s]. cbn.
  destruct m as [|[p|p|]|p]; cbn; lia.
Qed.

Lemma iter_shr_1_nonneg (p : positive) :
  forall mrs, 0 <= shr_m mrs -> 0 <= shr_m (iter_pos shr_1 p mrs).
Proof.
  induction p as [p IH|p IH|]; intros mrs H; cbn.
  - apply IH, IH, shr_1_nonneg, H.
  - apply IH, IH, H.
  - apply shr_1_nonneg, H.
Qed.

Lemma shr_fexp_nonneg (m e : Z) (l : location) :
  0 <= m -> 0 <= shr_m (fst (shr_fexp prec emax m e l)).
Proof.
  intros H. unfold shr_fexp, shr.
  assert (H0 : 0 <= shr_m (shr_record_of_loc m l))
    by (destruct l as [|[]]; exact H).
  destruct (fexp prec emax (Zdigits2 m + e) - e); cbn [fst]; try exact H0.
  apply iter_shr_1_nonneg, H0.
Qed.

Lemma round_nearest_even_nonneg (m : Z) (l : location) :
  0 <= m -> 0 <= round_nearest_even m l.
Proof.
  intros H. destruct l as [|[]]; cbn; try lia.
  destruct (Z.even m); lia.
Qed.

Lemma binary_round_aux_number (sx : bool) (mx ex : Z) (lx : location) :
  0 <= mx -> binary_round_aux prec emax sx mx ex lx <> S754_nan.
Proof.
  intros H. unfold binary_round_aux.
  pose proof (shr_fexp_nonneg mx ex lx H) as H1.
  destruct (shr_fexp prec emax mx ex lx) as [mrs' e']. cbn [fst] in H1.
  pose proof (shr_fexp_nonneg _ e' loc_Exact
                (round_nearest_even_nonneg _ (loc_of_shr_record mrs') H1)) as H2.
  destruct (shr_fexp prec emax _ e' loc_Exact) as [mrs'' e'']. cbn [fst] in H2.
  destruct (shr_m mrs'') as [|m|m]; try discriminate; [|lia].
  destruct (e'' <=? emax - prec); discriminate.
Qed.

Lemma binary_normalize_number (m e : Z) (szero : bool) :
  binary_normalize prec emax m e szero <> S754_nan.
Proof.
  unfold binary_normalize, binary_round.
  destruct m as [|m|m]; [discriminate| |];
    destruct (shl_align _ _ _) as [mz ez]; apply binary_round_aux_number; lia.
Qed.

Lemma SFmul_number (x : spec_float) (s : bool) (m : positive) (e : Z) :
  x <> S754_nan -> SFmul prec emax x (S754_finite s m e) <> S754_nan.
Proof.
  intros Hx. destruct x as [sx|sx| |sx mx ex]; cbn; try discriminate;
    [congruence|]. apply binary_round_aux_number. lia.
Qed.

Lemma SFadd_number_l (s : bool) (m : positive) (e : Z) (y : spec_float) :
  y <> S754_nan -> SFadd prec emax (S754_finite s m e) y <> S754_nan.
Proof.
  intros Hy. destruct y as [sy|sy| |sy my ey]; cbn; try discriminate;
    [congruence|]. apply binary_normalize_number.
Qed.

Lemma SFadd_number_r (x : spec_float) (s : bool) (m : positive) (e : Z) :
  x <> S754_nan -> SFadd prec emax x (S754_finite s m e) <> S754_nan.
Proof.
  intros Hx. destruct x as [sx|sx| |sx mx ex]; cbn; try discriminate;
    [congruence|]. apply binary_normalize_number.
Qed.

Lemma SFsub_number_r (x : spec_float) (s : bool) (m : positive) (e : Z) :
  x <> S754_nan -> SFsub prec emax x (S754_finite s m e) <> S754_nan.
Proof.
  intros Hx. destruct x as [sx|sx| |sx mx ex]; cbn; try discriminate;
    [congruence|]. apply binary_normalize_number.
Qed.

Lemma SFdiv_number (x : spec_float) (s : bool) (m : positive) (e : Z) :
  x <> S754_nan -> SFdiv prec emax x (S754_finite s m e) <> S754_nan.
Proof.
  intros Hx. destruct x as [sx|sx| |sx mx ex]; cbn -[SFdiv_core_binary];
    try discriminate; [congruence|].
  unfold SFdiv_core_binary.
  set (s' := ex - e - _).
  set (m' := match s' with Z0 => Z.pos mx | Z.pos _ => Z.shiftl (Z.pos mx) s'
                      | Z.neg _ => 0 end).
  assert (Hm' : 0 <= m').
  { subst m'. destruct s'; try lia. apply Z.shiftl_nonneg. lia. }
  pose proof (Z.div_pos m' (Z.pos m) Hm' ltac:(lia)) as Hq.
  unfold Z.div in Hq.
  destruct (Z.div_eucl m' (Z.pos m)) as [q r].
  apply binary_round_aux_number, Hq.
Qed.

End NoNaN.

Lemma SFeqb_refl (x : spec_float) : x <> S754_nan -> SFeqb x x = true.
Proof.
  intros Hx. unfold SFeqb, SFcompare.
  destruct x as [s|s| |s m e]; try congruence; try (destruct s; reflexivity).
  change (PosDef.Pos.compare_cont Eq m m) with (Pos.compare m m).
  rewrite Z.compare_refl, Pos.compare_refl. now destruct s.
Qed.

Lemma isNumber_is_nan (x : float) : isNumber x -> PrimFloat.is_nan x = false.
Proof.
  intros Hx. unfold PrimFloat.is_nan.
  now rewrite FloatAxioms.eqb_spec, SFeqb_refl.
Qed.

Lemma isNumber_of_uint63 (n : int) : isNumber (PrimFloat.of_uint63 n).
Proof.
  unfold isNumber. rewrite of_uint63_spec. apply binary_normalize_number.
Qed.

Lemma isNumber_number (z : Z) : isNumber (JS.number z).
Proof.
  unfold JS.number. destruct (z <? 0); [|apply isNumber_of_uint63].
  unfold isNumber. rewrite FloatAxioms.opp_spec.
  pose proof (isNumber_of_uint63 (Uint63.of_Z (- z))) as H. unfold isNumber in H.
  destruct (Prim2SF _); cbn; congruence.
Qed.

Lemma isNumber_mul_const (x c : float) s m e :
  Prim2SF c = S754_finite s m e -> isNumber x -> isNumber (x * c)%float.
Proof.
  unfold isNumber. intros Hc Hx. rewrite FloatAxioms.mul_spec, Hc.
  now apply SFmul_number.
Qed.

Lemma isNumber_div_const (x c : float) s m e :
  Prim2SF c = S754_finite s m e -> isNumber x -> isNumber (x / c)%float.
Proof.
  unfold isNumber. intros Hc Hx. rewrite FloatAxioms.div_spec, Hc.
  now apply SFdiv_number.
Qed.

Lemma isNumber_const_add (c x : float) s m e :
  Prim2SF c = S754_finite s m e -> isNumber x -> isNumber (c + x)%float.
Proof.
  unfold isNumber. intros Hc Hx. rewrite FloatAxioms.add_spec, Hc.
  now apply SFadd_number_l.
Qed.

Lemma isNumber_add_const (x c : float) s m e :
  Prim2SF c = S754_finite s m e -> isNumber x -> isNumber (x + c)%float.
Proof.
  unfold isNumber. intros Hc Hx. rewrite FloatAxioms.add_spec, Hc.
  now apply SFadd_number_r.
Qed.

Lemma isNumber_sub_const (x c : float) s m e :
  Prim2SF c = S754_finite s m e -> isNumber x -> isNumber (x - c)%float.
Proof.
  unfold isNumber. intros Hc Hx. rewrite FloatAxioms.sub_spec, Hc.
  now apply SFsub_number_r.
Qed.

Lemma getDeterministicRandom_number (seed : string) (index : nat) :
  isNumber (getDeterministicRandom seed index).
Proof.
  unfold getDeterministicRandom.
  eapply isNumber_div_const; [reflexivity|apply isNumber_number].
Qed.

(** ** The labeler *)

Lemma lowerUnit_idempotent (c : ascii) :
  JS.lowerUnit (JS.lowerUnit c) = JS.lowerUnit c.
Proof. destruct c as [[] [] [] [] [] [] [] []]; reflexivity. Qed.

Lemma toLowerCase_idempotent (s : string) :
  JS.toLowerCase (JS.toLowerCase s) = JS.toLowerCase s.
Proof.
  induction s as [|c s IH]; simpl; [reflexivity|].
  now rewrite lowerUnit_idempotent, IH.
Qed.

(** The 32-bit wrap keeps the running hash a signed 32-bit integer. *)
Lemma ToInt32_range (z : Z) : - 2 ^ 31 <= JS.ToInt32 z < 2 ^ 31.
Proof.
  unfold JS.ToInt32.
  pose proof (Z.mod_pos_bound (z + 2 ^ 31) (2 ^ 32) ltac:(lia)). lia.
Qed.

Lemma hashStep_range (h : Z) (c : ascii) :
  - 2 ^ 31 <= hashStep h c < 2 ^ 31.
Proof.
  unfold hashStep, JS.band. rewrite Z.land_diag. apply ToInt32_range.
Qed.

Lemma hashLoop_range (str : string) (h : Z) :
  - 2 ^ 31 <= h < 2 ^ 31 -> - 2 ^ 31 <= hashLoop str h < 2 ^ 31.
Proof.
  revert h. induction str as [|c str IH]; simpl; intros h Hh; [exact Hh|].
  apply IH, hashStep_range.
Qed.

Lemma hashOf_range (seed : string) (index : nat) :
  - 2 ^ 31 <= hashOf seed index < 2 ^ 31.
Proof. apply hashLoop_range. lia. Qed.

Lemma ToInt32_wraps (z : Z) : exists k, JS.ToInt32 z = z + k * 2 ^ 32.
Proof.
  exists (- ((z + 2 ^ 31) / 2 ^ 32)). unfold JS.ToInt32.
  rewrite Z.mod_eq by lia. lia.
Qed.

Lemma ToInt32_congr (z k : Z) : JS.ToInt32 (z + k * 2 ^ 32) = JS.ToInt32 z.
Proof.
  unfold JS.ToInt32.
  replace (z + k * 2 ^ 32 + 2 ^ 31) with (z + 2 ^ 31 + k * 2 ^ 32) by lia.
  now rewrite Z_mod_plus_full.
Qed.

(** Unless the hash is -2^31, its absolute value is at most the divisor
    2147483647 of the normalisation. *)
Lemma abs_hash_bound (seed : string) (index : nat) :
  0 <= Z.abs (hashOf seed index) <= 2147483648 /\
  (hashOf seed index <> - 2 ^ 31 -> Z.abs (hashOf seed index) <= 2147483647).
Proof. pose proof (hashOf_range seed index). lia. Qed.

(** The loop is the polynomial hash [hash * 31 + char], wrapped. *)
Lemma hashStep_poly (h : Z) (c : ascii) :
  hashStep h c = JS.ToInt32 (h * 31 + JS.charCode c).
Proof.
  unfold hashStep, JS.band, JS.shl. rewrite Z.land_diag.
  change (5 mod 32) with 5. rewrite Z.shiftl_mul_pow2 by lia.
  destruct (ToInt32_wraps h) as [k1 ->].
  destruct (ToInt32_wraps ((h + k1 * 2 ^ 32) * 2 ^ 5)) as [k2 ->].
  replace ((h + k1 * 2 ^ 32) * 2 ^ 5 + k2 * 2 ^ 32 - h + JS.charCode c)
    with (h * 31 + JS.charCode c + (32 * k1 + k2) * 2 ^ 32) by lia.
  apply ToInt32_congr.
Qed.

Lemma analyze_same_name (file1 file2 : File) :
  name file1 = name file2 ->
  analyzeImageForTrafficLights file1 = analyzeImageForTrafficLights file2.
Proof.
  intros Hname. unfold analyzeImageForTrafficLights. now rewrite Hname.
Qed.

Lemma analyze_same_lowered_name (file1 file2 : File) :
  JS.toLowerCase (name file1) = JS.toLowerCase (name file2) ->
  analyzeImageForTrafficLights file1 = analyzeImageForTrafficLights file2.
Proof.
  intros Hname. unfold analyzeImageForTrafficLights. now rewrite Hname.
Qed.

Lemma upperCaseUnit_shift (n : N) :
  upperCaseUnit n = true -> upperCaseUnit (n + 32) = false.
Proof.
  unfold upperCaseUnit.
  repeat match goal with
         | |- context [(?a <=? ?b)%N] => destruct (N.leb_spec a b)
         | |- context [(?a =? ?b)%N] => destruct (N.eqb_spec a b)
         end; cbn; intros Hup; try reflexivity; try discriminate Hup; lia.
Qed.

Lemma lowerUnit_upper (c : ascii) :
  upperCaseUnit (N_of_ascii c) = true ->
  JS.lowerUnit c = ascii_of_N (N_of_ascii c + 32).
Proof.
  intros H. unfold JS.lowerUnit. unfold upperCaseUnit in H. cbv zeta.
  now rewrite H.
Qed.

Lemma lowerUnit_other (c : ascii) :
  upperCaseUnit (N_of_ascii c) = false -> JS.lowerUnit c = c.
Proof.
  intros H. unfold JS.lowerUnit. unfold upperCaseUnit in H. cbv zeta.
  now rewrite H.
Qed.

(** The same letter in either case has one lower-case form. *)
Lemma sameLetter_lowerUnit (a b : ascii) :
  sameLetter a b = true -> JS.lowerUnit a = JS.lowerUnit b.
Proof.
  unfold sameLetter. cbv zeta. intros H.
  apply orb_true_iff in H as [H|H]; [apply orb_true_iff in H as [H|H]|].
  - apply N.eqb_eq in H.
    rewrite <- (ascii_N_embedding a), <- (ascii_N_embedding b), H. reflexivity.
  - apply andb_true_iff in H as [Hup H]. apply N.eqb_eq in H.
    rewrite (lowerUnit_upper a Hup), (lowerUnit_other b).
    + now rewrite <- H, ascii_N_embedding.
    + rewrite H. now apply upperCaseUnit_shift.
  - apply andb_true_iff in H as [Hup H]. apply N.eqb_eq in H.
    rewrite (lowerUnit_upper b Hup), (lowerUnit_other a).
    + now rewrite <- H, ascii_N_embedding.
    + rewrite H. now apply upperCaseUnit_shift.
Qed.

Lemma equalIgnoringCase_toLowerCase (s : string) :
  forall t, equalIgnoringCase s t = true -> JS.toLowerCase s = JS.toLowerCase t.
Proof.
  induction s as [|a s IH]; intros [|b t] H; try discriminate H;
    [reflexivity|].
  cbn [equalIgnoringCase] in H. apply andb_true_iff in H as [Hab Hst].
  cbn [JS.toLowerCase]. now rewrite (sameLetter_lowerUnit a b Hab), (IH t Hst).
Qed.

(** The labeler of the page is the rule set applied to the lower-cased name. *)
Lemma analyze_detectionsFor (file : File) :
  analyzeImageForTrafficLights file =
  detectionsFor (JS.includes (JS.toLowerCase (name file)))
                (getDeterministicRandom (JS.toLowerCase (name file))).
Proof. reflexivity. Qed.

Lemma unitsOf_app (s t : string) :
  unitsOf (s ++ t)%string = unitsOf s ++ unitsOf t.
Proof. induction s as [|c s IH]; cbn; [reflexivity|now rewrite IH]. Qed.

Lemma N_of_ascii_eqb (a b : ascii) :
  (N_of_ascii a =? N_of_ascii b)%N = if ascii_dec a b then true else false.
Proof.
  destruct (ascii_dec a b) as [->|Hne]; [apply N.eqb_refl|].
  apply N.eqb_neq. intros H. apply Hne.
  rewrite <- (ascii_N_embedding a), <- (ascii_N_embedding b), H. reflexivity.
Qed.

Lemma prefixUnits_prefix (p : string) :
  forall s, prefixUnits (unitsOf p) (unitsOf s) = String.prefix p s.
Proof.
  induction p as [|a p IH]; intros [|b s]; try reflexivity.
  cbn [unitsOf prefixUnits String.prefix]. rewrite N_of_ascii_eqb, IH.
  now destruct (ascii_dec a b).
Qed.

Lemma includesUnits_includes (s sub : string) :
  includesUnits (unitsOf s) (unitsOf sub) = JS.includes s sub.
Proof.
  induction s as [|c s IH].
  - cbn [unitsOf includesUnits JS.includes].
    change (@nil N) with (unitsOf "") at 1. now rewrite prefixUnits_prefix.
  - cbn [unitsOf includesUnits JS.includes].
    change (N_of_ascii c :: unitsOf s) with (unitsOf (String c s)).
    now rewrite prefixUnits_prefix, IH.
Qed.

Lemma hashUnits_hashLoop (str : string) :
  forall hash, fold_left hashStepUnit (unitsOf str) hash = hashLoop str hash.
Proof.
  induction str as [|c str IH]; intros hash; [reflexivity|].
  cbn [unitsOf fold_left hashLoop]. now rewrite IH.
Qed.

Lemma randomOfUnits_random (seed : string) (index : nat) :
  randomOfUnits (unitsOf seed) index = getDeterministicRandom seed index.
Proof.
  unfold randomOfUnits, getDeterministicRandom, hashOf.
  now rewrite <- unitsOf_app, hashUnits_hashLoop.
Qed.

Lemma detectionsFor_ext (has1 has2 : string -> bool) (rnd1 rnd2 : nat -> float) :
  (forall keyword, has1 keyword = has2 keyword) ->
  (forall index, rnd1 index = rnd2 index) ->
  detectionsFor has1 rnd1 = detectionsFor has2 rnd2.
Proof.
  intros Hhas Hrnd. unfold detectionsFor. now rewrite !Hhas, !Hrnd.
Qed.

Lemma lowerLatin1_unitsOf (s : string) :
  lowerLatin1 (unitsOf s) = unitsOf (JS.toLowerCase s).
Proof.
  induction s as [|c s IH]; [reflexivity|].
  cbn [unitsOf JS.toLowerCase]. rewrite <- IH. unfold lowerLatin1.
  cbn [map]. f_equal.
  destruct (N.ltb_spec (N_of_ascii c) 256) as [_|Hge].
  - now rewrite ascii_N_embedding.
  - pose proof (N_ascii_bounded c). lia.
Qed.

(** C9. Keyword matching and hashing are case-insensitive.  Labelling a file
    equals labelling the file renamed to its lower-cased name; two files
    whose names differ only in the case of their letters (as "RED_LIGHT.JPG"
    and "red_light.jpg") get the same detections.  For names of arbitrary
    UTF-16 code units, with the engine's toLowerCase as a parameter: because
    the name is lower-cased once, before the substring tests and every hash,
    names with the same lower-cased form are labelled alike, and, lower-casing
    being idempotent, a name is labelled as its lower-cased form is; on
    Latin-1 names, where that toLowerCase is the table of the model, this
    labeler is the labeler of the page. *)
Theorem analyze_case_insensitive :
  (forall file : File,
      analyzeImageForTrafficLights file =
      analyzeImageForTrafficLights
        (mkFile (JS.toLowerCase (name file)) (size file) (type file)
                (content file))) /\
  (forall file1 file2 : File,
      equalIgnoringCase (name file1) (name file2) = true ->
      analyzeImageForTrafficLights file1 = analyzeImageForTrafficLights file2) /\
  (forall toLowerCase : list N -> list N,
      (forall name1 name2,
          toLowerCase name1 = toLowerCase name2 ->
          analyzeUnits toLowerCase name1 = analyzeUnits toLowerCase name2) /\
      ((forall units, toLowerCase (toLowerCase units) = toLowerCase units) ->
       forall fileName,
         analyzeUnits toLowerCase fileName =
         analyzeUnits toLowerCase (toLowerCase fileName)) /\
      ((forall s, toLowerCase (unitsOf s) = unitsOf (JS.toLowerCase s)) ->
       forall file : File,
         analyzeUnits toLowerCase (unitsOf (name file)) =
         analyzeImageForTrafficLights file)).
Proof.
  split; [|split].
  - intros file. apply analyze_same_lowered_name. cbn [name].
    now rewrite toLowerCase_idempotent.
  - intros file1 file2 H. apply analyze_same_lowered_name.
    now apply equalIgnoringCase_toLowerCase.
  - intros toLowerCase. split; [|split].
    + intros name1 name2 H. unfold analyzeUnits. now rewrite H.
    + intros Hidem fileName. unfold analyzeUnits. now rewrite Hidem.
    + intros Hlatin file. rewrite analyze_detectionsFor.
      unfold analyzeUnits. rewrite Hlatin. apply detectionsFor_ext.
      * intros keyword. apply includesUnits_includes.
      * intros index. apply randomOfUnits_random.
Qed.

(** The same labels for "RED_LIGHT.JPG" and "red_light.jpg", which are not
    empty; and the labeler on code units, with the Latin-1 lower-casing, at a
    name in capitals. *)
Lemma analyze_case_insensitive_witness :
  analyzeImageForTrafficLights (sampleFile "RED_LIGHT.JPG") =
  analyzeImageForTrafficLights (sampleFile "red_light.jpg") /\
  map light_state (analyzeImageForTrafficLights (sampleFile "RED_LIGHT.JPG")) =
    [red_light; traffic_light] /\
  analyzeImageForTrafficLights (sampleFile "Stop.PNG") =
  analyzeImageForTrafficLights (sampleFile "sTOP.png") /\
  analyzeUnits lowerLatin1 (unitsOf "GREEN.JPG") =
  analyzeUnits lowerLatin1 (lowerLatin1 (unitsOf "GREEN.JPG")) /\
  analyzeUnits lowerLatin1 (unitsOf "GREEN.JPG") =
  analyzeImageForTrafficLights (sampleFile "GREEN.JPG").
Proof.
  split; [|split; [|split; [|split]]].
  - exact (proj1 (proj2 analyze_case_insensitive)
             (sampleFile "RED_LIGHT.JPG") (sampleFile "red_light.jpg") eq_refl).
  - vm_compute. reflexivity.
  - exact (proj1 (proj2 analyze_case_insensitive)
             (sampleFile "Stop.PNG") (sampleFile "sTOP.png") eq_refl).
  - refine (proj1 (proj2 (proj2 (proj2 analyze_case_insensitive) lowerLatin1))
              _ (unitsOf "GREEN.JPG")).
    intros units. unfold lowerLatin1. rewrite map_map. apply map_ext.
    intros u. destruct (N.ltb_spec u 256) as [Hlt|Hge].
    + rewrite ascii_N_embedding.
      destruct (N.ltb_spec (N_of_ascii (JS.lowerUnit (ascii_of_N u))) 256)
        as [_|Hge]; [now rewrite lowerUnit_idempotent|].
      pose proof (N_ascii_bounded (JS.lowerUnit (ascii_of_N u))). lia.
    + destruct (N.ltb_spec u 256); [lia|reflexivity].
  - exact (proj2 (proj2 (proj2 (proj2 analyze_case_insensitive) lowerLatin1))
             lowerLatin1_unitsOf (sampleFile "GREEN.JPG")).
Defined.

(** C3. The labeler is a function of the file name alone: two files of the
    same name get identical detection lists, whatever their size, MIME type
    and content. *)
Theorem analyze_depends_on_name_only (file1 file2 : File) :
  name file1 = name file2 ->
  analyzeImageForTrafficLights file1 = analyzeImageForTrafficLights file2.
Proof. apply analyze_same_name. Qed.

Lemma analyze_depends_on_name_only_witness :
  analyzeImageForTrafficLights (mkFile "Red_Stop.JPG" 10 "image/jpeg" "abc") =
  analyzeImageForTrafficLights (mkFile "Red_Stop.JPG" 99 "video/mp4" "xyz").
Proof. apply analyze_depends_on_name_only. reflexivity. Defined.

(** C2, as stated, fails: "traffic_cam.jpg" contains "traffic" and no other
    keyword at all, yet gets four detections, because its fourth hash value
    exceeds 0.7 and the generic detection follows the three of the signal
    head; so does "traffic_light.jpg", through the keyword "light". *)
Lemma traffic_alone_not_exactly_three :
  ~ (forall file : File,
       JS.includes (JS.toLowerCase (name file)) "traffic" = true ->
       JS.includes (JS.toLowerCase (name file)) "red" = false ->
       JS.includes (JS.toLowerCase (name file)) "green" = false ->
       JS.includes (JS.toLowerCase (name file)) "yellow" = false ->
       List.length (analyzeImageForTrafficLights file) = 3%nat).
Proof.
  intros H.
  specialize (H (sampleFile "traffic_cam.jpg") eq_refl eq_refl eq_refl eq_refl).
  vm_compute in H. discriminate H.
Qed.

Example traffic_cam_detections :
  map (fun k => JS.includes "traffic_cam.jpg" k)
      ["traffic"; "red"; "stop"; "green"; "go"; "yellow"; "amber"; "caution";
       "light"; "signal"]
    = [true; false; false; false; false; false; false; false; false; false] /\
  JS.gt (getDeterministicRandom "traffic_cam.jpg" 3) 0.7 = true /\
  map light_state (analyzeImageForTrafficLights (sampleFile "traffic_cam.jpg"))
    = [red_light; yellow_light; green_light; traffic_light] /\
  map light_state (analyzeImageForTrafficLights (sampleFile "traffic_light.jpg"))
    = [red_light; yellow_light; green_light; traffic_light].
Proof. vm_compute. repeat split. Qed.

Ltac split_around l :=
  first
    [ exists (firstn 0 l), (skipn 3 l); split; [reflexivity|]
    | exists (firstn 1 l), (skipn 4 l); split; [reflexivity|]
    | exists (firstn 2 l), (skipn 5 l); split; [reflexivity|]
    | exists (firstn 3 l), (skipn 6 l); split; [reflexivity|] ].

(** C2, amended. For a name that contains "traffic" and none of red, green,
    yellow, the detection list contains the signal head as a block: red at
    the base confidence, yellow at base - 0.05, green at base + 0.02, at the
    fixed boxes.  Before it come only detections at the base confidence (the
    rules of "stop", "go", "amber", "caution"), after it at most the one
    generic detection; when none of those rules fires, the list is exactly
    the three. *)
Theorem traffic_alone_signal_head (file : File) :
  let fileName := JS.toLowerCase (name file) in
  JS.includes fileName "traffic" = true ->
  JS.includes fileName "red" = false ->
  JS.includes fileName "green" = false ->
  JS.includes fileName "yellow" = false ->
  (exists pre post,
      analyzeImageForTrafficLights file =
        pre ++ signalHead (baseConfidenceOf file) ++ post /\
      Forall (fun d => confidence d = baseConfidenceOf file /\
                       light_state d <> traffic_light) pre /\
      (List.length post <= 1)%nat /\
      Forall (fun d => light_state d = traffic_light) post) /\
  (JS.includes fileName "stop" = false ->
   JS.includes fileName "go" = false ->
   JS.includes fileName "amber" = false ->
   JS.includes fileName "caution" = false ->
   JS.includes fileName "light" = false ->
   JS.includes fileName "signal" = false ->
   JS.gt (getDeterministicRandom fileName 3) 0.7 = false ->
   analyzeImageForTrafficLights file = signalHead (baseConfidenceOf file)).
Proof.
  intros fileName Htraffic Hred Hgreen Hyellow.
  unfold analyzeImageForTrafficLights, baseConfidenceOf, signalHead.
  fold fileName. cbv zeta. rewrite Htraffic, Hred, Hgreen, Hyellow.
  cbn [orb andb negb app]. split.
  - destruct (JS.includes fileName "stop"), (JS.includes fileName "go"),
      (JS.includes fileName "amber" || JS.includes fileName "caution"),
      (JS.includes fileName "light" || JS.includes fileName "signal"
       || JS.gt (getDeterministicRandom fileName 3) 0.7);
      cbn [app];
      match goal with |- exists pre post, ?l = _ /\ _ => split_around l end;
      cbn [firstn skipn List.length];
      repeat split; repeat constructor; cbn; auto; discriminate.
  - intros -> -> -> -> -> -> ->. reflexivity.
Qed.

Lemma traffic_alone_signal_head_witness :
  JS.includes (JS.toLowerCase "Traffic.jpg") "traffic" = true /\
  JS.includes (JS.toLowerCase "Traffic.jpg") "red" = false /\
  JS.includes (JS.toLowerCase "Traffic.jpg") "green" = false /\
  JS.includes (JS.toLowerCase "Traffic.jpg") "yellow" = false /\
  analyzeImageForTrafficLights (sampleFile "Traffic.jpg") =
  signalHead (baseConfidenceOf (sampleFile "Traffic.jpg")).
Proof.
  repeat (split; [reflexivity|]).
  apply (traffic_alone_signal_head (sampleFile "Traffic.jpg"));
    vm_compute; reflexivity.
Defined.

(** C4: the code at the failing inputs. The hash of "red_xlfrxna.jpg" with
    index 0 is -2^31, whose absolute value is 2^31, one more than the divisor:
    the normalised value exceeds 1 and the base confidence exceeds 0.95.  In
    the same way the generic detection of "light_gnhhotx.jpg" exceeds 0.65. *)
Theorem normalized_hash_above_one :
  hashOf "red_xlfrxna.jpg" 0 = - 2 ^ 31 /\
  PrimFloat.ltb 1 (getDeterministicRandom "red_xlfrxna.jpg" 0) = true /\
  map confidence (analyzeImageForTrafficLights (sampleFile "red_xlfrxna.jpg"))
    = [0.95000000009313224%float; 0.64999999953433873%float] /\
  PrimFloat.ltb 0.95 (baseConfidenceOf (sampleFile "red_xlfrxna.jpg")) = true /\
  hashOf "light_gnhhotx.jpg" 6 = - 2 ^ 31 /\
  map (fun d => (light_state d, PrimFloat.ltb 0.65 (confidence d)))
      (analyzeImageForTrafficLights (sampleFile "light_gnhhotx.jpg"))
    = [(traffic_light, true)].
Proof. vm_compute. repeat split. Qed.

(** The specification's examples, run on the model. *)
Example red_stop_sign_detections :
  map (fun d => (light_state d,
                 PrimFloat.leb 0.75 (confidence d) && PrimFloat.leb (confidence d) 0.95))
      (analyzeImageForTrafficLights (sampleFile "red_stop_sign.jpg"))
    = [(red_light, true)].
Proof. vm_compute. reflexivity. Qed.

Example blue_car_detections :
  analyzeImageForTrafficLights (sampleFile "blue_car.jpg") = [].
Proof. vm_compute. reflexivity. Qed.

(** A name with both "red" and "green" gets a red and a green detection. *)
Lemma red_and_green_both_present (file : File) :
  JS.includes (JS.toLowerCase (name file)) "red" = true ->
  JS.includes (JS.toLowerCase (name file)) "green" = true ->
  In red_light (map light_state (analyzeImageForTrafficLights file)) /\
  In green_light (map light_state (analyzeImageForTrafficLights file)).
Proof.
  intros Hred Hgreen. unfold analyzeImageForTrafficLights. cbv zeta.
  rewrite Hred, Hgreen. cbn [orb andb negb app].
  repeat match goal with
         | |- context [if ?b then _ else _] => destruct b
         end; cbn; auto.
Qed.

(** ** The primary detection *)

Lemma find_app_skip {A : Type} (p : A -> bool) (l1 l2 : list A) :
  Forall (fun x => p x = false) l1 -> find p (l1 ++ l2) = find p l2.
Proof.
  induction 1 as [|x l1 Hx _ IH]; simpl; [reflexivity|]. now rewrite Hx.
Qed.

(** The fold keeps, at every point, the last of the greatest seen so far. *)
Lemma fold_pickHigher_split (rest : list Detection) :
  forall pre acc post,
    Forall notNaN (pre ++ acc :: post ++ rest) ->
    Forall (below acc) pre ->
    Forall (strictlyBelow acc) post ->
    exists pre' post',
      pre ++ acc :: post ++ rest =
        pre' ++ fold_left pickHigher rest acc :: post' /\
      Forall (below (fold_left pickHigher rest acc)) pre' /\
      Forall (strictlyBelow (fold_left pickHigher rest acc)) post'.
Proof.
  induction rest as [|cur rest IH]; intros pre acc post Hnan Hpre Hpost.
  - exists pre, post. rewrite app_nil_r. auto.
  - cbn [fold_left]. unfold pickHigher at 2 4 6.
    destruct (JS.gt (confidence acc) (confidence cur)) eqn:Hgt.
    + destruct (IH pre acc (post ++ [cur])) as (pre' & post' & Heq & H1 & H2).
      * now rewrite <- app_assoc.
      * exact Hpre.
      * apply Forall_app. split; [exact Hpost|]. now repeat constructor.
      * exists pre', post'. rewrite <- Heq, <- app_assoc. auto.
    + assert (Hacc : notNaN acc /\ notNaN cur).
      { apply Forall_app in Hnan as [_ Hnan]. inversion Hnan as [|? ? Ha Hrest].
        apply Forall_app in Hrest as [_ Hrest]. inversion Hrest. auto. }
      destruct Hacc as [Ha Hc].
      assert (Hle : below cur acc) by (apply leb_of_not_gt; assumption).
      destruct (IH (pre ++ acc :: post) cur []) as (pre' & post' & Heq & H1 & H2).
      * now rewrite <- app_assoc.
      * apply Forall_app. split.
        -- eapply Forall_impl; [|exact Hpre]. intros e He.
           unfold below in *. eapply leb_trans; eassumption.
        -- constructor; [exact Hle|].
           eapply Forall_impl; [|exact Hpost]. intros e He.
           unfold below, strictlyBelow in *.
           eapply leb_trans; [apply ltb_leb|]; eassumption.
      * constructor.
      * exists pre', post'. rewrite <- Heq, <- app_assoc. auto.
Qed.

Lemma find_last_max (ds pre post : list Detection) (d : Detection) :
  ds = pre ++ d :: post ->
  hasMaxConfidence ds d = true ->
  Forall (fun e => hasMaxConfidence ds e = false) post ->
  lastWithMaxConfidence ds = Some d.
Proof.
  intros Hds Hd Hpost. unfold lastWithMaxConfidence.
  rewrite Hds at 2. rewrite rev_app_distr. cbn [rev]. rewrite <- app_assoc.
  rewrite find_app_skip.
  - cbn. now rewrite Hd.
  - apply Forall_rev. exact Hpost.
Qed.

(** C1, as stated, fails: "red_green.jpg" gets a red and a green detection of
    equal confidence, the maximum; the first of them is the red one, and the
    primary detection is the green one. *)
Lemma primary_is_not_first_max :
  map light_state (analyzeImageForTrafficLights (sampleFile "red_green.jpg"))
    = [red_light; green_light] /\
  map confidence (analyzeImageForTrafficLights (sampleFile "red_green.jpg"))
    = [0.80961005914006856%float; 0.80961005914006856%float] /\
  option_map light_state
    (firstWithMaxConfidence
       (analyzeImageForTrafficLights (sampleFile "red_green.jpg")))
    = Some red_light /\
  option_map light_state
    (primaryDetection
       (analyzeImageForTrafficLights (sampleFile "red_green.jpg")))
    = Some green_light /\
  primaryDetection (analyzeImageForTrafficLights (sampleFile "red_green.jpg"))
    <> firstWithMaxConfidence
         (analyzeImageForTrafficLights (sampleFile "red_green.jpg")).
Proof.
  repeat split; try (vm_compute; reflexivity).
  intros H. apply (f_equal (option_map light_state)) in H.
  vm_compute in H. discriminate H.
Qed.

(** The reduction returns the last detection of maximum confidence, for
    confidences that are numbers. *)
Lemma reduce_keeps_last_max (ds : list Detection) :
  Forall notNaN ds ->
  primaryDetection ds = lastWithMaxConfidence ds.
Proof.
  intros Hnan. destruct ds as [|first rest]; [reflexivity|].
  cbn [primaryDetection].
  destruct (fold_pickHigher_split rest [] first [] Hnan
              (Forall_nil _) (Forall_nil _))
    as (pre & post & Heq & Hpre & Hpost).
  cbn [app] in Heq. set (d := fold_left pickHigher rest first) in *.
  assert (Hd : notNaN d).
  { rewrite Heq in Hnan. apply Forall_app in Hnan as [_ Hnan].
    now inversion Hnan. }
  symmetry. apply (find_last_max _ pre post d Heq).
  - unfold hasMaxConfidence. apply forallb_forall. intros e He.
    rewrite Heq in He. apply in_app_or in He as [He|[<-|He]].
    + rewrite Forall_forall in Hpre. now apply Hpre.
    + now apply leb_refl.
    + rewrite Forall_forall in Hpost. now apply ltb_leb, Hpost.
  - eapply Forall_impl; [|exact Hpost]. intros e He.
    destruct (hasMaxConfidence (first :: rest) e) eqn:Hmax; [|reflexivity].
    unfold hasMaxConfidence in Hmax. rewrite forallb_forall in Hmax.
    assert (Hin : In d (first :: rest)).
    { rewrite Heq. apply in_or_app. right. now left. }
    apply Hmax in Hin. apply ltb_not_geb in He. congruence.
Qed.

Ltac number :=
  repeat first
    [ apply getDeterministicRandom_number
    | eapply isNumber_const_add; [reflexivity|]
    | eapply isNumber_add_const; [reflexivity|]
    | eapply isNumber_sub_const; [reflexivity|]
    | eapply isNumber_mul_const; [reflexivity|] ].

(** Every confidence the labeler emits is a number. *)
Lemma analyze_notNaN (file : File) :
  Forall notNaN (analyzeImageForTrafficLights file).
Proof.
  unfold analyzeImageForTrafficLights. cbv zeta.
  repeat match goal with
         | |- context [if ?b then _ else _] => destruct b
         end;
    cbn [app]; repeat constructor;
    unfold notNaN; cbn [confidence]; apply isNumber_is_nan; number.
Qed.

(** C1, amended. For every file, the primary prediction used for comparison
    (the reduction of processBatchFiles and of the single-image comparison,
    applied to the labeler's list) is, among the detections that share the
    maximum confidence, the last one in the list: the reduction keeps the
    earlier detection only when its confidence is strictly greater. *)
Theorem primary_is_last_max (file : File) :
  primaryDetection (analyzeImageForTrafficLights file) =
  lastWithMaxConfidence (analyzeImageForTrafficLights file).
Proof. apply reduce_keeps_last_max, analyze_notNaN. Qed.

(** ** Accuracy metrics *)

Lemma countIf_cons (p : ComparisonResult -> bool) r l :
  countIf p (r :: l) = (if p r then 1 else 0) + countIf p l.
Proof.
  unfold countIf. cbn [filter]. destruct (p r); cbn [List.length]; lia.
Qed.

Lemma getStat_tally (s : ClassStats) (r : ComparisonResult) (k : LightState) :
  getStat (tally s r) k =
  option_map
    (fun e => mkClassStat
                (correct e + (if labelled k r && isCorrect r then 1 else 0))
                (total e + (if labelled k r then 1 else 0)))
    (getStat s k).
Proof.
  unfold tally, labelled.
  destruct s as [[c1 t1] [c2 t2] [c3 t3] [c4 t4]].
  destruct (humanLabel r), k, (isCorrect r); cbn;
    rewrite ?Z.add_0_r; reflexivity.
Qed.

Lemma getStat_fold_tally (l : list ComparisonResult) :
  forall (s : ClassStats) (k : LightState),
    getStat (fold_left tally l s) k =
    option_map
      (fun e => mkClassStat
                  (correct e + countIf (fun r => labelled k r && isCorrect r) l)
                  (total e + countIf (labelled k) l))
      (getStat s k).
Proof.
  induction l as [|r l IH]; intros s k.
  - cbn. destruct (getStat s k) as [[c t]|]; cbn; [|reflexivity].
    now rewrite !Z.add_0_r.
  - cbn [fold_left]. rewrite IH, getStat_tally, !countIf_cons.
    destruct (getStat s k) as [[c t]|]; cbn; [|reflexivity].
    now rewrite !Z.add_assoc.
Qed.

(** C6. calculateAccuracyMetrics returns nothing for the empty list; for a
    non-empty list it returns the overall accuracy correct/total * 100, with
    total the number of comparisons and correct the number of correct ones,
    and per-class tallies for exactly the four classes red_light,
    yellow_light, green_light, traffic_light: under class k, total counts the
    comparisons whose humanLabel is k and correct those of them that are
    correct; no_traffic_light has no entry. *)
Theorem calculateAccuracyMetrics_spec :
  calculateAccuracyMetrics [] = None /\
  forall (r : ComparisonResult) (rs : list ComparisonResult),
  exists m,
    calculateAccuracyMetrics (r :: rs) = Some m /\
    m_correct m = countIf isCorrect (r :: rs) /\
    m_total m = Z.of_nat (List.length (r :: rs)) /\
    overall m =
      (JS.number (m_correct m) / JS.number (m_total m) * 100)%float /\
    forall k : LightState,
      getStat (classStats m) k =
      match k with
      | no_traffic_light => None
      | _ => Some (mkClassStat
                     (countIf (fun c => labelled k c && isCorrect c) (r :: rs))
                     (countIf (labelled k) (r :: rs)))
      end.
Proof.
  split; [reflexivity|]. intros r rs.
  unfold calculateAccuracyMetrics. cbn [List.length Nat.eqb].
  eexists. split; [reflexivity|]. cbn [m_correct m_total overall classStats].
  repeat split.
  intros k. rewrite getStat_fold_tally. destruct k; reflexivity.
Qed.

(** Three correct comparisons out of four give 75. *)
Example accuracy_three_of_four :
  let f := sampleFile "a.jpg" in
  option_map overall
    (calculateAccuracyMetrics
       [mkComparisonResult "a" red_light red_light 0.9 true f;
        mkComparisonResult "b" green_light green_light 0.8 true f;
        mkComparisonResult "c" no_traffic_light red_light 0.8 false f;
        mkComparisonResult "d" yellow_light yellow_light 0.8 true f])
  = Some 75%float.
Proof. vm_compute. reflexivity. Qed.

(** ** The batch orchestrator *)

Lemma nth_error_mapFrom {A B : Type} (f : A -> nat -> B) (l : list A) :
  forall k j,
    nth_error (mapFrom f k l) j =
    option_map (fun x => f x (k + j)%nat) (nth_error l j).
Proof.
  induction l as [|x l IH]; intros k j; destruct j as [|j]; cbn;
    try reflexivity.
  - now rewrite Nat.add_0_r.
  - rewrite IH. now rewrite Nat.add_succ_r.
Qed.

Lemma nth_error_mapIndexed {A B : Type} (f : A -> nat -> B) (l : list A) j :
  nth_error (mapIndexed f l) j = option_map (fun x => f x j) (nth_error l j).
Proof. unfold mapIndexed. now rewrite nth_error_mapFrom. Qed.

Lemma length_mapIndexed {A B : Type} (f : A -> nat -> B) (l : list A) :
  List.length (mapIndexed f l) = List.length l.
Proof.
  unfold mapIndexed. generalize 0%nat.
  induction l as [|x l IH]; intros k; cbn; [reflexivity|]. now rewrite IH.
Qed.

(** A field that the callback leaves alone is the same, entry by entry. *)
Lemma map_mapIndexed {A B : Type} (g : A -> B) (f : A -> nat -> A) (l : list A) :
  (forall x i, g (f x i) = g x) -> map g (mapIndexed f l) = map g l.
Proof.
  intros Hg. apply nth_error_ext. intros j.
  rewrite !nth_error_map, nth_error_mapIndexed.
  destruct (nth_error l j); cbn; [now rewrite Hg|reflexivity].
Qed.

Lemma Forall_mapIndexed {A : Type} (P : A -> Prop) (f : A -> nat -> A)
  (l : list A) :
  (forall x i, P x -> P (f x i)) -> Forall P l -> Forall P (mapIndexed f l).
Proof.
  intros Hf. unfold mapIndexed. generalize 0%nat.
  induction l as [|x l IH]; intros k Hl; cbn; [constructor|].
  inversion Hl; subst. constructor; auto.
Qed.

(** C10. Neither per-file update of the batch loop touches fileName,
    fileSize, file_type or file of any entry, and both leave the entries at
    the other indices as they were; the update to "processing" changes the
    status only, the update to "completed" only status, detections,
    processing_time and image_preview. *)
Theorem batch_updates_frame (i : nat) (dets : list Detection) (time : float)
  (preview : option string) (prev : list FileResult) :
  (List.length (markProcessing i prev) = List.length prev /\
   map fileName (markProcessing i prev) = map fileName prev /\
   map fileSize (markProcessing i prev) = map fileSize prev /\
   map file_type (markProcessing i prev) = map file_type prev /\
   map file (markProcessing i prev) = map file prev /\
   map detections (markProcessing i prev) = map detections prev /\
   map processing_time (markProcessing i prev) = map processing_time prev /\
   map image_preview (markProcessing i prev) = map image_preview prev /\
   forall j, j <> i ->
     nth_error (markProcessing i prev) j = nth_error prev j) /\
  (List.length (markCompleted i dets time preview prev) = List.length prev /\
   map fileName (markCompleted i dets time preview prev) = map fileName prev /\
   map fileSize (markCompleted i dets time preview prev) = map fileSize prev /\
   map file_type (markCompleted i dets time preview prev) = map file_type prev /\
   map file (markCompleted i dets time preview prev) = map file prev /\
   forall j, j <> i ->
     nth_error (markCompleted i dets time preview prev) j = nth_error prev j).
Proof.
  unfold markProcessing, markCompleted.
  repeat split;
    try apply length_mapIndexed;
    try (apply map_mapIndexed; intros x k; destruct (k =? i)%nat; reflexivity).
  - intros j Hj. rewrite nth_error_mapIndexed.
    apply Nat.eqb_neq in Hj. rewrite Hj. now destruct (nth_error prev j).
  - intros j Hj. rewrite nth_error_mapIndexed.
    apply Nat.eqb_neq in Hj. rewrite Hj. now destruct (nth_error prev j).
Qed.

Section PageProperties.

Variable formatFileSize : Z -> string.
Variable readAsDataURL : File -> string.

Lemma toCompleted_toProcessing dets time preview r :
  toCompleted dets time preview (toProcessing r) = toCompleted dets time preview r.
Proof. reflexivity. Qed.

(** One turn of the loop, on the result list. *)
Lemma finishFile_results total ann i file0 st acc j :
  nth_error
    (batchResults
       (fst (finishFile readAsDataURL total ann i file0 (beginFile i file0 st) acc)))
    j =
  option_map
    (fun r => if (j =? i)%nat then completedFor readAsDataURL file0 r else r)
    (nth_error (batchResults st) j).
Proof.
  unfold finishFile, beginFile, markCompleted, markProcessing, completedFor.
  cbn [fst batchResults setBatchResults setBatchProgress
       setCurrentProcessingFile].
  rewrite !nth_error_mapIndexed.
  destruct (nth_error (batchResults st) j) as [r|]; cbn [option_map];
    [|reflexivity].
  destruct (j =? i)%nat; reflexivity.
Qed.

Lemma batchLoop_unfold total ann file0 rest i st acc :
  batchLoop readAsDataURL total ann (file0 :: rest) i st acc =
  batchLoop readAsDataURL total ann rest (S i)
    (fst (finishFile readAsDataURL total ann i file0 (beginFile i file0 st) acc))
    (snd (finishFile readAsDataURL total ann i file0 (beginFile i file0 st) acc)).
Proof. reflexivity. Qed.

(** The loop over [files], started at index [i], completes the entries
    [i, i + length files) and leaves the others alone. *)
Lemma batchLoop_results total ann (files : list File) :
  forall i st acc j,
    nth_error
      (batchResults (fst (batchLoop readAsDataURL total ann files i st acc))) j =
    option_map
      (fun r =>
         match (if (i <=? j)%nat then nth_error files (j - i) else None) with
         | Some file0 => completedFor readAsDataURL file0 r
         | None => r
         end)
      (nth_error (batchResults st) j).
Proof.
  induction files as [|file0 rest IH]; intros i st acc j.
  - cbn [batchLoop fst].
    destruct (nth_error (batchResults st) j) as [r|]; cbn [option_map];
      [|reflexivity].
    destruct (i <=? j)%nat; [destruct (j - i)%nat|]; reflexivity.
  - rewrite batchLoop_unfold, IH, finishFile_results.
    destruct (nth_error (batchResults st) j) as [r|]; cbn [option_map];
      [|reflexivity].
    f_equal.
    destruct (Nat.eqb_spec j i) as [->|Hne].
    + rewrite Nat.leb_refl, Nat.sub_diag.
      destruct (Nat.leb_spec (S i) i) as [Hle|_]; [lia|]. reflexivity.
    + destruct (Nat.leb_spec i j) as [Hij|Hij].
      * destruct (Nat.leb_spec (S i) j) as [_|Hlt]; [|lia].
        replace (j - i)%nat with (S (j - S i)) by lia. reflexivity.
      * destruct (Nat.leb_spec (S i) j) as [Hlt|_]; [lia|]. reflexivity.
Qed.

Lemma batchLoop_progress total ann (files : list File) :
  forall i st acc,
    files <> [] ->
    batchProgress (fst (batchLoop readAsDataURL total ann files i st acc)) =
    progressAfter (i + List.length files - 1) total.
Proof.
  induction files as [|file0 rest IH]; intros i st acc Hne; [congruence|].
  rewrite batchLoop_unfold. destruct rest as [|file1 rest].
  - cbn [batchLoop fst finishFile batchProgress setBatchProgress List.length].
    f_equal. lia.
  - rewrite IH by discriminate. f_equal. cbn [List.length]. lia.
Qed.

Lemma batchLoop_comparisons total ann (files : list File) :
  forall i st acc,
    snd (batchLoop readAsDataURL total ann files i st acc) =
    fold_left
      (fun acc file0 =>
         compareFile ann file0 (analyzeImageForTrafficLights file0) acc)
      files acc.
Proof.
  induction files as [|file0 rest IH]; intros i st acc; [reflexivity|].
  rewrite batchLoop_unfold, IH. reflexivity.
Qed.

(** Running the loop over [l1 ++ l2] is running it over [l1], then over [l2]:
    the state after a prefix is a state the whole run passes through. *)
Lemma batchLoop_app total ann (l1 l2 : list File) :
  forall i st acc,
    batchLoop readAsDataURL total ann (l1 ++ l2) i st acc =
    batchLoop readAsDataURL total ann l2 (i + List.length l1)
      (fst (batchLoop readAsDataURL total ann l1 i st acc))
      (snd (batchLoop readAsDataURL total ann l1 i st acc)).
Proof.
  induction l1 as [|file0 l1 IH]; intros i st acc.
  - cbn. now rewrite Nat.add_0_r.
  - cbn [app]. rewrite !batchLoop_unfold, IH. cbn [List.length].
    now rewrite Nat.add_succ_r.
Qed.

(** What a whole run leaves in the result list. *)
Lemma processBatchFiles_batchResults (st : AppState) :
  aligned st ->
  batchResults (processBatchFiles readAsDataURL st) =
  map (fun r => completedFor readAsDataURL (file r) r) (batchResults st).
Proof.
  intros [Hfiles _]. unfold processBatchFiles.
  destruct (selectedFiles st) as [|file0 rest] eqn:Hsel.
  - cbn. destruct (batchResults st); [reflexivity|discriminate].
  - cbn [List.length Nat.eqb].
    destruct (batchLoop _ _ _ _ _ _ _) as [st' acc] eqn:Hloop.
    cbn [endBatch batchResults setIsBatchProcessing setCurrentProcessingFile
         setComparisonResults].
    replace st' with
      (fst (batchLoop readAsDataURL (S (List.length rest)) (manualAnnotations st)
              (file0 :: rest) 0 (startBatch st) []))
      by now rewrite Hloop.
    apply nth_error_ext. intros j.
    rewrite batchLoop_results, nth_error_map.
    cbn [startBatch batchResults setBatchProgress setIsBatchProcessing].
    cbn [Nat.leb]. rewrite Nat.sub_0_r, <- Hfiles, nth_error_map.
    destruct (nth_error (batchResults st) j); reflexivity.
Qed.

Lemma processBatchFiles_comparisons (st : AppState) :
  selectedFiles st <> [] ->
  comparisonResults (processBatchFiles readAsDataURL st) =
  fold_left
    (fun acc file0 =>
       compareFile (manualAnnotations st) file0
         (analyzeImageForTrafficLights file0) acc)
    (selectedFiles st) [].
Proof.
  intros Hne. unfold processBatchFiles.
  destruct (selectedFiles st) as [|file0 rest]; [congruence|].
  cbn [List.length Nat.eqb].
  rewrite <- (batchLoop_comparisons (S (List.length rest)) (manualAnnotations st)
                (file0 :: rest) 0 (startBatch st) []).
  destruct (batchLoop _ _ _ _ _ _ _) as [st' acc]. reflexivity.
Qed.

Lemma compareFile_In ann file0 acc c :
  In c (compareFile ann file0 (analyzeImageForTrafficLights file0) acc) ->
  In c acc \/ comparisonOf ann file0 c.
Proof.
  unfold compareFile.
  destruct (find _ ann) as [a|] eqn:Hfind; [|now left].
  destruct (primaryDetection _) as [p|] eqn:Hprim; [|now left].
  intros Hin. apply in_app_or in Hin as [Hin|[<-|[]]]; [now left|].
  right. apply find_some in Hfind as [Ha Hname].
  apply String.eqb_eq in Hname.
  exists a, p. repeat split; try assumption.
  intros Hnil. rewrite Hnil in Hprim. discriminate Hprim.
Qed.

Lemma fold_compareFile_In ann (files : list File) :
  forall acc c,
    In c (fold_left
            (fun acc file0 =>
               compareFile ann file0 (analyzeImageForTrafficLights file0) acc)
            files acc) ->
    In c acc \/ exists file0, In file0 files /\ comparisonOf ann file0 c.
Proof.
  induction files as [|file0 rest IH]; intros acc c Hin; [now left|].
  cbn [fold_left] in Hin. apply IH in Hin as [Hin|(file1 & Hin & Hc)].
  - apply compareFile_In in Hin as [Hin|Hc]; [now left|].
    right. exists file0. split; [now left|exact Hc].
  - right. exists file1. split; [now right|exact Hc].
Qed.

Lemma stateAfter_progress (st : AppState) (k : nat) :
  (1 <= k <= List.length (selectedFiles st))%nat ->
  batchProgress (stateAfter readAsDataURL k st) =
  progressAfter (k - 1) (List.length (selectedFiles st)).
Proof.
  intros Hk. unfold stateAfter. rewrite batchLoop_progress.
  - rewrite length_firstn. f_equal. lia.
  - intros Hnil. apply (f_equal (@List.length File)) in Hnil.
    rewrite length_firstn in Hnil. cbn in Hnil. lia.
Qed.

(** The whole run ends in the state after all files, with the loop's three
    closing updates applied. *)
Lemma processBatchFiles_stateAfter (st : AppState) :
  selectedFiles st <> [] ->
  processBatchFiles readAsDataURL st =
  endBatch (comparisonResults (processBatchFiles readAsDataURL st))
    (stateAfter readAsDataURL (List.length (selectedFiles st)) st).
Proof.
  intros Hne. unfold processBatchFiles, stateAfter. rewrite firstn_all.
  destruct (selectedFiles st) as [|file0 rest]; [congruence|].
  cbn [List.length Nat.eqb].
  destruct (batchLoop _ _ _ _ _ _ _) as [st' acc]. reflexivity.
Qed.

(** The run on a result list that lines up with the selected files. *)
Lemma aligned_run_completes_all (st : AppState) :
  aligned st ->
  List.length (batchResults (processBatchFiles readAsDataURL st)) =
    List.length (selectedFiles st) /\
  map file (batchResults (processBatchFiles readAsDataURL st)) =
    selectedFiles st /\
  map fileName (batchResults (processBatchFiles readAsDataURL st)) =
    map name (selectedFiles st) /\
  Forall (fun r => status r = completed)
         (batchResults (processBatchFiles readAsDataURL st)) /\
  forall i : nat,
    (1 <= i <= List.length (selectedFiles st))%nat ->
    batchProgress (stateAfter readAsDataURL i st) =
    (JS.number (Z.of_nat i)
     / JS.number (Z.of_nat (List.length (selectedFiles st))) * 100)%float.
Proof.
  intros Hal. rewrite (processBatchFiles_batchResults st Hal).
  destruct Hal as [Hfiles Hnames].
  assert (Hmapfile :
    map file (map (fun r => completedFor readAsDataURL (file r) r)
                  (batchResults st)) = selectedFiles st).
  { rewrite map_map. cbn [completedFor toCompleted file]. exact Hfiles. }
  repeat split.
  - rewrite length_map, <- Hfiles, length_map. reflexivity.
  - exact Hmapfile.
  - rewrite map_map, <- Hfiles, map_map. cbn [completedFor toCompleted fileName].
    apply map_ext_in. intros r Hr. rewrite Forall_forall in Hnames. auto.
  - apply Forall_map. apply Forall_forall. reflexivity.
  - intros i Hi. rewrite stateAfter_progress by exact Hi.
    unfold progressAfter. do 3 f_equal. lia.
Qed.

(** The comparisons of a run, and the files without detections. *)
Lemma aligned_run_comparisons (st : AppState) :
  selectedFiles st <> [] ->
  aligned st ->
  (forall c,
      In c (comparisonResults (processBatchFiles readAsDataURL st)) ->
      exists file0,
        In file0 (selectedFiles st) /\
        comparisonOf (manualAnnotations st) file0 c) /\
  (forall i file0,
      nth_error (selectedFiles st) i = Some file0 ->
      analyzeImageForTrafficLights file0 = [] ->
      (exists r,
          nth_error (batchResults (processBatchFiles readAsDataURL st)) i
            = Some r /\
          file r = file0 /\ status r = completed /\ detections r = []) /\
      batchProgress (stateAfter readAsDataURL (S i) st) =
        progressAfter i (List.length (selectedFiles st)) /\
      forall c,
        In c (comparisonResults (processBatchFiles readAsDataURL st)) ->
        cr_fileName c <> name file0).
Proof.
  intros Hne Hal.
  assert (Hcmp : forall c,
             In c (comparisonResults (processBatchFiles readAsDataURL st)) ->
             exists file0,
               In file0 (selectedFiles st) /\
               comparisonOf (manualAnnotations st) file0 c).
  { intros c Hin. rewrite processBatchFiles_comparisons in Hin by exact Hne.
    apply fold_compareFile_In in Hin as [[]|Hin]. exact Hin. }
  split; [exact Hcmp|]. intros i file0 Hi Hnil. repeat split.
  - rewrite (processBatchFiles_batchResults st Hal), nth_error_map.
    destruct Hal as [Hfiles _]. rewrite <- Hfiles, nth_error_map in Hi.
    destruct (nth_error (batchResults st) i) as [r|]; [|discriminate Hi].
    cbn in Hi. injection Hi as Hfile.
    eexists. split; [reflexivity|].
    cbn [completedFor toCompleted file status detections].
    rewrite Hfile. auto.
  - rewrite stateAfter_progress.
    + f_equal. lia.
    + assert (Hlt : (i < List.length (selectedFiles st))%nat)
        by (apply nth_error_Some; congruence).
      lia.
  - intros c Hin Hname. apply Hcmp in Hin as (file1 & _ & a & p & _ & _ & Hdet & _ & ->).
    cbn in Hname. apply Hdet.
    rewrite (analyze_same_name file1 file0 Hname). exact Hnil.
Qed.

(** *** Invariants of the transition system *)

Lemma initialResults_notError (mediaFiles : list File) :
  Forall notError (initialResults formatFileSize mediaFiles).
Proof.
  unfold initialResults. apply Forall_map, Forall_forall.
  intros ? _. now left.
Qed.

Lemma markProcessing_notError i prev :
  Forall notError prev -> Forall notError (markProcessing i prev).
Proof.
  apply Forall_mapIndexed. intros r k Hr.
  destruct (k =? i)%nat; [right; now left|exact Hr].
Qed.

Lemma markCompleted_notError i dets time preview prev :
  Forall notError prev ->
  Forall notError (markCompleted i dets time preview prev).
Proof.
  apply Forall_mapIndexed. intros r k Hr.
  destruct (k =? i)%nat; [right; now right|exact Hr].
Qed.

Lemma step_notError (c c' : PageConfig) :
  step formatFileSize readAsDataURL c c' ->
  Forall notError (batchResults (fst (fst c))) ->
  Forall notError (batchResults (fst (fst c'))).
Proof.
  intros Hstep. destruct Hstep; cbn [fst]; intros Hinv.
  - destruct picked; [constructor|exact Hinv].
  - unfold handleFolderSelect. destruct (0 <? _)%nat; [|exact Hinv].
    apply initialResults_notError.
  - unfold handleDrop. destruct (filter isMedia files) as [|f1 [|f2 rest]];
      [exact Hinv|constructor|apply initialResults_notError].
  - exact Hinv.
  - unfold saveManualAnnotation. now destruct (currentAnnotationFile st).
  - exact Hinv.
  - unfold removeAnnotation. now destruct (selectedFile st).
  - exact Hinv.
  - exact Hinv.
  - exact Hinv.
  - now apply markProcessing_notError.
  - now apply markCompleted_notError.
  - exact Hinv.
Qed.

Lemma initialResults_aligned (mediaFiles : list File) (st : AppState) :
  aligned (selectBatch formatFileSize mediaFiles st).
Proof.
  unfold aligned, selectBatch, initialResults. cbn. split.
  - rewrite map_map. cbn. apply map_id.
  - apply Forall_map, Forall_forall. reflexivity.
Qed.

Lemma mapIndexed_aligned (f : FileResult -> nat -> FileResult) (st : AppState) :
  (forall r k, file (f r k) = file r /\ fileName (f r k) = fileName r) ->
  aligned st -> aligned (setBatchResults (mapIndexed f) st).
Proof.
  intros Hf [Hfiles Hnames]. unfold aligned. cbn. split.
  - rewrite map_mapIndexed; [exact Hfiles|]. intros. apply Hf.
  - apply Forall_mapIndexed; [|exact Hnames].
    intros r k Hr. destruct (Hf r k) as [-> ->]. exact Hr.
Qed.

Lemma step_aligned (c c' : PageConfig) :
  step formatFileSize readAsDataURL c c' ->
  aligned (fst (fst c)) -> aligned (fst (fst c')).
Proof.
  intros Hstep. destruct Hstep; cbn [fst]; intros Hinv.
  - destruct picked; [|exact Hinv]. split; [reflexivity|constructor].
  - unfold handleFolderSelect. destruct (0 <? _)%nat; [|exact Hinv].
    apply initialResults_aligned.
  - unfold handleDrop. destruct (filter isMedia files) as [|f1 [|f2 rest]];
      [exact Hinv|split; [reflexivity|constructor]|apply initialResults_aligned].
  - exact Hinv.
  - unfold saveManualAnnotation. now destruct (currentAnnotationFile st).
  - exact Hinv.
  - unfold removeAnnotation. now destruct (selectedFile st).
  - exact Hinv.
  - exact Hinv.
  - exact Hinv.
  - unfold beginFile, markProcessing.
    apply (mapIndexed_aligned _ (setCurrentProcessingFile (name file0) st));
      [|exact Hinv].
    intros r k. now destruct (k =? i)%nat.
  - unfold finishFile, markCompleted. cbn [fst].
    apply (mapIndexed_aligned _ st); [|exact Hinv].
    intros r k. now destruct (k =? i)%nat.
  - exact Hinv.
Qed.

Lemma reachableWith_aligned (c : PageConfig) :
  reachableWith formatFileSize readAsDataURL c -> aligned (fst (fst c)).
Proof.
  induction 1 as [|c c' _ IH Hstep].
  - split; [reflexivity|constructor].
  - exact (step_aligned c c' Hstep IH).
Qed.

Lemma reachable_aligned (c : Config) :
  reachable formatFileSize readAsDataURL c -> aligned (fst c).
Proof.
  intros [job Hreach]. exact (reachableWith_aligned _ Hreach).
Qed.

(** C7. From any idle state the page can reach, a batch run over the N
    selected files leaves exactly N results, in
    the order of the input (entry i is the result of file i, under its
    name), all of status "completed"; and once the i-th file (counted from
    1) is done, the progress is (i / N) * 100. *)
Theorem processBatchFiles_completes_all (st : AppState) :
  reachable formatFileSize readAsDataURL (st, None) ->
  List.length (batchResults (processBatchFiles readAsDataURL st)) =
    List.length (selectedFiles st) /\
  map file (batchResults (processBatchFiles readAsDataURL st)) =
    selectedFiles st /\
  map fileName (batchResults (processBatchFiles readAsDataURL st)) =
    map name (selectedFiles st) /\
  Forall (fun r => status r = completed)
         (batchResults (processBatchFiles readAsDataURL st)) /\
  forall i : nat,
    (1 <= i <= List.length (selectedFiles st))%nat ->
    batchProgress (stateAfter readAsDataURL i st) =
    (JS.number (Z.of_nat i)
     / JS.number (Z.of_nat (List.length (selectedFiles st))) * 100)%float.
Proof.
  intros Hreach. apply aligned_run_completes_all.
  exact (reachable_aligned _ Hreach).
Qed.

(** C8. In every state the page can reach by selecting files or folders,
    dropping files, annotating, and running the batch loop (stopped at any of
    its awaits, with other handlers running in between), every FileResult is
    pending, processing or completed: none has status "error". *)
Theorem no_result_reaches_error (c : Config) :
  reachable formatFileSize readAsDataURL c ->
  Forall notError (batchResults (fst c)) /\
  Forall (fun r => status r <> error) (batchResults (fst c)).
Proof.
  intros [job Hreach].
  assert (Hinv : forall pc,
             reachableWith formatFileSize readAsDataURL pc ->
             Forall notError (batchResults (fst (fst pc)))).
  { induction 1 as [|pc pc' _ IH Hstep]; [constructor|].
    exact (step_notError pc pc' Hstep IH). }
  specialize (Hinv _ Hreach). cbn [fst] in Hinv.
  split; [exact Hinv|].
  eapply Forall_impl; [|exact Hinv].
  intros r [H|[H|H]]; rewrite H; discriminate.
Qed.

(** *** The uninterrupted run is a path of the transition system *)

Lemma skipn_cons_nth {A : Type} (l : list A) :
  forall i x rest,
    skipn i l = x :: rest -> nth_error l i = Some x /\ skipn (S i) l = rest.
Proof.
  induction l as [|y l IH]; intros i x rest H.
  - destruct i; discriminate H.
  - destruct i as [|i]; cbn in H.
    + injection H as -> ->. now split.
    + apply IH in H. exact H.
Qed.

Lemma loop_reachable (files : list File) (ann : list ManualAnnotation)
  (job : option FileRun) (rest : list File) :
  forall i st acc,
    skipn i files = rest ->
    reachableWith formatFileSize readAsDataURL
      (st, Some (mkBatchRun files ann i false acc), job) ->
    reachableWith formatFileSize readAsDataURL
      (fst (batchLoop readAsDataURL (List.length files) ann rest i st acc),
       Some (mkBatchRun files ann (i + List.length rest) false
               (snd (batchLoop readAsDataURL (List.length files) ann rest i st acc))),
       job).
Proof.
  induction rest as [|file0 rest IH]; intros i st acc Hskip Hreach.
  - cbn. rewrite Nat.add_0_r. exact Hreach.
  - apply skipn_cons_nth in Hskip as [Hnth Hskip].
    rewrite batchLoop_unfold. cbn [List.length].
    rewrite Nat.add_succ_r, <- Nat.add_succ_l.
    apply IH; [exact Hskip|].
    eapply reachable_step.
    + eapply reachable_step; [exact Hreach|].
      apply step_batchBegin. exact Hnth.
    + apply step_batchFinish. exact Hnth.
Qed.

Lemma processBatchFiles_reachableWith (st : AppState) (job : option FileRun) :
  reachableWith formatFileSize readAsDataURL (st, None, job) ->
  reachableWith formatFileSize readAsDataURL
    (processBatchFiles readAsDataURL st, None, job).
Proof.
  intros Hreach. unfold processBatchFiles.
  destruct (selectedFiles st) as [|file0 rest] eqn:Hsel; [exact Hreach|].
  cbn [List.length Nat.eqb].
  assert (Hstart :
    reachableWith formatFileSize readAsDataURL
      (startBatch st,
       Some (mkBatchRun (file0 :: rest) (manualAnnotations st) 0 false []),
       job)).
  { rewrite <- Hsel. eapply reachable_step; [exact Hreach|].
    apply step_batchStart. rewrite Hsel. discriminate. }
  apply (loop_reachable (file0 :: rest) (manualAnnotations st) job
           (file0 :: rest) 0 (startBatch st) [] eq_refl) in Hstart.
  cbn [List.length] in Hstart.
  destruct (batchLoop _ _ _ _ _ _ _) as [st' acc]. cbn [fst snd] in Hstart.
  eapply reachable_step; [exact Hstart|].
  apply step_batchEnd. cbn [Nat.add].
  apply nth_error_None. cbn [List.length]. lia.
Qed.

Lemma processBatchFiles_reachable (st : AppState) :
  reachable formatFileSize readAsDataURL (st, None) ->
  reachable formatFileSize readAsDataURL (processBatchFiles readAsDataURL st, None).
Proof.
  intros [job Hreach]. exists job.
  exact (processBatchFiles_reachableWith st job Hreach).
Qed.

End PageProperties.

(** ** The model at work on the sample page *)

Lemma sampleState_aligned : aligned sampleState.
Proof. split; [reflexivity|repeat constructor]. Qed.

Lemma sampleState_reachableWith :
  reachableWith sampleFormat sampleReader (sampleState, None, None).
Proof.
  unfold sampleState. cbv zeta.
  repeat (eapply reachable_step; [|constructor]).
  apply reachable_init.
Qed.

Lemma sampleState_reachable :
  reachable sampleFormat sampleReader (sampleState, None).
Proof. exists None. exact sampleState_reachableWith. Qed.

Example sample_run :
  map (fun r => (fileName r, status r, List.length (detections r)))
      (batchResults (processBatchFiles sampleReader sampleState))
    = [("Red_Green.jpg", completed, 2%nat); ("blue_car.jpg", completed, 0%nat)] /\
  map (fun c => (cr_fileName c, humanLabel c, modelPrediction c, isCorrect c))
      (comparisonResults (processBatchFiles sampleReader sampleState))
    = [("Red_Green.jpg", green_light, green_light, true)] /\
  map (fun k => batchProgress (stateAfter sampleReader k sampleState)) [1; 2]%nat
    = [50%float; 100%float].
Proof. vm_compute. repeat split. Qed.

Lemma processBatchFiles_completes_all_witness :
  reachable sampleFormat sampleReader (sampleState, None) /\
  (List.length (batchResults (processBatchFiles sampleReader sampleState)) =
     List.length (selectedFiles sampleState) /\
   map file (batchResults (processBatchFiles sampleReader sampleState)) =
     selectedFiles sampleState /\
   map fileName (batchResults (processBatchFiles sampleReader sampleState)) =
     map name (selectedFiles sampleState) /\
   Forall (fun r => status r = completed)
          (batchResults (processBatchFiles sampleReader sampleState)) /\
   forall i : nat,
     (1 <= i <= List.length (selectedFiles sampleState))%nat ->
     batchProgress (stateAfter sampleReader i sampleState) =
     (JS.number (Z.of_nat i)
      / JS.number (Z.of_nat (List.length (selectedFiles sampleState))) * 100)%float).
Proof.
  split; [exact sampleState_reachable|].
  exact (processBatchFiles_completes_all sampleFormat sampleReader sampleState
           sampleState_reachable).
Defined.

Lemma no_result_reaches_error_witness :
  reachable sampleFormat sampleReader
    (processBatchFiles sampleReader sampleState, None) /\
  Forall notError
    (batchResults (fst (processBatchFiles sampleReader sampleState, @None BatchRun))) /\
  Forall (fun r => status r <> error)
    (batchResults (fst (processBatchFiles sampleReader sampleState, @None BatchRun))).
Proof.
  assert (Hreach : reachable sampleFormat sampleReader
                     (processBatchFiles sampleReader sampleState, None))
    by (apply processBatchFiles_reachable, sampleState_reachable).
  split; [exact Hreach|].
  exact (no_result_reaches_error sampleFormat sampleReader _ Hreach).
Defined.

(** * Further properties of the page *)

(** ** The hash and the normalised value *)

Lemma polyHash_wrap (str : string) :
  forall x k, exists k', polyHash str (x + k * 2 ^ 32) = polyHash str x + k' * 2 ^ 32.
Proof.
  induction str as [|c str IH]; intros x k; cbn [polyHash].
  - now exists k.
  - replace ((x + k * 2 ^ 32) * 31 + JS.charCode c)
      with (x * 31 + JS.charCode c + (31 * k) * 2 ^ 32) by lia.
    apply IH.
Qed.

Lemma hashLoop_cons (c : ascii) (str : string) (h : Z) :
  hashLoop (String c str) h = hashLoop str (hashStep h c).
Proof. reflexivity. Qed.

Lemma polyHash_cons (c : ascii) (str : string) (h : Z) :
  polyHash (String c str) h = polyHash str (h * 31 + JS.charCode c).
Proof. reflexivity. Qed.

Lemma hashLoop_polyHash (str : string) :
  forall h, hashLoop str (JS.ToInt32 h) = JS.ToInt32 (polyHash str h).
Proof.
  induction str as [|c str IH]; intros h; [reflexivity|].
  rewrite hashLoop_cons, polyHash_cons, hashStep_poly, IH.
  destruct (ToInt32_wraps h) as [k Hk]. rewrite Hk.
  replace ((h + k * 2 ^ 32) * 31 + JS.charCode c)
    with (h * 31 + JS.charCode c + (31 * k) * 2 ^ 32) by lia.
  destruct (polyHash_wrap str (h * 31 + JS.charCode c) (31 * k)) as [k' Hk'].
  rewrite Hk'. apply ToInt32_congr.
Qed.

(** X1. The shift-and-subtract loop of getDeterministicRandom, with its wrap
    after every character, computes the polynomial hash
    s[0]*31^(n-1) + ... + s[n-1] of the seed followed by the index's digits,
    wrapped once into the signed 32-bit range. *)
Theorem hashOf_is_polynomial_hash (seed : string) (index : nat) :
  hashOf seed index =
  JS.ToInt32 (polyHash (seed ++ JS.toString index)%string 0) /\
  - 2 ^ 31 <= hashOf seed index < 2 ^ 31.
Proof.
  split; [|apply hashOf_range].
  unfold hashOf. change 0 with (JS.ToInt32 0) at 1. apply hashLoop_polyHash.
Qed.

Section Signs.

Variables prec emax : Z.

Lemma binary_round_aux_sign (sx : bool) (mx ex : Z) (lx : location) :
  0 <= mx ->
  match binary_round_aux prec emax sx mx ex lx with
  | S754_nan => False
  | S754_zero s | S754_infinity s | S754_finite s _ _ => s = sx
  end.
Proof.
  intros H. unfold binary_round_aux.
  pose proof (shr_fexp_nonneg prec emax mx ex lx H) as H1.
  destruct (shr_fexp prec emax mx ex lx) as [mrs' e']. cbn [fst] in H1.
  pose proof (shr_fexp_nonneg prec emax _ e' loc_Exact
                (round_nearest_even_nonneg _ (loc_of_shr_record mrs') H1)) as H2.
  destruct (shr_fexp prec emax _ e' loc_Exact) as [mrs'' e'']. cbn [fst] in H2.
  destruct (shr_m mrs'') as [|m|m]; [reflexivity| |lia].
  destruct (e'' <=? emax - prec); reflexivity.
Qed.

Lemma binary_normalize_nonNegative (m e : Z) (szero : bool) :
  0 <= m -> nonNegative (binary_normalize prec emax m e szero).
Proof.
  intros Hm. unfold binary_normalize, binary_round.
  destruct m as [|m|m]; [exact I| |lia].
  destruct (shl_align _ _ _) as [mz ez].
  pose proof (binary_round_aux_sign false (Z.pos mz) ez loc_Exact ltac:(lia)) as H.
  destruct (binary_round_aux _ _ _ _ _ _); cbn; auto.
Qed.

Lemma SFdiv_nonNegative (x : spec_float) (m : positive) (e : Z) :
  nonNegative x -> nonNegative (SFdiv prec emax x (S754_finite false m e)).
Proof.
  intros Hx. destruct x as [sx|sx| |sx mx ex]; cbn -[SFdiv_core_binary] in *;
    try exact I; try contradiction; subst; [reflexivity|].
  unfold SFdiv_core_binary.
  set (s' := ex - e - _).
  set (m' := match s' with Z0 => Z.pos mx | Z.pos _ => Z.shiftl (Z.pos mx) s'
                      | Z.neg _ => 0 end).
  assert (Hm' : 0 <= m').
  { subst m'. destruct s'; try lia. apply Z.shiftl_nonneg. lia. }
  pose proof (Z.div_pos m' (Z.pos m) Hm' ltac:(lia)) as Hq.
  unfold Z.div in Hq.
  destruct (Z.div_eucl m' (Z.pos m)) as [q r].
  pose proof (binary_round_aux_sign false q
                (Z.min (fexp prec emax (Zdigits2 (Z.pos mx) + ex
                                        - (Zdigits2 (Z.pos m) + e))) (ex - e))
                (new_location (Z.pos m) r) Hq) as H.
  destruct (binary_round_aux _ _ _ _ _ _); cbn; auto.
Qed.

End Signs.

Lemma nonNegative_leb (y : spec_float) :
  nonNegative y -> SFleb (S754_zero false) y = true.
Proof. destruct y as [s|s| |s m e]; cbn; intros H; subst; easy. Qed.

Lemma nonNegative_number (x : spec_float) : nonNegative x -> x <> S754_nan.
Proof. destruct x; cbn; congruence || tauto. Qed.

(** X2. getDeterministicRandom never returns NaN and never a negative
    number, whatever the seed and the index; the integer it divides, the
    hash's absolute value, is at most 2^31. *)
Theorem getDeterministicRandom_nonnegative (seed : string) (index : nat) :
  PrimFloat.is_nan (getDeterministicRandom seed index) = false /\
  PrimFloat.leb 0 (getDeterministicRandom seed index) = true /\
  0 <= Z.abs (hashOf seed index) <= 2 ^ 31.
Proof.
  assert (H : nonNegative (Prim2SF (getDeterministicRandom seed index))).
  { unfold getDeterministicRandom, JS.number.
    destruct (Z.ltb_spec (Z.abs (hashOf seed index)) 0) as [Hlt|_]; [lia|].
    rewrite FloatAxioms.div_spec, of_uint63_spec.
    change (Prim2SF 2147483647) with (S754_finite false 9007199250546688 (-22)).
    apply SFdiv_nonNegative, binary_normalize_nonNegative.
    apply Uint63.to_Z_bounded. }
  repeat split.
  - apply isNumber_is_nan, nonNegative_number, H.
  - rewrite FloatAxioms.leb_spec. apply nonNegative_leb, H.
  - lia.
  - pose proof (hashOf_range seed index). lia.
Qed.

(** ** What the labeler returns *)

Ltac split_ifs :=
  repeat match goal with
         | |- context [if ?b then _ else _] => destruct b eqn:?
         end.

Lemma keyword_conditions
  (red stop green go yellow amber caution traffic light signal g : bool) :
  (red || stop = false /\ green || go = false /\
   yellow || amber || caution = false /\
   traffic && negb red && negb green && negb yellow = false /\
   light || signal || g = false) <->
  (negb red && (negb stop && (negb green && (negb go && (negb yellow &&
     (negb amber && (negb caution && (negb traffic && (negb light &&
        (negb signal && true))))))))) = true /\
   g = false).
Proof.
  split.
  - intros (H1 & H2 & H3 & H4 & H5).
    apply orb_false_elim in H1 as [-> ->].
    apply orb_false_elim in H2 as [-> ->].
    apply orb_false_elim in H3 as [H3 ->].
    apply orb_false_elim in H3 as [-> ->].
    apply orb_false_elim in H5 as [H5 ->].
    apply orb_false_elim in H5 as [-> ->].
    cbn in H4. rewrite !andb_true_r in H4. subst traffic. now split.
  - intros [H ->].
    repeat (apply andb_true_iff in H as [?H H]).
    repeat match goal with
           | Hn : negb ?x = true |- _ => apply negb_true_iff in Hn; subst x
           end.
    cbn. repeat split.
Qed.

(** X3. The labeler returns the empty list exactly when the lower-cased name
    contains none of the ten keywords and the fourth hash value does not
    exceed 0.7; the "no traffic lights detected" case has no other cause. *)
Theorem analyze_empty_iff (file : File) :
  analyzeImageForTrafficLights file = [] <->
  (forallb (fun k => negb (JS.includes (JS.toLowerCase (name file)) k)) keywords
     = true /\
   JS.gt (getDeterministicRandom (JS.toLowerCase (name file)) 3) 0.7 = false).
Proof.
  unfold keywords. cbn [forallb]. rewrite <- keyword_conditions.
  unfold analyzeImageForTrafficLights. cbv zeta.
  split_ifs; cbn [app]; split;
    solve [ intros H; discriminate H
          | intros (H1 & H2 & H3 & H4 & H5); discriminate
          | intros _; repeat split ].
Qed.

Lemma analyze_shape (file : File) :
  (List.length (analyzeImageForTrafficLights file) <= 7)%nat /\
  Forall (fun d => class d = "traffic_light" /\
                   List.length (bbox d) = 4%nat /\
                   light_state d <> no_traffic_light)
         (analyzeImageForTrafficLights file).
Proof.
  unfold analyzeImageForTrafficLights. cbv zeta.
  split_ifs; cbn [app List.length]; (split; [lia|]);
    repeat constructor; discriminate.
Qed.

(** X4. The labeler returns at most seven detections; each has class
    "traffic_light", a box of four coordinates, a confidence that is a number,
    and a light state other than no_traffic_light. *)
Theorem analyze_wellformed (file : File) :
  (List.length (analyzeImageForTrafficLights file) <= 7)%nat /\
  Forall (fun d => class d = "traffic_light" /\
                   List.length (bbox d) = 4%nat /\
                   light_state d <> no_traffic_light /\
                   PrimFloat.is_nan (confidence d) = false)
         (analyzeImageForTrafficLights file).
Proof.
  destruct (analyze_shape file) as [Hlen Hshape]. split; [exact Hlen|].
  pose proof (analyze_notNaN file) as Hnan.
  rewrite Forall_forall in *. intros d Hd.
  destruct (Hshape d Hd) as (H1 & H2 & H3).
  repeat split; try assumption. exact (Hnan d Hd).
Qed.

(** Seven detections do occur: three colour rules through "stop", "go" and
    "amber", the signal head, and the generic detection. *)
Example seven_detections :
  map light_state
      (analyzeImageForTrafficLights (sampleFile "stop_go_amber_traffic_light.jpg"))
  = [red_light; green_light; yellow_light;
     red_light; yellow_light; green_light; traffic_light].
Proof. vm_compute. reflexivity. Qed.

(** X5. Each keyword guarantees its detection, whatever else the name
    contains: "red" or "stop" a red_light, "green" or "go" a green_light,
    "yellow", "amber" or "caution" a yellow_light, "light" or "signal" a generic
    traffic_light. *)
Theorem keywords_guarantee_detections (file : File) :
  (JS.includes (JS.toLowerCase (name file)) "red"
   || JS.includes (JS.toLowerCase (name file)) "stop" = true ->
   In red_light (map light_state (analyzeImageForTrafficLights file))) /\
  (JS.includes (JS.toLowerCase (name file)) "green"
   || JS.includes (JS.toLowerCase (name file)) "go" = true ->
   In green_light (map light_state (analyzeImageForTrafficLights file))) /\
  (JS.includes (JS.toLowerCase (name file)) "yellow"
   || JS.includes (JS.toLowerCase (name file)) "amber"
   || JS.includes (JS.toLowerCase (name file)) "caution" = true ->
   In yellow_light (map light_state (analyzeImageForTrafficLights file))) /\
  (JS.includes (JS.toLowerCase (name file)) "light"
   || JS.includes (JS.toLowerCase (name file)) "signal" = true ->
   In traffic_light (map light_state (analyzeImageForTrafficLights file))).
Proof.
  unfold analyzeImageForTrafficLights. cbv zeta.
  repeat split; intros H; rewrite H; cbn [orb]; split_ifs; cbn; tauto.
Qed.

Lemma primary_in_list (ds : list Detection) (p : Detection) :
  primaryDetection ds = Some p -> In p ds.
Proof.
  destruct ds as [|first rest]; [discriminate|]. cbn [primaryDetection].
  intros [= <-]. revert first.
  induction rest as [|cur rest IH]; intros first; cbn [fold_left]; [now left|].
  destruct (IH (pickHigher first cur)) as [H|H].
  - unfold pickHigher in H at 1.
    destruct (JS.gt _ _); [left|right; left]; exact H.
  - right. right. exact H.
Qed.

(** X6. For every file the primary detection exists exactly when the
    labeler's list is non-empty; it is one of the list's detections, and no
    detection of the list has a confidence above it. *)
Theorem primary_has_max_confidence (file : File) :
  match primaryDetection (analyzeImageForTrafficLights file) with
  | None => analyzeImageForTrafficLights file = []
  | Some p =>
      In p (analyzeImageForTrafficLights file) /\
      forall d, In d (analyzeImageForTrafficLights file) ->
                PrimFloat.leb (confidence d) (confidence p) = true /\
                JS.gt (confidence d) (confidence p) = false
  end.
Proof.
  pose proof (reduce_keeps_last_max _ (analyze_notNaN file)) as Hlast.
  destruct (primaryDetection (analyzeImageForTrafficLights file)) as [p|] eqn:Hp.
  - split; [now apply primary_in_list|]. intros d Hd.
    symmetry in Hlast. unfold lastWithMaxConfidence in Hlast.
    apply find_some in Hlast as [_ Hmax].
    unfold hasMaxConfidence in Hmax. rewrite forallb_forall in Hmax.
    specialize (Hmax d Hd). split; [exact Hmax|].
    unfold JS.gt. destruct (PrimFloat.ltb _ _) eqn:Hlt; [|reflexivity].
    apply ltb_not_geb in Hlt. congruence.
  - destruct (analyzeImageForTrafficLights file); [reflexivity|discriminate].
Qed.

(** ** The annotation store *)

Lemma find_app_split {A : Type} (p : A -> bool) (l1 l2 : list A) :
  find p (l1 ++ l2) =
  match find p l1 with Some x => Some x | None => find p l2 end.
Proof.
  induction l1 as [|x l1 IH]; cbn; [reflexivity|]. now destruct (p x).
Qed.

Lemma find_filter_excluded {A : Type} (p q : A -> bool) (l : list A) :
  (forall x, p x = true -> q x = false) -> find p (filter q l) = None.
Proof.
  intros Hpq. induction l as [|x l IH]; cbn; [reflexivity|].
  destruct (q x) eqn:Hq; [|exact IH]. cbn.
  destruct (p x) eqn:Hp; [|exact IH]. apply Hpq in Hp. congruence.
Qed.

Lemma find_filter_kept {A : Type} (p q : A -> bool) (l : list A) :
  (forall x, p x = true -> q x = true) -> find p (filter q l) = find p l.
Proof.
  intros Hpq. induction l as [|x l IH]; cbn; [reflexivity|].
  destruct (p x) eqn:Hp.
  - rewrite (Hpq x Hp). cbn. now rewrite Hp.
  - destruct (q x); cbn; [rewrite Hp|]; exact IH.
Qed.

(** Dropping the entries of one name: the lookups of that name find nothing,
    the lookups of every other name are as before. *)
Lemma findAnnotation_without (n0 n : string) (l : list ManualAnnotation) :
  findAnnotation n
    (filter (fun a => negb (String.eqb (ma_fileName a) n0)) l) =
  if String.eqb n n0 then None else findAnnotation n l.
Proof.
  unfold findAnnotation. destruct (String.eqb_spec n n0) as [->|Hne].
  - apply find_filter_excluded. intros x Hx. now rewrite Hx.
  - apply find_filter_kept. intros x Hx. apply String.eqb_eq in Hx.
    apply negb_true_iff, String.eqb_neq. congruence.
Qed.

(** X7. Saving a label is an insert keyed by file name: afterwards the lookup
    of the annotated file's name yields the new label and confidence, the
    lookup of any other name is unchanged, and the dialog is closed; without a
    file under annotation nothing changes. *)
Theorem saveManualAnnotation_lookup (label : LightState) (conf : float)
  (st : AppState) :
  match currentAnnotationFile st with
  | None => saveManualAnnotation label conf st = st
  | Some current =>
      findAnnotation (name current)
        (manualAnnotations (saveManualAnnotation label conf st))
        = Some (mkManualAnnotation (name current) label conf) /\
      (forall n, n <> name current ->
         findAnnotation n
           (manualAnnotations (saveManualAnnotation label conf st))
         = findAnnotation n (manualAnnotations st)) /\
      showAnnotationModal (saveManualAnnotation label conf st) = false /\
      currentAnnotationFile (saveManualAnnotation label conf st) = None
  end.
Proof.
  unfold saveManualAnnotation.
  destruct (currentAnnotationFile st) as [current|]; [|reflexivity].
  cbn [manualAnnotations showAnnotationModal currentAnnotationFile].
  repeat split.
  - unfold findAnnotation at 1. rewrite find_app_split.
    fold (findAnnotation (name current)
            (filter (fun a => negb (String.eqb (ma_fileName a) (name current)))
                    (manualAnnotations st))).
    rewrite findAnnotation_without, String.eqb_refl. cbn.
    now rewrite String.eqb_refl.
  - intros n Hn. unfold findAnnotation at 1. rewrite find_app_split.
    fold (findAnnotation n
            (filter (fun a => negb (String.eqb (ma_fileName a) (name current)))
                    (manualAnnotations st))).
    rewrite findAnnotation_without.
    apply String.eqb_neq in Hn. rewrite Hn.
    destruct (findAnnotation n (manualAnnotations st)); [reflexivity|].
    cbn. rewrite String.eqb_sym, Hn. reflexivity.
Qed.

(** X8. The "reset ground truth" button is a delete keyed by the selected
    file's name: afterwards that name has no annotation and every other
    name's lookup is unchanged; with no file selected nothing changes. *)
Theorem removeAnnotation_lookup (st : AppState) :
  match selectedFile st with
  | None => removeAnnotation st = st
  | Some sel =>
      findAnnotation (name sel) (manualAnnotations (removeAnnotation st)) = None /\
      forall n, n <> name sel ->
        findAnnotation n (manualAnnotations (removeAnnotation st))
        = findAnnotation n (manualAnnotations st)
  end.
Proof.
  unfold removeAnnotation.
  destruct (selectedFile st) as [sel|]; [|reflexivity].
  cbn [manualAnnotations setManualAnnotations]. split.
  - now rewrite findAnnotation_without, String.eqb_refl.
  - intros n Hn. rewrite findAnnotation_without.
    apply String.eqb_neq in Hn. now rewrite Hn.
Qed.

Lemma NoDup_names_filter (q : ManualAnnotation -> bool)
  (l : list ManualAnnotation) :
  NoDup (map ma_fileName l) -> NoDup (map ma_fileName (filter q l)).
Proof.
  induction l as [|a l IH]; cbn; intros H; [constructor|].
  inversion H as [|? ? Hnotin Hrest]; subst.
  destruct (q a); cbn; [|now apply IH].
  constructor; [|now apply IH].
  intros Hin. apply Hnotin. apply in_map_iff in Hin as (b & Hb & Hin).
  apply filter_In in Hin as [Hin _]. apply in_map_iff. now exists b.
Qed.

Lemma NoDup_names_replace (n0 : string) (label : LightState) (conf : float)
  (l : list ManualAnnotation) :
  NoDup (map ma_fileName l) ->
  NoDup (map ma_fileName
           (filter (fun a => negb (String.eqb (ma_fileName a) n0)) l
            ++ [mkManualAnnotation n0 label conf])).
Proof.
  intros H. rewrite map_app. cbn [map ma_fileName].
  apply NoDup_app.
  - now apply NoDup_names_filter.
  - repeat constructor. intros [].
  - intros n Hin [<-|[]]. apply in_map_iff in Hin as (b & Hb & Hin).
    apply filter_In in Hin as [_ Hq]. apply negb_true_iff, String.eqb_neq in Hq.
    congruence.
Qed.

(** ** Metrics *)

Lemma countIf_nonneg (p : ComparisonResult -> bool) l : 0 <= countIf p l.
Proof. unfold countIf. lia. Qed.

Lemma countIf_and_le (p q : ComparisonResult -> bool) l :
  countIf (fun c => p c && q c) l <= countIf p l.
Proof.
  induction l as [|r l IH]; [reflexivity|]. rewrite !countIf_cons.
  destruct (p r), (q r); cbn [andb]; lia.
Qed.

Lemma countIf_le_length (p : ComparisonResult -> bool) l :
  countIf p l <= Z.of_nat (List.length l).
Proof.
  unfold countIf. pose proof (filter_length_le p l). lia.
Qed.

(** Every comparison falls under exactly one of the five labels. *)
Lemma countIf_by_label (q : ComparisonResult -> bool) l :
  countIf (fun c => labelled red_light c && q c) l
  + countIf (fun c => labelled yellow_light c && q c) l
  + countIf (fun c => labelled green_light c && q c) l
  + countIf (fun c => labelled traffic_light c && q c) l
  + countIf (fun c => labelled no_traffic_light c && q c) l
  = countIf q l.
Proof.
  induction l as [|r l IH]; [reflexivity|]. rewrite !countIf_cons.
  assert (Hr : forall k, labelled k r = LightState_eqb (humanLabel r) k)
    by reflexivity.
  rewrite !Hr. destruct (humanLabel r), (q r); cbn [LightState_eqb andb]; lia.
Qed.

Lemma countIf_ext (p q : ComparisonResult -> bool) l :
  (forall c, p c = q c) -> countIf p l = countIf q l.
Proof.
  intros H. unfold countIf. now rewrite (filter_ext p q H).
Qed.

Lemma calculateAccuracyMetrics_cons (r : ComparisonResult) rs :
  calculateAccuracyMetrics (r :: rs) =
  Some (mkMetrics
          (JS.number (countIf isCorrect (r :: rs))
           / JS.number (Z.of_nat (List.length (r :: rs))) * 100)%float
          (Z.of_nat (List.length (r :: rs)))
          (countIf isCorrect (r :: rs))
          (fold_left tally (r :: rs) emptyStats)).
Proof. reflexivity. Qed.

(** X9. Whenever calculateAccuracyMetrics returns metrics, they are
    consistent: the list was not empty, 0 <= correct <= total, each class has
    0 <= correct <= total, and the four class totals (correct counts) add up
    to the overall total (correct count) minus the comparisons labelled
    no_traffic_light (and correct), which no class entry counts. *)
Theorem metrics_consistent (cs : list ComparisonResult) (m : Metrics) :
  calculateAccuracyMetrics cs = Some m ->
  cs <> [] /\
  m_total m = Z.of_nat (List.length cs) /\
  0 <= m_correct m <= m_total m /\
  (forall k e, getStat (classStats m) k = Some e ->
               0 <= correct e <= total e /\ total e <= m_total m) /\
  total (cs_red_light (classStats m)) + total (cs_yellow_light (classStats m))
  + total (cs_green_light (classStats m)) + total (cs_traffic_light (classStats m))
  = m_total m - countIf (labelled no_traffic_light) cs /\
  correct (cs_red_light (classStats m)) + correct (cs_yellow_light (classStats m))
  + correct (cs_green_light (classStats m))
  + correct (cs_traffic_light (classStats m))
  = m_correct m
    - countIf (fun c => labelled no_traffic_light c && isCorrect c) cs.
Proof.
  destruct cs as [|r rs]; [discriminate|].
  rewrite calculateAccuracyMetrics_cons.
  intros [= <-]. cbn [m_total m_correct classStats].
  set (cs := r :: rs).
  change (Z.pos (Pos.of_succ_nat (List.length rs)))
    with (Z.of_nat (List.length cs)).
  assert (Hstat : forall k,
             getStat (fold_left tally cs emptyStats) k =
             match k with
             | no_traffic_light => None
             | _ => Some (mkClassStat
                            (countIf (fun c => labelled k c && isCorrect c) cs)
                            (countIf (labelled k) cs))
             end).
  { intros k. rewrite getStat_fold_tally. destruct k; reflexivity. }
  split; [discriminate|]. split; [reflexivity|]. split.
  { pose proof (countIf_nonneg isCorrect cs).
    pose proof (countIf_le_length isCorrect cs). lia. }
  split.
  { intros k e He. rewrite Hstat in He.
    destruct k; try discriminate; injection He as <-; cbn [correct total];
      match goal with
      | |- context [countIf (labelled ?k) cs] =>
          pose proof (countIf_and_le (labelled k) isCorrect cs);
          pose proof (countIf_nonneg (fun c => labelled k c && isCorrect c) cs);
          pose proof (countIf_le_length (labelled k) cs)
      end; lia. }
  pose proof (Hstat red_light) as H1. pose proof (Hstat yellow_light) as H2.
  pose proof (Hstat green_light) as H3. pose proof (Hstat traffic_light) as H4.
  cbn [getStat] in H1, H2, H3, H4.
  injection H1 as ->. injection H2 as ->. injection H3 as ->. injection H4 as ->.
  cbn [correct total]. split.
  - pose proof (countIf_by_label (fun _ => true) cs) as Hsum.
    rewrite !(countIf_ext (fun c => labelled _ c && true) (labelled _)) in Hsum
      by (intros; apply andb_true_r).
    assert (Hall : countIf (fun _ => true) cs = Z.of_nat (List.length cs)).
    { unfold countIf. f_equal. f_equal.
      clear. induction cs as [|x l IH]; cbn; congruence. }
    lia.
  - pose proof (countIf_by_label isCorrect cs). lia.
Qed.

Lemma metrics_consistent_witness :
  exists m,
    calculateAccuracyMetrics sampleComparisons = Some m /\
    sampleComparisons <> [] /\
    m_total m = Z.of_nat (List.length sampleComparisons) /\
    0 <= m_correct m <= m_total m /\
    (forall k e, getStat (classStats m) k = Some e ->
                 0 <= correct e <= total e /\ total e <= m_total m) /\
    total (cs_red_light (classStats m)) + total (cs_yellow_light (classStats m))
    + total (cs_green_light (classStats m))
    + total (cs_traffic_light (classStats m))
    = m_total m - countIf (labelled no_traffic_light) sampleComparisons /\
    correct (cs_red_light (classStats m))
    + correct (cs_yellow_light (classStats m))
    + correct (cs_green_light (classStats m))
    + correct (cs_traffic_light (classStats m))
    = m_correct m
      - countIf (fun c => labelled no_traffic_light c && isCorrect c)
                sampleComparisons.
Proof.
  eexists. split; [reflexivity|].
  apply (metrics_consistent sampleComparisons). reflexivity.
Defined.

(** ** Further invariants of the transition system *)

Section PageExtras.

Variable formatFileSize : Z -> string.
Variable readAsDataURL : File -> string.

Lemma step_annotations_unique (c c' : PageConfig) :
  step formatFileSize readAsDataURL c c' ->
  NoDup (map ma_fileName (manualAnnotations (fst (fst c)))) ->
  NoDup (map ma_fileName (manualAnnotations (fst (fst c')))).
Proof.
  intros Hstep. destruct Hstep; cbn [fst]; intros Hinv;
    try exact Hinv.
  - now destruct picked.
  - unfold handleFolderSelect. now destruct (0 <? _)%nat.
  - unfold handleDrop. now destruct (filter isMedia files) as [|f1 [|f2 rest]].
  - unfold saveManualAnnotation.
    destruct (currentAnnotationFile st) as [current|]; [|exact Hinv].
    now apply NoDup_names_replace.
  - unfold removeAnnotation. destruct (selectedFile st); [|exact Hinv].
    now apply NoDup_names_filter.
Qed.

(** X10. In every reachable state the annotations hold at most one entry per
    file name: annotating a file again replaces its entry. *)
Theorem annotations_unique_per_file (c : Config) :
  reachable formatFileSize readAsDataURL c ->
  NoDup (map ma_fileName (manualAnnotations (fst c))).
Proof.
  intros [job Hreach].
  change (NoDup (map ma_fileName (manualAnnotations (fst (fst (c, job)))))).
  induction Hreach as [|pc pc' _ IH Hstep]; [constructor|].
  exact (step_annotations_unique pc pc' Hstep IH).
Qed.

Lemma fileTypeOf_cases (f : File) :
  fileTypeOf f = "image" \/ fileTypeOf f = "video".
Proof. unfold fileTypeOf. destruct (JS.startsWith _ _); auto. Qed.

Lemma selectSingle_modeConsistent (f : File) (st : AppState) :
  modeConsistent (selectSingle readAsDataURL f st).
Proof. repeat split; constructor. Qed.

Lemma selectBatch_modeConsistent (files : list File) (st : AppState) :
  filter isMedia files <> [] ->
  modeConsistent (selectBatch formatFileSize (filter isMedia files) st).
Proof.
  intros Hne. unfold modeConsistent, selectBatch, initialResults. cbn.
  repeat split; try assumption.
  - apply Forall_forall. intros f Hf. now apply filter_In in Hf.
  - apply Forall_map, Forall_forall. intros f _. cbn.
    split; [reflexivity|apply fileTypeOf_cases].
Qed.

Lemma mapIndexed_modeConsistent (f : FileResult -> nat -> FileResult)
  (st : AppState) :
  (forall r k, file (f r k) = file r /\ file_type (f r k) = file_type r) ->
  modeConsistent st -> modeConsistent (setBatchResults (mapIndexed f) st).
Proof.
  intros Hf (Hmode & Hmedia & Htypes). unfold modeConsistent. cbn.
  repeat split; try assumption.
  - destruct (processingMode st); [|exact Hmode].
    destruct Hmode as [H1 H2]. now rewrite H2.
  - apply Forall_mapIndexed; [|exact Htypes].
    intros r k Hr. destruct (Hf r k) as [-> ->]. exact Hr.
Qed.

Lemma step_modeConsistent (c c' : PageConfig) :
  step formatFileSize readAsDataURL c c' ->
  modeConsistent (fst (fst c)) -> modeConsistent (fst (fst c')).
Proof.
  intros Hstep. destruct Hstep; cbn [fst]; intros Hinv;
    try exact Hinv.
  - destruct picked; [apply selectSingle_modeConsistent|exact Hinv].
  - unfold handleFolderSelect.
    destruct (0 <? _)%nat eqn:Hlen; [|exact Hinv].
    apply selectBatch_modeConsistent. intros Hnil. rewrite Hnil in Hlen.
    discriminate Hlen.
  - unfold handleDrop.
    destruct (filter isMedia files) as [|f1 [|f2 rest]] eqn:Hmedia;
      [exact Hinv|apply selectSingle_modeConsistent|].
    rewrite <- Hmedia. apply selectBatch_modeConsistent.
    rewrite Hmedia. discriminate.
  - unfold saveManualAnnotation. now destruct (currentAnnotationFile st).
  - unfold removeAnnotation. now destruct (selectedFile st).
  - unfold beginFile, markProcessing.
    apply (mapIndexed_modeConsistent _
             (setCurrentProcessingFile (name file0) st)); [|exact Hinv].
    intros r k. now destruct (k =? i)%nat.
  - unfold finishFile, markCompleted. cbn [fst].
    apply (mapIndexed_modeConsistent _ st); [|exact Hinv].
    intros r k. now destruct (k =? i)%nat.
Qed.

(** X11. In every reachable state the selection fits the mode: in single
    mode there are no batch files and no batch results; in batch mode no
    single file is selected and the batch is not empty.  Every file selected
    for a batch is an image or a video, and every result's file_type is
    "image" or "video", as its file's MIME type says. *)
Theorem selection_fits_mode (c : Config) :
  reachable formatFileSize readAsDataURL c -> modeConsistent (fst c).
Proof.
  intros [job Hreach].
  change (modeConsistent (fst (fst (c, job)))).
  induction Hreach as [|pc pc' _ IH Hstep].
  - repeat split; constructor.
  - exact (step_modeConsistent pc pc' Hstep IH).
Qed.

Lemma compareFile_length ann f ds acc :
  (List.length (compareFile ann f ds acc) <= S (List.length acc))%nat.
Proof.
  unfold compareFile. destruct (find _ ann); [|lia].
  destruct (primaryDetection ds); [|lia].
  rewrite length_app. cbn. lia.
Qed.

(** X12. In every reachable configuration isBatchProcessing is true exactly
    while a batch run is suspended, so the start button, disabled by that
    flag, never starts a second run beside it; the run's index never passes
    the number of its files, and it has collected at most one comparison per
    file it has finished. *)
Theorem batch_flag_tracks_run (c : Config) :
  reachable formatFileSize readAsDataURL c ->
  match snd c with
  | None => isBatchProcessing (fst c) = false
  | Some run =>
      isBatchProcessing (fst c) = true /\
      (run_i run <= List.length (run_files run))%nat /\
      (List.length (run_acc run) <= run_i run)%nat
  end.
Proof.
  intros [job Hreach].
  change (match snd (fst (c, job)) with
          | None => isBatchProcessing (fst (fst (c, job))) = false
          | Some run =>
              isBatchProcessing (fst (fst (c, job))) = true /\
              (run_i run <= List.length (run_files run))%nat /\
              (List.length (run_acc run) <= run_i run)%nat
          end).
  induction Hreach as [|pc pc' _ IH Hstep]; [reflexivity|].
  destruct Hstep; cbn [fst snd] in *;
    try (destruct run as [run|]; exact IH).
  - destruct picked; [|destruct run; exact IH]. destruct run; exact IH.
  - unfold handleFolderSelect.
    destruct (0 <? _)%nat; destruct run; exact IH.
  - unfold handleDrop.
    destruct (filter isMedia files) as [|f1 [|f2 rest]]; destruct run; exact IH.
  - unfold saveManualAnnotation.
    destruct (currentAnnotationFile st); destruct run; exact IH.
  - unfold removeAnnotation. destruct (selectedFile st); destruct run; exact IH.
  - cbn. repeat split; lia.
  - exact IH.
  - destruct IH as (Hflag & Hi & Hacc). cbn in Hi, Hacc.
    cbn. repeat split; [exact Hflag| |].
    + assert (i < List.length files)%nat by (apply nth_error_Some; congruence).
      lia.
    + pose proof (compareFile_length annotations file0
                    (analyzeImageForTrafficLights file0) acc).
      unfold finishFile. cbn [snd]. lia.
  - reflexivity.
Qed.

(** ** What a batch run leaves behind *)

(** X13. After an uninterrupted batch run from a reachable idle state, every
    result carries the labeler's detections for its own file, the processing
    time derived from that file's name, and a preview exactly when the file
    is an image. *)
Theorem batch_results_belong_to_their_files (st : AppState) :
  reachable formatFileSize readAsDataURL (st, None) ->
  Forall (fun r =>
            detections r = analyzeImageForTrafficLights (file r) /\
            processing_time r =
              (1.0 + getDeterministicRandom (name (file r)) 9 * 2.0)%float /\
            image_preview r =
              (if JS.startsWith (type (file r)) "image/"
               then Some (readAsDataURL (file r)) else None))
         (batchResults (processBatchFiles readAsDataURL st)).
Proof.
  intros Hreach.
  rewrite (processBatchFiles_batchResults readAsDataURL st
             (reachable_aligned _ _ _ Hreach)).
  apply Forall_map, Forall_forall. intros r _.
  cbn [completedFor toCompleted detections processing_time image_preview file].
  repeat split.
Qed.

Lemma compareFile_app ann f ds acc :
  compareFile ann f ds acc = acc ++ compareFile ann f ds [].
Proof.
  unfold compareFile. destruct (find _ ann); [|now rewrite app_nil_r].
  destruct (primaryDetection ds); [reflexivity|now rewrite app_nil_r].
Qed.

Lemma fold_compareFile_flat_map ann (files : list File) :
  forall acc,
    fold_left
      (fun acc f => compareFile ann f (analyzeImageForTrafficLights f) acc)
      files acc =
    acc ++ flat_map
             (fun f => compareFile ann f (analyzeImageForTrafficLights f) [])
             files.
Proof.
  induction files as [|f rest IH]; intros acc; cbn [fold_left flat_map].
  - now rewrite app_nil_r.
  - rewrite IH, (compareFile_app ann f _ acc), <- app_assoc. reflexivity.
Qed.

Lemma compareFile_file ann f :
  map cr_file (compareFile ann f (analyzeImageForTrafficLights f) []) =
  if comparable ann f then [f] else [].
Proof.
  unfold compareFile, comparable, findAnnotation.
  destruct (find _ ann); [|reflexivity].
  destruct (analyzeImageForTrafficLights f) as [|d ds]; reflexivity.
Qed.

Lemma flat_map_compareFile_files ann (files : list File) :
  map cr_file
    (flat_map (fun f => compareFile ann f (analyzeImageForTrafficLights f) [])
              files) =
  filter (comparable ann) files.
Proof.
  induction files as [|f rest IH]; [reflexivity|].
  cbn [flat_map filter]. rewrite map_app, IH, compareFile_file.
  now destruct (comparable ann f).
Qed.

(** The comparisons of a run, one by one. *)
Lemma run_comparisons_consistent (st : AppState) :
  selectedFiles st <> [] ->
  Forall (fun c =>
            isCorrect c = LightState_eqb (humanLabel c) (modelPrediction c) /\
            modelPrediction c <> no_traffic_light /\
            (humanLabel c = no_traffic_light -> isCorrect c = false) /\
            cr_fileName c = name (cr_file c) /\
            PrimFloat.is_nan (modelConfidence c) = false)
         (comparisonResults (processBatchFiles readAsDataURL st)).
Proof.
  intros Hne. apply Forall_forall. intros c Hin.
  rewrite (processBatchFiles_comparisons readAsDataURL st Hne) in Hin.
  apply fold_compareFile_In in Hin as [[]|(f & _ & a & p & _ & _ & _ & Hp & ->)].
  apply primary_in_list in Hp.
  destruct (analyze_shape f) as [_ Hshape].
  rewrite Forall_forall in Hshape. destruct (Hshape p Hp) as (_ & _ & Hstate).
  pose proof (analyze_notNaN f) as Hnan. rewrite Forall_forall in Hnan.
  cbn [isCorrect humanLabel modelPrediction cr_fileName cr_file modelConfidence].
  repeat split; try assumption.
  - intros ->. destruct (light_state p); try reflexivity. congruence.
  - exact (Hnan p Hp).
Qed.

(** X15. Every comparison a batch run produces is internally consistent:
    isCorrect says whether the human label equals the model prediction, the
    prediction is never no_traffic_light, so a file the human labelled
    no_traffic_light is never counted correct; the entry's name is its file's
    name and its confidence is a number. *)
Theorem comparisons_are_consistent (st : AppState) :
  selectedFiles st <> [] ->
  Forall (fun c =>
            isCorrect c = LightState_eqb (humanLabel c) (modelPrediction c) /\
            modelPrediction c <> no_traffic_light /\
            (humanLabel c = no_traffic_light -> isCorrect c = false) /\
            cr_fileName c = name (cr_file c) /\
            PrimFloat.is_nan (modelConfidence c) = false)
         (comparisonResults (processBatchFiles readAsDataURL st)).
Proof. apply run_comparisons_consistent. Qed.

Lemma tally_correct_sum (cs : list ComparisonResult) :
  correct (cs_red_light (fold_left tally cs emptyStats))
  + correct (cs_yellow_light (fold_left tally cs emptyStats))
  + correct (cs_green_light (fold_left tally cs emptyStats))
  + correct (cs_traffic_light (fold_left tally cs emptyStats))
  = countIf isCorrect cs
    - countIf (fun c => labelled no_traffic_light c && isCorrect c) cs.
Proof.
  pose proof (getStat_fold_tally cs emptyStats red_light) as H1.
  pose proof (getStat_fold_tally cs emptyStats yellow_light) as H2.
  pose proof (getStat_fold_tally cs emptyStats green_light) as H3.
  pose proof (getStat_fold_tally cs emptyStats traffic_light) as H4.
  cbn [getStat emptyStats option_map cs_red_light cs_yellow_light
       cs_green_light cs_traffic_light correct total] in H1, H2, H3, H4.
  injection H1 as ->. injection H2 as ->. injection H3 as ->. injection H4 as ->.
  cbn [correct]. pose proof (countIf_by_label isCorrect cs). lia.
Qed.

Lemma countIf_none (p : ComparisonResult -> bool) (cs : list ComparisonResult) :
  Forall (fun c => p c = false) cs -> countIf p cs = 0.
Proof.
  induction 1 as [|c cs Hc _ IH]; [reflexivity|].
  rewrite countIf_cons, Hc, IH. reflexivity.
Qed.

(** X16. On the comparison list a batch run produces, the overall number of
    correct predictions is the sum of the four per-class correct counts: the
    comparisons labelled no_traffic_light, which no class entry counts, are
    never correct. *)
Theorem correct_is_sum_of_classes_after_run (st : AppState) (m : Metrics) :
  selectedFiles st <> [] ->
  calculateAccuracyMetrics
    (comparisonResults (processBatchFiles readAsDataURL st)) = Some m ->
  m_correct m =
    correct (cs_red_light (classStats m))
    + correct (cs_yellow_light (classStats m))
    + correct (cs_green_light (classStats m))
    + correct (cs_traffic_light (classStats m)).
Proof.
  intros Hne Hm.
  pose proof (run_comparisons_consistent st Hne) as Hcons.
  destruct (comparisonResults (processBatchFiles readAsDataURL st))
    as [|r rs] eqn:Hcs; [discriminate Hm|].
  pose proof (calculateAccuracyMetrics_cons r rs) as Heq.
  set (cs := r :: rs) in *. clearbody cs.
  rewrite Heq in Hm. injection Hm as <-.
  cbn [m_correct classStats]. rewrite tally_correct_sum.
  rewrite (countIf_none (fun c => labelled no_traffic_light c && isCorrect c)).
  - lia.
  - eapply Forall_impl; [|exact Hcons]. intros c (_ & _ & Hno & _).
    unfold labelled. destruct (humanLabel c); try reflexivity.
    now rewrite Hno.
Qed.

Lemma batchLoop_outside total ann (files : list File) :
  forall i st acc,
    outsideLoop (fst (batchLoop readAsDataURL total ann files i st acc)) =
    outsideLoop st.
Proof.
  induction files as [|f rest IH]; intros i st acc; [reflexivity|].
  rewrite batchLoop_unfold, IH. reflexivity.
Qed.

Lemma AppState_eta (st : AppState) :
  st = mkAppState (selectedFile st) (selectedFiles st) (imagePreview st)
         (isBatchProcessing st) (results st) (batchResults st)
         (batchProgress st) (currentProcessingFile st) (processingMode st)
         (showAnnotationModal st) (currentAnnotationFile st)
         (manualAnnotations st) (comparisonResults st).
Proof. now destruct st. Qed.

(** The state a run ends in, cell by cell. *)
Lemma run_closed_form (st : AppState) :
  aligned st ->
  selectedFiles st <> [] ->
  processBatchFiles readAsDataURL st =
  mkAppState (selectedFile st) (selectedFiles st) (imagePreview st)
    false (results st)
    (map (fun r => completedFor readAsDataURL (file r) r) (batchResults st))
    (progressAfter (List.length (selectedFiles st) - 1)
                   (List.length (selectedFiles st)))
    "" (processingMode st)
    (showAnnotationModal st) (currentAnnotationFile st) (manualAnnotations st)
    (flat_map
       (fun f => compareFile (manualAnnotations st) f
                   (analyzeImageForTrafficLights f) [])
       (selectedFiles st)).
Proof.
  intros Hal Hne.
  pose proof (processBatchFiles_batchResults readAsDataURL st Hal) as Hres.
  pose proof (processBatchFiles_comparisons readAsDataURL st Hne) as Hcmp.
  rewrite fold_compareFile_flat_map in Hcmp. cbn [app] in Hcmp.
  pose proof (processBatchFiles_stateAfter readAsDataURL st Hne) as Hend.
  assert (Hout : outsideLoop
                   (stateAfter readAsDataURL (List.length (selectedFiles st)) st)
                 = outsideLoop (startBatch st))
    by (unfold stateAfter; apply batchLoop_outside).
  assert (Hprog : batchProgress (processBatchFiles readAsDataURL st) =
                  progressAfter (List.length (selectedFiles st) - 1)
                                (List.length (selectedFiles st))).
  { rewrite Hend.
    cbn [endBatch batchProgress setIsBatchProcessing setCurrentProcessingFile
         setComparisonResults].
    apply stateAfter_progress.
    destruct (selectedFiles st); [congruence|cbn; lia]. }
  unfold outsideLoop in Hout.
  cbn [startBatch setBatchProgress setIsBatchProcessing selectedFile
       selectedFiles imagePreview isBatchProcessing results processingMode
       showAnnotationModal currentAnnotationFile manualAnnotations
       comparisonResults] in Hout.
  injection Hout as H1 H2 H3 _ H5 H6 H7 H8 H9 _.
  rewrite (AppState_eta (processBatchFiles readAsDataURL st)).
  rewrite Hres, Hcmp, Hprog. rewrite Hend.
  cbn [endBatch setIsBatchProcessing setCurrentProcessingFile
       setComparisonResults selectedFile selectedFiles imagePreview
       isBatchProcessing results currentProcessingFile processingMode
       showAnnotationModal currentAnnotationFile manualAnnotations].
  rewrite H1, H2, H3, H5, H6, H7, H8, H9. reflexivity.
Qed.

(** X17. An uninterrupted batch run from a reachable idle state leaves the
    selection, the single-file results, the mode, the dialog state and the
    annotations as they were, and running it a second time changes nothing:
    the second run ends in the very state the first one ended in. *)
Theorem batch_run_idempotent (st : AppState) :
  reachable formatFileSize readAsDataURL (st, None) ->
  processBatchFiles readAsDataURL (processBatchFiles readAsDataURL st) =
    processBatchFiles readAsDataURL st /\
  selectedFile (processBatchFiles readAsDataURL st) = selectedFile st /\
  selectedFiles (processBatchFiles readAsDataURL st) = selectedFiles st /\
  imagePreview (processBatchFiles readAsDataURL st) = imagePreview st /\
  results (processBatchFiles readAsDataURL st) = results st /\
  processingMode (processBatchFiles readAsDataURL st) = processingMode st /\
  showAnnotationModal (processBatchFiles readAsDataURL st)
    = showAnnotationModal st /\
  currentAnnotationFile (processBatchFiles readAsDataURL st)
    = currentAnnotationFile st /\
  manualAnnotations (processBatchFiles readAsDataURL st) = manualAnnotations st.
Proof.
  intros Hreach. pose proof (reachable_aligned _ _ _ Hreach) as Hal.
  destruct (selectedFiles st) as [|f0 rest] eqn:Hsel.
  - assert (Hid : processBatchFiles readAsDataURL st = st)
      by (unfold processBatchFiles; now rewrite Hsel).
    rewrite !Hid. rewrite Hsel. repeat split; reflexivity.
  - assert (Hne : selectedFiles st <> []) by (rewrite Hsel; discriminate).
    rewrite <- Hsel.
    pose proof (run_closed_form st Hal Hne) as Hform.
    set (st1 := processBatchFiles readAsDataURL st) in *.
    assert (Hal1 : aligned st1).
    { destruct Hal as [Hfiles Hnames]. rewrite Hform. split; cbn.
      - rewrite map_map. exact Hfiles.
      - apply Forall_map. exact Hnames. }
    assert (Hne1 : selectedFiles st1 <> []) by (rewrite Hform; exact Hne).
    split.
    + rewrite (run_closed_form st1 Hal1 Hne1). rewrite Hform at 2.
      rewrite Hform.
      cbn [selectedFile selectedFiles imagePreview results batchResults
           processingMode showAnnotationModal currentAnnotationFile
           manualAnnotations].
      rewrite map_map. reflexivity.
    + rewrite Hform. repeat split.
Qed.

(** X19. The batch loop is not shielded from a new selection: if another
    folder is selected while a run is suspended at an await, the run goes on
    writing, by index, into the new result list.  A configuration is
    reachable in which a completed result carries detections that are not
    the labeler's output for its own file. *)
Theorem stale_run_writes_into_new_selection :
  exists c : Config,
    reachable formatFileSize readAsDataURL c /\
    exists r,
      In r (batchResults (fst c)) /\
      status r = completed /\
      detections r <> analyzeImageForTrafficLights (file r).
Proof.
  pose (fA := sampleFile "red.jpg"). pose (fB := sampleFile "blue_car.jpg").
  pose proof (reachable_init formatFileSize readAsDataURL) as R.
  apply (fun R => reachable_step _ _ _ _ R
                    (step_folderSelect _ _ initialState None None [fA])) in R.
  set (st1 := handleFolderSelect formatFileSize [fA] initialState) in R.
  assert (Hne : selectedFiles st1 <> []) by discriminate.
  apply (fun R => reachable_step _ _ _ _ R
                    (step_batchStart _ _ st1 None Hne)) in R.
  apply (fun R => reachable_step _ _ _ _ R
                    (step_batchBegin _ _ (startBatch st1) None (selectedFiles st1)
                       (manualAnnotations st1) 0 [] fA eq_refl)) in R.
  apply (fun R => reachable_step _ _ _ _ R
                    (step_folderSelect _ _ _ _ _ [fB])) in R.
  apply (fun R => reachable_step _ _ _ _ R
                    (step_batchFinish _ _ _ None (selectedFiles st1)
                       (manualAnnotations st1) 0 [] fA eq_refl)) in R.
  eexists. split; [exists None; exact R|].
  eexists. split; [left; reflexivity|]. split; [reflexivity|].
  cbn [detections file toCompleted]. intros H. vm_compute in H. discriminate H.
Qed.

End PageExtras.

(** ** The further properties on the sample page *)

Lemma sampleState_selected : selectedFiles sampleState <> [].
Proof. discriminate. Qed.

Lemma annotations_unique_per_file_witness :
  reachable sampleFormat sampleReader (sampleState, None) /\
  NoDup (map ma_fileName (manualAnnotations (fst (sampleState, @None BatchRun)))).
Proof.
  split; [exact sampleState_reachable|].
  exact (annotations_unique_per_file sampleFormat sampleReader _
           sampleState_reachable).
Defined.

Lemma selection_fits_mode_witness :
  reachable sampleFormat sampleReader (sampleState, None) /\
  modeConsistent (fst (sampleState, @None BatchRun)).
Proof.
  split; [exact sampleState_reachable|].
  exact (selection_fits_mode sampleFormat sampleReader _ sampleState_reachable).
Defined.

Lemma batch_flag_tracks_run_witness :
  reachable sampleFormat sampleReader
    (startBatch sampleState,
     Some (mkBatchRun (selectedFiles sampleState)
             (manualAnnotations sampleState) 0 false [])) /\
  isBatchProcessing (startBatch sampleState) = true /\
  (0 <= List.length (selectedFiles sampleState))%nat /\
  (List.length (@nil ComparisonResult) <= 0)%nat.
Proof.
  assert (H : reachable sampleFormat sampleReader
                (startBatch sampleState,
                 Some (mkBatchRun (selectedFiles sampleState)
                         (manualAnnotations sampleState) 0 false []))).
  { exists None. eapply reachable_step; [exact sampleState_reachableWith|].
    apply step_batchStart. exact sampleState_selected. }
  split; [exact H|].
  exact (batch_flag_tracks_run sampleFormat sampleReader _ H).
Defined.

Lemma batch_results_belong_to_their_files_witness :
  reachable sampleFormat sampleReader (sampleState, None) /\
  Forall (fun r =>
            detections r = analyzeImageForTrafficLights (file r) /\
            processing_time r =
              (1.0 + getDeterministicRandom (name (file r)) 9 * 2.0)%float /\
            image_preview r =
              (if JS.startsWith (type (file r)) "image/"
               then Some (sampleReader (file r)) else None))
         (batchResults (processBatchFiles sampleReader sampleState)).
Proof.
  split; [exact sampleState_reachable|].
  exact (batch_results_belong_to_their_files sampleFormat sampleReader
           sampleState sampleState_reachable).
Defined.

Lemma comparisons_are_consistent_witness :
  selectedFiles sampleState <> [] /\
  Forall (fun c =>
            isCorrect c = LightState_eqb (humanLabel c) (modelPrediction c) /\
            modelPrediction c <> no_traffic_light /\
            (humanLabel c = no_traffic_light -> isCorrect c = false) /\
            cr_fileName c = name (cr_file c) /\
            PrimFloat.is_nan (modelConfidence c) = false)
         (comparisonResults (processBatchFiles sampleReader sampleState)).
Proof.
  split; [exact sampleState_selected|].
  exact (comparisons_are_consistent sampleReader sampleState
           sampleState_selected).
Defined.

Lemma correct_is_sum_of_classes_after_run_witness :
  exists m,
    selectedFiles sampleState <> [] /\
    calculateAccuracyMetrics
      (comparisonResults (processBatchFiles sampleReader sampleState)) = Some m /\
    m_correct m =
      correct (cs_red_light (classStats m))
      + correct (cs_yellow_light (classStats m))
      + correct (cs_green_light (classStats m))
      + correct (cs_traffic_light (classStats m)).
Proof.
  eexists. split; [exact sampleState_selected|].
  split; [vm_compute; reflexivity|].
  apply (correct_is_sum_of_classes_after_run sampleReader sampleState);
    [exact sampleState_selected|vm_compute; reflexivity].
Defined.

Lemma batch_run_idempotent_witness :
  reachable sampleFormat sampleReader (sampleState, None) /\
  processBatchFiles sampleReader (processBatchFiles sampleReader sampleState) =
    processBatchFiles sampleReader sampleState /\
  manualAnnotations (processBatchFiles sampleReader sampleState)
    = manualAnnotations sampleState.
Proof.
  split; [exact sampleState_reachable|].
  pose proof (batch_run_idempotent sampleFormat sampleReader sampleState
                sampleState_reachable) as H.
  split; [apply H|]. apply H.
Defined.

(** The single-image card of the sample: a red label, a red prediction. *)
Example sample_single_comparison :
  option_map (fun x => (ma_humanLabel (fst (fst x)), light_state (snd (fst x)),
                        snd x))
             (singleImageComparison (processFile sampleSingleState))
  = Some (red_light, red_light, true).
Proof. vm_compute. reflexivity. Qed.

(** ** The CSV export *)

Lemma hasChar_app (c : ascii) (s t : string) :
  hasChar c (s ++ t) = hasChar c s || hasChar c t.
Proof.
  induction s as [|a s IH]; cbn; [reflexivity|].
  now rewrite IH, orb_assoc.
Qed.

Lemma hasChar_concat (c : ascii) (sep : string) (l : list string) :
  hasChar c sep = false ->
  Forall (fun s => hasChar c s = false) l ->
  hasChar c (String.concat sep l) = false.
Proof.
  intros Hsep. induction 1 as [|x l Hx Hl IH]; [reflexivity|].
  destruct l as [|y l]; cbn [String.concat]; [exact Hx|].
  rewrite !hasChar_app, Hx, Hsep. exact IH.
Qed.

Lemma splitOn_free (c : ascii) (s : string) :
  hasChar c s = false -> splitOn c s = [s].
Proof.
  induction s as [|a s IH]; cbn; [reflexivity|]. intros H.
  apply orb_false_elim in H as [Ha Hs]. now rewrite Ha, (IH Hs).
Qed.

Lemma splitOn_app_sep (c : ascii) (s t : string) :
  hasChar c s = false ->
  splitOn c (s ++ String c t) = s :: splitOn c t.
Proof.
  induction s as [|a s IH]; cbn; intros H.
  - now rewrite Ascii.eqb_refl.
  - apply orb_false_elim in H as [Ha Hs]. now rewrite Ha, (IH Hs).
Qed.

(** Joining fields with a separator they do not contain, then cutting at
    the separator, gives the fields back. *)
Lemma splitOn_concat (c : ascii) (l : list string) :
  l <> [] ->
  Forall (fun s => hasChar c s = false) l ->
  splitOn c (String.concat (String c "") l) = l.
Proof.
  intros Hne Hfree. induction Hfree as [|x l Hx Hl IH]; [congruence|].
  destruct l as [|y l]; cbn [String.concat].
  - now apply splitOn_free.
  - assert (Hsep : forall t, (String c "" ++ t)%string = String c t)
      by reflexivity.
    rewrite Hsep, splitOn_app_sep by exact Hx. f_equal. apply IH. discriminate.
Qed.

Lemma digits_free (c : ascii) (d : Decimal.uint) :
  c = ","%char \/ c = newline ->
  hasChar c (NilEmpty.string_of_uint d) = false.
Proof.
  intros [-> | ->]; induction d; cbn; auto.
Qed.

Lemma getStateText_free (c : ascii) (state : LightState) :
  c = ","%char \/ c = newline -> hasChar c (getStateText state) = false.
Proof. intros [-> | ->]; destruct state; reflexivity. Qed.

Section ExportProperties.

Variable toFixed : nat -> float -> string.
Hypothesis toFixed_free : forall digits x, delimiterFree (toFixed digits x).

Lemma rowFields_free (c : ascii) (r : FileResult) :
  c = ","%char \/ c = newline ->
  delimiterFree (fileName r) -> delimiterFree (fileSize r) ->
  Forall (fun s => hasChar c s = false) (rowFields toFixed r).
Proof.
  intros Hc [Hn1 Hn2] [Hs1 Hs2].
  assert (Hfixed : forall digits x, hasChar c (toFixed digits x) = false).
  { intros digits x. destruct (toFixed_free digits x) as [H1 H2].
    destruct Hc as [-> | ->]; assumption. }
  assert (Hsep : hasChar c "; " = false) by (destruct Hc as [-> | ->]; reflexivity).
  unfold rowFields. repeat constructor.
  - destruct Hc as [-> | ->]; assumption.
  - destruct Hc as [-> | ->]; assumption.
  - apply digits_free, Hc.
  - rewrite hasChar_app, Hfixed. destruct Hc as [-> | ->]; reflexivity.
  - apply hasChar_concat; [exact Hsep|].
    apply Forall_map, Forall_forall. intros d _. apply getStateText_free, Hc.
  - apply hasChar_concat; [exact Hsep|].
    apply Forall_map, Forall_forall. intros d _.
    rewrite hasChar_app, Hfixed. destruct Hc as [-> | ->]; reflexivity.
Qed.

(** X20. The CSV of exportBatchResults can be read back: when no file name
    and no size text contains a comma or a line feed, cutting the exported
    text at the line feeds and every line at the commas gives the header
    and, for each result in order, its six fields: name, size, number of
    detections, processing time, light states and confidence scores. *)
Theorem batch_csv_reads_back (batchResults : list FileResult) :
  Forall (fun r => delimiterFree (fileName r) /\ delimiterFree (fileSize r))
         batchResults ->
  map (splitOn ",") (splitOn newline (batchCsvContent toFixed batchResults)) =
  csvHeaderFields :: map (rowFields toFixed) batchResults.
Proof.
  intros Hfree. unfold batchCsvContent. rewrite splitOn_concat.
  - cbn [map]. f_equal. rewrite map_map. apply map_ext_in. intros r Hr.
    rewrite Forall_forall in Hfree. destruct (Hfree r Hr) as [Hn Hs].
    apply splitOn_concat; [discriminate|].
    apply rowFields_free; auto.
  - discriminate.
  - constructor; [reflexivity|].
    apply Forall_map, Forall_forall. intros r Hr.
    rewrite Forall_forall in Hfree. destruct (Hfree r Hr) as [Hn Hs].
    apply hasChar_concat; [reflexivity|].
    apply rowFields_free; auto.
Qed.

End ExportProperties.

Lemma repeatZero_free (c : ascii) (k : nat) :
  c = ","%char \/ c = newline -> hasChar c (repeatZero k) = false.
Proof. intros [-> | ->]; induction k; cbn; auto. Qed.

Lemma substring_free (c : ascii) (s : string) :
  hasChar c s = false -> forall n m, hasChar c (substring n m s) = false.
Proof.
  induction s as [|a s IH]; intros H n m.
  - destruct n, m; reflexivity.
  - cbn in H. apply orb_false_elim in H as [Ha Hs].
    destruct n as [|n]; [destruct m as [|m]|]; cbn; [reflexivity| |now apply IH].
    rewrite Ha. now apply IH.
Qed.

Lemma placePoint_free (c : ascii) (digits : nat) (n : Z) :
  c = ","%char \/ c = newline -> hasChar c (placePoint digits n) = false.
Proof.
  intros Hc. unfold placePoint, digitsOf.
  pose proof (digits_free c (N.to_uint (Z.to_N n)) Hc) as Hd.
  destruct digits as [|digits]; [exact Hd|].
  set (m := if (_ <=? _)%nat then _ else _).
  assert (Hm : hasChar c m = false).
  { subst m. destruct (_ <=? _)%nat; [|exact Hd].
    now rewrite hasChar_app, repeatZero_free, Hd. }
  rewrite !hasChar_app, !substring_free by exact Hm.
  destruct Hc as [-> | ->]; reflexivity.
Qed.

Lemma fixedNotation_free (digits : nat) (x : float) :
  delimiterFree (fixedNotation digits x).
Proof.
  unfold delimiterFree, fixedNotation.
  destruct (Prim2SF x) as [s|s| |s m e].
  - split; apply placePoint_free; auto.
  - destruct s; split; reflexivity.
  - split; reflexivity.
  - split; rewrite hasChar_app, placePoint_free by auto;
      destruct s; reflexivity.
Qed.

Lemma batch_csv_reads_back_witness :
  Forall (fun r => delimiterFree (fileName r) /\ delimiterFree (fileSize r))
         (batchResults (processBatchFiles sampleReader sampleState)) /\
  map (splitOn ",")
      (splitOn newline
         (batchCsvContent fixedNotation
            (batchResults (processBatchFiles sampleReader sampleState)))) =
  csvHeaderFields ::
  map (rowFields fixedNotation)
      (batchResults (processBatchFiles sampleReader sampleState)).
Proof.
  assert (H : Forall (fun r => delimiterFree (fileName r)
                               /\ delimiterFree (fileSize r))
                (batchResults (processBatchFiles sampleReader sampleState))).
  { vm_compute. repeat constructor. }
  split; [exact H|].
  exact (batch_csv_reads_back fixedNotation fixedNotation_free _ H).
Defined.

(** Fields are not quoted: a comma in a file name shifts the columns. *)
Example comma_in_name_breaks_columns :
  List.length
    (splitOn ","
       (String.concat ","
          (rowFields fixedNotation
             (mkFileResult "a,b.jpg" "1 KB" [] 1 "image" None completed
                (mkFile "a,b.jpg" 1024 "image/jpeg" ""))))) = 7%nat.
Proof. vm_compute. reflexivity. Qed.

(** The exported text of the sample run. *)
Example sample_csv :
  splitOn newline
    (batchCsvContent fixedNotation
       (batchResults (processBatchFiles sampleReader sampleState))) =
  ["File Name,File Size,Detections Count,Processing Time,Light States,Confidence Scores";
   "Red_Green.jpg,1 KB,2,1.33s,Red Light; Green Light,81.0%; 81.0%";
   "blue_car.jpg,1 KB,0,1.05s,,"].
Proof. vm_compute. reflexivity. Qed.

(** ** Batch runs with other handlers in between *)

(** Forward construction of paths: one more step from the configuration
    [R] speaks of. *)
Ltac advance R tac :=
  match type of R with
  | reachableWith ?fmt ?rd _ =>
      let R' := fresh "R" in
      eassert (R' : reachableWith fmt rd _)
        by (eapply reachable_step; [exact R|tac]);
      clear R; rename R' into R
  | runOf ?fmt ?rd ?st0 _ _ _ =>
      let R' := fresh "R" in
      eassert (R' : runOf fmt rd st0 _ _ _)
        by (eapply run_continues; [exact R|tac]);
      clear R; rename R' into R
  end.

Section RunProperties.

Variable formatFileSize : Z -> string.
Variable readAsDataURL : File -> string.

Lemma firstn_snoc {A : Type} (l : list A) :
  forall i x, nth_error l i = Some x -> firstn (S i) l = firstn i l ++ [x].
Proof.
  induction l as [|y l IH]; intros [|i] x H; try discriminate H.
  - cbn in H. injection H as ->. reflexivity.
  - cbn [nth_error] in H. change (firstn (S (S i)) (y :: l))
      with (y :: firstn (S i) l).
    rewrite (IH i x H). reflexivity.
Qed.

Lemma comparisonsOf_app ann (l1 l2 : list File) :
  comparisonsOf ann (l1 ++ l2) = comparisonsOf ann l1 ++ comparisonsOf ann l2.
Proof. apply flat_map_app. Qed.

Lemma processBatchFiles_comparisonsOf (st : AppState) :
  selectedFiles st <> [] ->
  comparisonResults (processBatchFiles readAsDataURL st) =
  comparisonsOf (manualAnnotations st) (selectedFiles st).
Proof.
  intros Hne. rewrite (processBatchFiles_comparisons readAsDataURL st Hne).
  now rewrite fold_compareFile_flat_map.
Qed.

(** What a suspended run holds: the files and annotations of the state it
    started from, and the comparisons of the files it has finished. *)
Lemma runOf_captured st0 st run job :
  runOf formatFileSize readAsDataURL st0 st run job ->
  run_files run = selectedFiles st0 /\
  run_annotations run = manualAnnotations st0 /\
  run_acc run =
    comparisonsOf (manualAnnotations st0)
      (firstn (run_i run) (selectedFiles st0)).
Proof.
  induction 1 as [job Hreach Hne|st run job st' run' job' Hrun IH Hstep].
  - repeat split.
  - destruct IH as (Hfiles & Hann & Hacc).
    inversion Hstep; subst;
      cbn [run_files run_annotations run_i run_acc] in *;
      try (repeat split; assumption).
    subst. repeat split.
    unfold finishFile. cbn [snd]. rewrite compareFile_app.
    match goal with
    | Hnth : nth_error (selectedFiles st0) _ = Some _ |- _ =>
        rewrite (firstn_snoc _ _ _ Hnth)
    end.
    rewrite comparisonsOf_app. unfold comparisonsOf at 3.
    cbn [flat_map]. now rewrite app_nil_r.
Qed.

Lemma runOf_reachable st0 st run job :
  runOf formatFileSize readAsDataURL st0 st run job ->
  reachableWith formatFileSize readAsDataURL (st, Some run, job) /\
  reachable formatFileSize readAsDataURL (st0, None) /\
  selectedFiles st0 <> [].
Proof.
  induction 1 as [job Hreach Hne|st run job st' run' job' Hrun IH Hstep].
  - repeat split; [|now exists job|exact Hne].
    eapply reachable_step; [exact Hreach|]. now apply step_batchStart.
  - destruct IH as (Hreach & Hstart & Hne). repeat split; try assumption.
    eapply reachable_step; [exact Hreach|exact Hstep].
Qed.

(** However a run is interleaved, it ends with the comparisons of the
    selection and the annotations it started with. *)
Lemma runEndsIn_comparisons st0 st' :
  runEndsIn formatFileSize readAsDataURL st0 st' ->
  comparisonResults st' =
  comparisonsOf (manualAnnotations st0) (selectedFiles st0).
Proof.
  intros (st & run & job & job' & Hrun & Hstep).
  destruct (runOf_captured _ _ _ _ Hrun) as (Hfiles & Hann & Hacc).
  inversion Hstep; subst.
  cbn [run_files run_annotations run_i run_acc] in *. subst.
  cbn [endBatch comparisonResults setIsBatchProcessing setCurrentProcessingFile
       setComparisonResults].
  f_equal. apply firstn_all2.
  now apply nth_error_None.
Qed.

Lemma runEndsIn_start st0 st' :
  runEndsIn formatFileSize readAsDataURL st0 st' ->
  reachable formatFileSize readAsDataURL (st0, None) /\
  selectedFiles st0 <> [] /\
  reachable formatFileSize readAsDataURL (st', None).
Proof.
  intros (st & run & job & job' & Hrun & Hstep).
  destruct (runOf_reachable _ _ _ _ Hrun) as (Hreach & Hstart & Hne).
  repeat split; try assumption.
  exists job'. eapply reachable_step; [exact Hreach|exact Hstep].
Qed.

Lemma loop_runOf st0 (files : list File) (ann : list ManualAnnotation)
  (job : option FileRun) (rest : list File) :
  forall i st acc,
    skipn i files = rest ->
    runOf formatFileSize readAsDataURL st0 st
      (mkBatchRun files ann i false acc) job ->
    runOf formatFileSize readAsDataURL st0
      (fst (batchLoop readAsDataURL (List.length files) ann rest i st acc))
      (mkBatchRun files ann (i + List.length rest) false
         (snd (batchLoop readAsDataURL (List.length files) ann rest i st acc)))
      job.
Proof.
  induction rest as [|file0 rest IH]; intros i st acc Hskip Hrun.
  - cbn. rewrite Nat.add_0_r. exact Hrun.
  - apply skipn_cons_nth in Hskip as [Hnth Hskip].
    rewrite batchLoop_unfold. cbn [List.length].
    rewrite Nat.add_succ_r, <- Nat.add_succ_l.
    apply IH; [exact Hskip|].
    eapply run_continues.
    + eapply run_continues; [exact Hrun|].
      apply step_batchBegin. exact Hnth.
    + apply step_batchFinish. exact Hnth.
Qed.

(** The uninterrupted run is one of the runs. *)
Lemma processBatchFiles_runEndsIn (st : AppState) :
  reachable formatFileSize readAsDataURL (st, None) ->
  selectedFiles st <> [] ->
  runEndsIn formatFileSize readAsDataURL st (processBatchFiles readAsDataURL st).
Proof.
  intros [job Hreach] Hne.
  pose proof (run_started formatFileSize readAsDataURL st job Hreach Hne)
    as Hrun.
  apply (loop_runOf st (selectedFiles st) (manualAnnotations st) job
           (selectedFiles st) 0 (startBatch st) [] eq_refl) in Hrun.
  unfold processBatchFiles.
  destruct (selectedFiles st) as [|file0 rest] eqn:Hsel; [congruence|].
  cbn [List.length Nat.eqb]. cbn [List.length] in Hrun.
  destruct (batchLoop _ _ _ _ _ _ _) as [st' acc]. cbn [fst snd] in Hrun.
  eexists _, _, job, job. split; [exact Hrun|].
  apply step_batchEnd. cbn [Nat.add].
  apply nth_error_None. cbn [List.length]. lia.
Qed.

Lemma comparisonsOf_In ann (files : list File) (c : ComparisonResult) :
  In c (comparisonsOf ann files) ->
  exists file0, In file0 files /\ comparisonOf ann file0 c.
Proof.
  unfold comparisonsOf. rewrite in_flat_map. intros (file0 & Hin & Hc).
  exists file0. split; [exact Hin|].
  apply compareFile_In in Hc as [[]|Hc]. exact Hc.
Qed.

(** C5, corrected. Every batch run, with whatever handlers run while it
    waits, ends with a comparison list in which each entry is the comparison
    of a file of the selection the run started with that had a
    ManualAnnotation under its name when the run started, and has at least
    one detection.  A file without detections gets no comparison; the step of
    the run that finishes it (the file at index i of N) sets the progress to
    ((i + 1) / N) * 100, marks the entry at index i of the result list
    completed with no detections, and leaves the collected comparisons as
    they are; in the uninterrupted run its entry ends completed. *)
Theorem comparisons_need_annotation_and_detection (st0 st' : AppState) :
  runEndsIn formatFileSize readAsDataURL st0 st' ->
  (forall c,
      In c (comparisonResults st') ->
      exists file0,
        In file0 (selectedFiles st0) /\
        comparisonOf (manualAnnotations st0) file0 c) /\
  (forall i file0,
      nth_error (selectedFiles st0) i = Some file0 ->
      analyzeImageForTrafficLights file0 = [] ->
      (forall c, In c (comparisonResults st') -> cr_fileName c <> name file0) /\
      (forall st run job st1 run1 job1,
          runOf formatFileSize readAsDataURL st0 st run job ->
          step formatFileSize readAsDataURL
            (st, Some run, job) (st1, Some run1, job1) ->
          run_i run = i -> run_i run1 = S i ->
          batchProgress st1 =
            (JS.number (Z.of_nat i + 1)
             / JS.number (Z.of_nat (List.length (selectedFiles st0))) * 100)%float /\
          run_acc run1 = run_acc run /\
          List.length (batchResults st1) = List.length (batchResults st) /\
          forall r,
            nth_error (batchResults st) i = Some r ->
            exists r',
              nth_error (batchResults st1) i = Some r' /\
              status r' = completed /\ detections r' = [] /\
              fileName r' = fileName r /\ file r' = file r) /\
      (exists r,
          nth_error (batchResults (processBatchFiles readAsDataURL st0)) i
            = Some r /\
          file r = file0 /\ status r = completed /\ detections r = [])).
Proof.
  intros Hend.
  pose proof (runEndsIn_comparisons st0 st' Hend) as Hcmp.
  destruct (runEndsIn_start st0 st' Hend) as (Hreach & Hne & _).
  assert (Hall : forall c,
             In c (comparisonResults st') ->
             exists file0,
               In file0 (selectedFiles st0) /\
               comparisonOf (manualAnnotations st0) file0 c).
  { intros c Hin. rewrite Hcmp in Hin. now apply comparisonsOf_In. }
  split; [exact Hall|]. intros i file0 Hi Hnil. split; [|split].
  - intros c Hin Hname.
    apply Hall in Hin as (file1 & _ & a & p & _ & _ & Hdet & _ & ->).
    cbn in Hname. apply Hdet.
    rewrite (analyze_same_name file1 file0 Hname). exact Hnil.
  - intros st run job st1 run1 job1 Hrun Hstep Hi0 Hi1.
    destruct (runOf_captured _ _ _ _ Hrun) as (Hfiles & Hann & _).
    inversion Hstep; subst;
      cbn [run_files run_annotations run_i run_acc] in *;
      try (exfalso; lia).
    subst.
    match goal with
    | Hnth : nth_error _ _ = Some ?f |- _ =>
        lazymatch f with
        | file0 => fail
        | _ => assert (Hf : f = file0) by congruence
        end
    end.
    subst. unfold finishFile. rewrite Hnil.
    cbn [fst snd batchProgress batchResults setBatchProgress setBatchResults].
    repeat split.
    + unfold compareFile. now destruct (find _ _).
    + unfold markCompleted. apply length_mapIndexed.
    + intros r Hr. unfold markCompleted. rewrite nth_error_mapIndexed, Hr.
      cbn [option_map]. rewrite Nat.eqb_refl.
      eexists. split; [reflexivity|]. repeat split.
  - destruct (aligned_run_comparisons readAsDataURL st0 Hne
                (reachable_aligned _ _ _ Hreach)) as [_ Hzero].
    exact (proj1 (Hzero i file0 Hi Hnil)).
Qed.

(** X14. Every batch run, with whatever handlers run while it waits, ends
    with the comparison list of the uninterrupted run from the state it
    started in: one entry for each file of the selection it started with that
    had an annotation under its name when it started and has at least one
    detection, in the order of the selection, and so never more entries than
    files.  A label saved or removed while the run waits does not count. *)
Theorem comparisons_cover_comparable_files (st0 st' : AppState) :
  runEndsIn formatFileSize readAsDataURL st0 st' ->
  comparisonResults st' =
    comparisonResults (processBatchFiles readAsDataURL st0) /\
  map cr_file (comparisonResults st') =
    filter (comparable (manualAnnotations st0)) (selectedFiles st0) /\
  (List.length (comparisonResults st') <= List.length (selectedFiles st0))%nat.
Proof.
  intros Hend.
  pose proof (runEndsIn_comparisons st0 st' Hend) as Hcmp.
  destruct (runEndsIn_start st0 st' Hend) as (_ & Hne & _).
  assert (Hfiles :
    map cr_file (comparisonResults st') =
    filter (comparable (manualAnnotations st0)) (selectedFiles st0)).
  { rewrite Hcmp. apply flat_map_compareFile_files. }
  split; [|split].
  - now rewrite Hcmp, processBatchFiles_comparisonsOf.
  - exact Hfiles.
  - rewrite <- (length_map cr_file), Hfiles. apply filter_length_le.
Qed.

(** Uninterrupted, processFile is its start followed by its finish. *)
Lemma processFile_steps (st : AppState) (run : option BatchRun) (sel : File) :
  selectedFile st = Some sel ->
  step formatFileSize readAsDataURL
    (st, run, None) (st, run, Some (mkFileRun sel (imagePreview st))) /\
  step formatFileSize readAsDataURL
    (st, run, Some (mkFileRun sel (imagePreview st))) (processFile st, run, None).
Proof.
  intros Hsel. split; [now apply step_fileStart|].
  replace (processFile st)
    with (finishProcessFile (mkFileRun sel (imagePreview st)) st)
    by (unfold processFile; now rewrite Hsel).
  apply step_fileFinish.
Qed.

(** X18. The single-image comparison card and the batch loop agree when
    processFile finishes while the file it was started for is the selected
    one: the card then compares exactly what the batch loop would push for
    that file, and shows nothing exactly when the loop would push nothing.
    But processFile reads selectedFile before its delay and writes the
    results after it: if another file is selected in between, the card shows
    the selected file's label against a detection of the other file.  A
    state is reachable in which the card's detection is none of the
    labeler's detections for the selected file. *)
Theorem single_and_batch_comparison_agree :
  (forall (st : AppState) (job : FileRun) (f : File),
      selectedFile st = Some f ->
      fr_file job = f ->
      compareFile (manualAnnotations st) f (analyzeImageForTrafficLights f) [] =
      match singleImageComparison (finishProcessFile job st) with
      | Some (a, p, ok) =>
          [mkComparisonResult (name f) (ma_humanLabel a) (light_state p)
             (confidence p) ok f]
      | None => []
      end) /\
  (exists st f a p ok,
      reachable formatFileSize readAsDataURL (st, None) /\
      selectedFile st = Some f /\
      singleImageComparison st = Some (a, p, ok) /\
      ~ In p (analyzeImageForTrafficLights f)).
Proof.
  split.
  - intros st job f Hsel Hjob.
    unfold singleImageComparison, finishProcessFile.
    cbn [setResults selectedFile results manualAnnotations res_detections].
    rewrite Hsel, Hjob. unfold compareFile.
    destruct (find _ (manualAnnotations st)); [|reflexivity].
    destruct (primaryDetection _); reflexivity.
  - pose (green := sampleFile "green.jpg"). pose (red := sampleFile "red.jpg").
    pose proof (reachable_init formatFileSize readAsDataURL) as R.
    advance R ltac:(apply (step_fileSelect _ _ _ None None (Some green))).
    advance R ltac:(apply (step_fileStart _ _ _ None green); reflexivity).
    advance R ltac:(apply step_fileFinish).
    advance R ltac:(apply (step_annotate _ _ _ None None green)).
    advance R ltac:(apply (step_saveAnnotation _ _ _ None None green_light 1%float)).
    advance R ltac:(apply (step_fileSelect _ _ _ None None (Some red))).
    advance R ltac:(apply (step_fileStart _ _ _ None red); reflexivity).
    advance R ltac:(apply (step_fileSelect _ _ _ None _ (Some green))).
    advance R ltac:(apply step_fileFinish).
    eexists _, green, _, _, _. split; [exists None; exact R|].
    split; [reflexivity|]. split; [lazy; reflexivity|].
    intros H. vm_compute in H. intuition discriminate.
Qed.

(** X21. The comparison list changes only in the step that ends a batch
    run: that step stores the list the run has collected in its local array.
    Selecting or dropping files, opening the dialog, saving or removing a
    label, starting or finishing single-file processing, and the per-file
    updates of the loop leave the list as it was; so a label saved after a
    run does not show in the comparisons until another run ends. *)
Theorem comparisons_replaced_only_at_run_end (c c' : PageConfig) :
  step formatFileSize readAsDataURL c c' ->
  match snd (fst c), snd (fst c') with
  | Some run, None => comparisonResults (fst (fst c')) = run_acc run
  | _, _ => comparisonResults (fst (fst c')) = comparisonResults (fst (fst c))
  end.
Proof.
  intros Hstep. destruct Hstep; cbn [fst snd];
    try (destruct run; reflexivity); try reflexivity.
  - destruct picked; destruct run; reflexivity.
  - unfold handleFolderSelect. destruct (0 <? _)%nat; destruct run; reflexivity.
  - unfold handleDrop.
    destruct (filter isMedia files) as [|f1 [|f2 rest]]; destruct run;
      reflexivity.
  - unfold saveManualAnnotation.
    destruct (currentAnnotationFile st); destruct run; reflexivity.
  - unfold removeAnnotation. destruct (selectedFile st); destruct run; reflexivity.
Qed.

End RunProperties.

(** ** Runs on the sample page *)

(** The run in which the label is removed while the run waits. *)
Lemma interrupted_run_ends :
  runEndsIn sampleFormat sampleReader labelledFolder afterInterruptedRun.
Proof.
  assert (Hstart : reachableWith sampleFormat sampleReader
                     (labelledFolder, None, None)).
  { unfold labelledFolder.
    repeat (eapply reachable_step; [|constructor]). apply reachable_init. }
  assert (Hne : selectedFiles labelledFolder <> []) by discriminate.
  pose proof (run_started sampleFormat sampleReader labelledFolder None
                Hstart Hne) as R.
  advance R ltac:(apply (step_batchBegin _ _ _ _ _ _ 0%nat _ (sampleFile "red.jpg"));
                  reflexivity).
  advance R ltac:(apply (step_fileSelect _ _ _ _ _ (Some (sampleFile "red.jpg")))).
  advance R ltac:(apply (step_fileStart _ _ _ _ (sampleFile "red.jpg"));
                  reflexivity).
  advance R ltac:(apply (step_batchFinish _ _ _ _ _ _ 0%nat _ (sampleFile "red.jpg"));
                  reflexivity).
  advance R ltac:(apply (step_batchBegin _ _ _ _ _ _ 1%nat _ (sampleFile "car1.jpg"));
                  reflexivity).
  advance R ltac:(apply (step_batchFinish _ _ _ _ _ _ 1%nat _ (sampleFile "car1.jpg"));
                  reflexivity).
  advance R ltac:(apply (step_batchBegin _ _ _ _ _ _ 2%nat _ (sampleFile "car2.jpg"));
                  reflexivity).
  advance R ltac:(apply (step_batchFinish _ _ _ _ _ _ 2%nat _ (sampleFile "car2.jpg"));
                  reflexivity).
  advance R ltac:(apply (step_batchBegin _ _ _ _ _ _ 3%nat _ (sampleFile "car3.jpg"));
                  reflexivity).
  advance R ltac:(apply step_fileFinish).
  advance R ltac:(apply step_removeAnnotation).
  advance R ltac:(apply (step_batchFinish _ _ _ _ _ _ 3%nat _ (sampleFile "car3.jpg"));
                  reflexivity).
  eexists _, _, _, None. split; [exact R|].
  apply step_batchEnd. reflexivity.
Qed.

(** C5, as stated, fails: a run ends with a comparison for "red.jpg" although
    no ManualAnnotation is left.  The folder is labelled, the run starts;
    while it waits the user opens "red.jpg" in the single-file view,
    processes it and removes its label there; the run, which reads the
    annotations it captured when it started, still compares the file. *)
Lemma comparison_without_annotation :
  runEndsIn sampleFormat sampleReader labelledFolder afterInterruptedRun /\
  manualAnnotations afterInterruptedRun = [] /\
  map (fun c => (cr_fileName c, humanLabel c, modelPrediction c, isCorrect c))
      (comparisonResults afterInterruptedRun)
    = [("red.jpg", red_light, red_light, true)] /\
  exists c,
    In c (comparisonResults afterInterruptedRun) /\
    findAnnotation (cr_fileName c) (manualAnnotations afterInterruptedRun) = None.
Proof.
  split; [exact interrupted_run_ends|].
  split; [vm_compute; reflexivity|]. split; [vm_compute; reflexivity|].
  vm_compute. eexists. split; [left; reflexivity|reflexivity].
Qed.

Lemma comparisons_need_annotation_and_detection_witness :
  runEndsIn sampleFormat sampleReader sampleState
    (processBatchFiles sampleReader sampleState) /\
  (forall c,
      In c (comparisonResults (processBatchFiles sampleReader sampleState)) ->
      exists file0,
        In file0 (selectedFiles sampleState) /\
        comparisonOf (manualAnnotations sampleState) file0 c) /\
  (forall i file0,
      nth_error (selectedFiles sampleState) i = Some file0 ->
      analyzeImageForTrafficLights file0 = [] ->
      (forall c,
          In c (comparisonResults (processBatchFiles sampleReader sampleState)) ->
          cr_fileName c <> name file0) /\
      (forall st run job st1 run1 job1,
          runOf sampleFormat sampleReader sampleState st run job ->
          step sampleFormat sampleReader
            (st, Some run, job) (st1, Some run1, job1) ->
          run_i run = i -> run_i run1 = S i ->
          batchProgress st1 =
            (JS.number (Z.of_nat i + 1)
             / JS.number (Z.of_nat (List.length (selectedFiles sampleState)))
             * 100)%float /\
          run_acc run1 = run_acc run /\
          List.length (batchResults st1) = List.length (batchResults st) /\
          forall r,
            nth_error (batchResults st) i = Some r ->
            exists r',
              nth_error (batchResults st1) i = Some r' /\
              status r' = completed /\ detections r' = [] /\
              fileName r' = fileName r /\ file r' = file r) /\
      (exists r,
          nth_error (batchResults (processBatchFiles sampleReader sampleState)) i
            = Some r /\
          file r = file0 /\ status r = completed /\ detections r = [])).
Proof.
  assert (Hend : runEndsIn sampleFormat sampleReader sampleState
                   (processBatchFiles sampleReader sampleState))
    by (apply processBatchFiles_runEndsIn;
        [exact sampleState_reachable|exact sampleState_selected]).
  split; [exact Hend|].
  exact (comparisons_need_annotation_and_detection sampleFormat sampleReader
           sampleState (processBatchFiles sampleReader sampleState) Hend).
Defined.

(** The step of the sample run that finishes "blue_car.jpg", the file at
    index 1 of 2, which has no detections. *)
Example sample_zero_detection_step :
  exists st run st1 run1,
    runOf sampleFormat sampleReader sampleState st run None /\
    step sampleFormat sampleReader (st, Some run, None) (st1, Some run1, None) /\
    run_i run = 1%nat /\ run_i run1 = 2%nat /\
    option_map name (nth_error (selectedFiles sampleState) 1) =
      Some "blue_car.jpg" /\
    analyzeImageForTrafficLights (mkFile "blue_car.jpg" 4096 "image/jpeg" "CCCC")
      = [] /\
    batchProgress st1 = 100%float /\
    map status (batchResults st) = [completed; processing] /\
    map status (batchResults st1) = [completed; completed] /\
    run_acc run1 = run_acc run.
Proof.
  pose proof (run_started sampleFormat sampleReader sampleState None
                sampleState_reachableWith sampleState_selected) as R.
  advance R ltac:(apply (step_batchBegin _ _ _ _ _ _ 0%nat _
                           (mkFile "Red_Green.jpg" 2048 "image/jpeg" "AAAA"));
                  reflexivity).
  advance R ltac:(apply (step_batchFinish _ _ _ _ _ _ 0%nat _
                           (mkFile "Red_Green.jpg" 2048 "image/jpeg" "AAAA"));
                  reflexivity).
  advance R ltac:(apply (step_batchBegin _ _ _ _ _ _ 1%nat _
                           (mkFile "blue_car.jpg" 4096 "image/jpeg" "CCCC"));
                  reflexivity).
  eexists _, _, _, _. split; [exact R|]. split.
  - apply (step_batchFinish _ _ _ _ _ _ 1%nat _
             (mkFile "blue_car.jpg" 4096 "image/jpeg" "CCCC")).
    reflexivity.
  - vm_compute. repeat split.
Qed.

(** The run in which the label comes while the run waits. *)
Lemma late_label_run_ends :
  runEndsIn sampleFormat sampleReader unlabelledFolder afterLateLabel.
Proof.
  assert (Hstart : reachableWith sampleFormat sampleReader
                     (unlabelledFolder, None, None)).
  { unfold unlabelledFolder.
    repeat (eapply reachable_step; [|constructor]). apply reachable_init. }
  assert (Hne : selectedFiles unlabelledFolder <> []) by discriminate.
  pose proof (run_started sampleFormat sampleReader unlabelledFolder None
                Hstart Hne) as R.
  advance R ltac:(apply (step_batchBegin _ _ _ _ _ _ 0%nat _ (sampleFile "red.jpg"));
                  reflexivity).
  advance R ltac:(apply (step_annotate _ _ _ _ _ (sampleFile "red.jpg"))).
  advance R ltac:(apply (step_saveAnnotation _ _ _ _ _ red_light 1%float)).
  advance R ltac:(apply (step_batchFinish _ _ _ _ _ _ 0%nat _ (sampleFile "red.jpg"));
                  reflexivity).
  eexists _, _, _, None. split; [exact R|].
  apply step_batchEnd. reflexivity.
Qed.

(** The file is selected, labelled and has a detection when the run ends,
    and the run has not compared it. *)
Example late_label_not_compared :
  map ma_fileName (manualAnnotations afterLateLabel) = ["red.jpg"] /\
  map name (selectedFiles afterLateLabel) = ["red.jpg"] /\
  analyzeImageForTrafficLights (sampleFile "red.jpg") <> [] /\
  comparisonResults afterLateLabel = [].
Proof. vm_compute. repeat split. discriminate. Qed.

Lemma comparisons_cover_comparable_files_witness :
  runEndsIn sampleFormat sampleReader unlabelledFolder afterLateLabel /\
  comparisonResults afterLateLabel =
    comparisonResults (processBatchFiles sampleReader unlabelledFolder) /\
  map cr_file (comparisonResults afterLateLabel) =
    filter (comparable (manualAnnotations unlabelledFolder))
           (selectedFiles unlabelledFolder) /\
  (List.length (comparisonResults afterLateLabel)
   <= List.length (selectedFiles unlabelledFolder))%nat.
Proof.
  split; [exact late_label_run_ends|].
  exact (comparisons_cover_comparable_files sampleFormat sampleReader
           unlabelledFolder afterLateLabel late_label_run_ends).
Defined.

Lemma single_and_batch_comparison_agree_witness :
  compareFile (manualAnnotations sampleSingleState)
    (mkFile "red_stop_sign.jpg" 512 "image/png" "DDDD")
    (analyzeImageForTrafficLights
       (mkFile "red_stop_sign.jpg" 512 "image/png" "DDDD")) [] =
  match
    singleImageComparison
      (finishProcessFile
         (mkFileRun (mkFile "red_stop_sign.jpg" 512 "image/png" "DDDD")
            (imagePreview sampleSingleState))
         sampleSingleState)
  with
  | Some (a, p, ok) =>
      [mkComparisonResult "red_stop_sign.jpg" (ma_humanLabel a) (light_state p)
         (confidence p) ok (mkFile "red_stop_sign.jpg" 512 "image/png" "DDDD")]
  | None => []
  end.
Proof.
  exact (proj1 (single_and_batch_comparison_agree sampleFormat sampleReader)
           sampleSingleState
           (mkFileRun (mkFile "red_stop_sign.jpg" 512 "image/png" "DDDD")
              (imagePreview sampleSingleState))
           (mkFile "red_stop_sign.jpg" 512 "image/png" "DDDD")
           eq_refl eq_refl).
Defined.

(** The step that ends the sample run stores the list the run holds. *)
Lemma comparisons_replaced_only_at_run_end_witness :
  step sampleFormat sampleReader
    (stateAfter sampleReader 2 sampleState,
     Some (mkBatchRun (selectedFiles sampleState)
             (manualAnnotations sampleState) 2 false sampleComparisons),
     None)
    (endBatch sampleComparisons (stateAfter sampleReader 2 sampleState),
     None, None) /\
  comparisonResults
    (endBatch sampleComparisons (stateAfter sampleReader 2 sampleState))
  = sampleComparisons.
Proof.
  assert (H : step sampleFormat sampleReader
                (stateAfter sampleReader 2 sampleState,
                 Some (mkBatchRun (selectedFiles sampleState)
                         (manualAnnotations sampleState) 2 false
                         sampleComparisons),
                 None)
                (endBatch sampleComparisons
                   (stateAfter sampleReader 2 sampleState),
                 None, None))
    by (apply step_batchEnd; reflexivity).
  split; [exact H|].
  exact (comparisons_replaced_only_at_run_end sampleFormat sampleReader _ _ H).
Defined.
